(** * OpenSAM: the LLM gateway, the rate limiters, cosine ranking and the
      search-result cache, embedded in Rocq.

    Sources embedded here:
    - [src/app/api/chat/route.ts] and its pages-router twin: the rate limiter
      and the three provider adapters of the chat gateway;
    - [src/pages/api/sam-search.ts]: the rate limiter, the embedding cache,
      semantic ranking, the result cache and the request handler;
    - [lib/utils]: [cosineSimilarity].

    JavaScript numbers are IEEE-754 binary64 values; they are modelled by Rocq's
    primitive floats, which are the same format with the same rounding.
    Millisecond timestamps and request counters are integers far below 2^53 and
    are modelled by [Z].  A request handler is modelled as running from start
    to end without another request's code in between. *)

From Stdlib Require Import ZArith Floats Uint63 DecimalString Lia Sorted Permutation.
From stdpp Require Import gmap strings list.

Local Open Scope Z_scope.

(** ** Outcomes of a call: a returned value or a thrown exception *)

(** [Error] is a [new Error(message)] thrown by the program, [TypeError] one
    raised by the engine (the text is V8's). *)
Inductive exn : Type :=
| Error (message : string)
| TypeError (message : string).

Definition message_of (e : exn) : string :=
  match e with Error m | TypeError m => m end.

Inductive outcome (A : Type) : Type :=
| Return (a : A)
| Throw (e : exn).
Arguments Return {A} a.
Arguments Throw {A} e.

Definition obind {A B} (m : outcome A) (k : A -> outcome B) : outcome B :=
  match m with
  | Return a => k a
  | Throw e => Throw e
  end.

#[export] Instance outcome_ret : MRet outcome := fun A a => Return a.
#[export] Instance outcome_bind : MBind outcome := fun A B k m => obind m k.
#[export] Instance outcome_fmap : FMap outcome :=
  fun A B f m => obind m (fun a => Return (f a)).

(** ** JavaScript values *)

(** The values [response.json()] can produce, plus [undefined].  An object is
    the list of its own properties in insertion order. *)
#[warnings="-register-all"]
Inductive jsval : Type :=
| JUndefined
| JNull
| JBool (b : bool)
| JNum (x : float)
| JStr (s : string)
| JArr (items : list jsval)
| JObj (fields : list (string * jsval)).

(** Functions of the JavaScript host that the program calls and that are not
    part of it.  Every property below holds whatever these compute. *)
Class Host : Type := {
  (** [Number.prototype.toString], as used by template literals and [+] *)
  number_to_string : float -> string;
  (** [JSON.stringify] *)
  JSON_stringify : jsval -> string;
  (** [parseInt] on a string *)
  parseInt : string -> float;
  (** [String.prototype.trim] *)
  trim : string -> string
}.

Module JS.

(** ToBoolean. *)
Definition truthy (v : jsval) : bool :=
  match v with
  | JUndefined | JNull => false
  | JBool b => b
  | JNum x => negb (PrimFloat.is_zero x || PrimFloat.is_nan x)
  | JStr s => negb (String.eqb s "")
  | JArr _ | JObj _ => true
  end.

(** [a || b] *)
Definition or (a b : jsval) : jsval := if truthy a then a else b.

(** [x || d] on a number [x]. *)
Definition num_or (x d : float) : float :=
  if PrimFloat.is_zero x || PrimFloat.is_nan x then d else x.

(** [x || 0] on a number. *)
Definition num_or0 (x : float) : float := num_or x 0%float.

(** [Array.isArray] *)
Definition isArray (v : jsval) : bool :=
  match v with JArr _ => true | _ => false end.

(** The property keys the program reads: a fixed name, or index 0.  None of
    the names it uses is an inherited property of a JSON value. *)
Inductive key : Type := Field (name : string) | Index0.

Definition key_name (k : key) : string :=
  match k with Field n => n | Index0 => "0" end.

Fixpoint own (fields : list (string * jsval)) (name : string) : jsval :=
  match fields with
  | [] => JUndefined
  | (n, v) :: rest => if String.eqb n name then v else own rest name
  end.

Definition describe (v : jsval) : string :=
  match v with JNull => "null" | _ => "undefined" end.

(** [v[k]] / [v.k]: reading a property of [undefined] or [null] throws. *)
Definition get (v : jsval) (k : key) : outcome jsval :=
  match v with
  | JUndefined | JNull =>
      Throw (TypeError ("Cannot read properties of " +:+ describe v +:+
                        " (reading '" +:+ key_name k +:+ "')"))
  | JObj fields => Return (own fields (key_name k))
  | JArr items =>
      Return (match k with Index0 => default JUndefined (head items)
                         | Field _ => JUndefined end)
  | JStr s =>
      Return (match k, s with
              | Index0, String c _ => JStr (String c "")
              | _, _ => JUndefined
              end)
  | JBool _ | JNum _ => Return JUndefined
  end.

(** [v.k1.k2...] *)
Fixpoint path (v : jsval) (keys : list key) : outcome jsval :=
  match keys with
  | [] => Return v
  | k :: keys' => v' ← get v k; path v' keys'
  end.

(** [v?.k] *)
Definition opt_get (v : jsval) (k : key) : outcome jsval :=
  match v with
  | JUndefined | JNull => Return JUndefined
  | _ => get v k
  end.

Section WithHost.
Context `{Host}.

(** ToString, as applied by a template literal. *)
Fixpoint to_string (v : jsval) : string :=
  match v with
  | JUndefined => "undefined"
  | JNull => "null"
  | JBool true => "true"
  | JBool false => "false"
  | JNum x => number_to_string x
  | JStr s => s
  | JArr items =>
      (fix join (l : list jsval) : string :=
         match l with
         | [] => ""
         | v :: l' =>
             let e := match v with
                      | JUndefined | JNull => ""
                      | _ => to_string v
                      end in
             match l' with
             | [] => e
             | _ => e +:+ "," +:+ join l'
             end
         end) items
  | JObj _ => "[object Object]"
  end.

(** ToPrimitive: arrays and plain objects convert to their string. *)
Definition to_primitive (v : jsval) : jsval :=
  match v with
  | JArr _ | JObj _ => JStr (to_string v)
  | _ => v
  end.

(** ToNumber of a primitive that is not a string. *)
Definition to_number (v : jsval) : float :=
  match v with
  | JNum x => x
  | JBool true => 1%float
  | JBool false | JNull => 0%float
  | _ => nan
  end.

(** [a + b]: string concatenation if either primitive is a string, numeric
    addition otherwise. *)
Definition add (a b : jsval) : jsval :=
  let pa := to_primitive a in
  let pb := to_primitive b in
  match pa, pb with
  | JStr _, _ | _, JStr _ => JStr (to_string pa +:+ to_string pb)
  | _, _ => JNum (to_number pa + to_number pb)%float
  end.

End WithHost.
End JS.

(** ** Fixed-window rate limiting *)

Module RateLimit.

(** The value type of [rateLimitMap] / [samRateLimitMap]. *)
Record RateWindow : Type := { count : Z; timestamp : Z }.

#[export] Instance RateWindow_eq_dec : EqDecision RateWindow.
Proof. solve_decision. Defined.

(** chat/route.ts *)
Definition RATE_LIMIT_WINDOW : Z := 60000.
Definition RATE_LIMIT_MAX_REQUESTS : Z := 20.

(** pages/api/sam-search.ts *)
Definition SAM_RATE_LIMIT_WINDOW : Z := 60000.
Definition SAM_RATE_LIMIT_MAX_REQUESTS : Z := 100.

(** [checkRateLimit] of chat/route.ts.  [clientIp] is the identity the
    function derives from the request headers and [now] the reading of
    [Date.now()]; the map is the module-level [rateLimitMap], threaded
    through.  The accepted, non-reset branch stores a fresh object with
    [count + 1] and the old timestamp. *)
Definition checkRateLimit (clientIp : string) (now : Z)
    (rateLimitMap : gmap string RateWindow) : bool * gmap string RateWindow :=
  match rateLimitMap !! clientIp with
  | None =>
      (true, <[clientIp := {| count := 1; timestamp := now |}]> rateLimitMap)
  | Some clientData =>
      if now - timestamp clientData >? RATE_LIMIT_WINDOW then
        (true, <[clientIp := {| count := 1; timestamp := now |}]> rateLimitMap)
      else if count clientData >=? RATE_LIMIT_MAX_REQUESTS then
        (false, rateLimitMap)
      else
        (true, <[clientIp := {| count := count clientData + 1;
                                timestamp := timestamp clientData |}]> rateLimitMap)
  end.

(** [checkSAMRateLimit] of pages/api/sam-search.ts.  The accepted, non-reset
    branch is [clientData.count++] on the object held by the map; the map is
    the only holder of that object, so the mutation is the update of the
    entry's [count] field. *)
Definition checkSAMRateLimit (clientIp : string) (now : Z)
    (samRateLimitMap : gmap string RateWindow) : bool * gmap string RateWindow :=
  match samRateLimitMap !! clientIp with
  | None =>
      (true, <[clientIp := {| count := 1; timestamp := now |}]> samRateLimitMap)
  | Some clientData =>
      if now - timestamp clientData >? SAM_RATE_LIMIT_WINDOW then
        (true, <[clientIp := {| count := 1; timestamp := now |}]> samRateLimitMap)
      else if count clientData >=? SAM_RATE_LIMIT_MAX_REQUESTS then
        (false, samRateLimitMap)
      else
        (true, <[clientIp := {| count := count clientData + 1;
                                timestamp := timestamp clientData |}]> samRateLimitMap)
  end.

(** The identity of a pages-router request:
    [req.headers['x-forwarded-for'] || req.connection.remoteAddress || 'unknown'].
    An absent header is [None]; the empty string is falsy. *)
Definition or_else (a : option string) (b : string) : string :=
  match a with
  | Some s => if String.eqb s "" then b else s
  | None => b
  end.

Definition clientIpOf (x_forwarded_for remoteAddress : option string) : string :=
  or_else x_forwarded_for (or_else remoteAddress "unknown").

(** A run of checks by one identity, at the given clock readings, oldest
    first: the verdicts and the final map. *)
Fixpoint run (check : string -> Z -> gmap string RateWindow ->
                      bool * gmap string RateWindow)
    (clientIp : string) (times : list Z) (m : gmap string RateWindow)
    : list bool * gmap string RateWindow :=
  match times with
  | [] => ([], m)
  | now :: rest =>
      let '(ok, m') := check clientIp now m in
      let '(oks, m'') := run check clientIp rest m' in
      (ok :: oks, m'')
  end.

(** Both limiters are instances of one window policy. *)
Definition window_check (window maxRequests : Z) (clientIp : string) (now : Z)
    (m : gmap string RateWindow) : bool * gmap string RateWindow :=
  match m !! clientIp with
  | None => (true, <[clientIp := {| count := 1; timestamp := now |}]> m)
  | Some clientData =>
      if now - timestamp clientData >? window then
        (true, <[clientIp := {| count := 1; timestamp := now |}]> m)
      else if count clientData >=? maxRequests then (false, m)
      else (true, <[clientIp := {| count := count clientData + 1;
                                   timestamp := timestamp clientData |}]> m)
  end.

(** An identity starts a new window at [now]: it has no entry, or its
    entry's window has elapsed. *)
Definition starts_window (window now : Z) (e : option RateWindow) : Prop :=
  match e with
  | None => True
  | Some w => now - timestamp w > window
  end.

End RateLimit.

(** ** lib/utils: cosine similarity *)

(** The arithmetic [cosineSimilarity] is written with.  The program runs it on
    JavaScript numbers, binary64 doubles ([float_arith]). *)
Class Arith (T : Type) : Type := {
  n_zero : T;
  n_add : T -> T -> T;
  n_mul : T -> T -> T;
  n_div : T -> T -> T;
  n_sqrt : T -> T
}.

#[export] Instance float_arith : Arith float := {|
  n_zero := 0%float;
  n_add := PrimFloat.add;
  n_mul := PrimFloat.mul;
  n_div := PrimFloat.div;
  n_sqrt := PrimFloat.sqrt
|}.

Module Utils.
Section WithArith.
Context {T : Type} `{Arith T}.

(** The three accumulators of the loop in [cosineSimilarity]. *)
Record sums : Type := { dotProduct : T; normA : T; normB : T }.

(** One iteration: [dotProduct += a[i] * b[i]; normA += a[i] * a[i];
    normB += b[i] * b[i]]. *)
Definition step (s : sums) (ab : T * T) : sums :=
  {| dotProduct := n_add (dotProduct s) (n_mul ab.1 ab.2);
     normA := n_add (normA s) (n_mul ab.1 ab.1);
     normB := n_add (normB s) (n_mul ab.2 ab.2) |}.

Definition sums0 : sums :=
  {| dotProduct := n_zero; normA := n_zero; normB := n_zero |}.

(** [cosineSimilarity(a, b)].  After the length guard the loop reads [a[i]]
    and [b[i]] for [i < a.length = b.length], in index order: a left fold
    over the paired components. *)
Definition cosineSimilarity (a b : list T) : outcome T :=
  if negb (length a =? length b)%nat then
    Throw (Error "Vectors must have the same length")
  else
    let s := foldl step sums0 (zip a b) in
    Return (n_div (dotProduct s) (n_mul (n_sqrt (normA s)) (n_sqrt (normB s)))).

End WithArith.
Arguments sums T : clear implicits.


(** A vector all of whose components are zero ([x === 0] holds for both
    signed zeros). *)
Definition all_zero (v : list float) : bool := forallb PrimFloat.is_zero v.


(** The values absorbed by a zero factor: a signed zero or NaN. *)
Definition zero_or_nan (x : float) : Prop :=
  x = 0%float \/ x = (-0)%float \/ x = nan.


End Utils.

(** ** pages/api/sam-search.ts *)

Module SamSearch.

Definition CACHE_DURATION : Z := 5 * 60 * 1000.

(** A value of [req.query]: a string, or an array of strings for a repeated
    parameter. *)
Inductive qvalue : Type := QString (s : string) | QArray (l : list string).

(** The fields of [SAMOpportunity] the search path reads or writes; [rest]
    stands for all the other fields, which it only copies. *)
Record SAMOpportunity : Type := {
  id : string;
  title : string;
  description : string;
  synopsis : string;
  relevanceScore : float;
  rest : string
}.

Definition with_relevanceScore (o : SAMOpportunity) (score : float)
    : SAMOpportunity :=
  {| id := id o; title := title o; description := description o;
     synopsis := synopsis o; relevanceScore := score; rest := rest o |}.

Record SAMSearchFilters : Type := {
  keyword : option qvalue;
  startDate : option qvalue;
  endDate : option qvalue;
  naicsCode : option qvalue;
  state : option qvalue;
  agency : option qvalue;
  type : option qvalue;
  setAside : option qvalue;
  active : option bool;
  limit : float;
  offset : float
}.

(** [SAMSearchResponse]; its [facets] are four empty arrays in every
    response and are left out. *)
Record SAMSearchResponse : Type := {
  opportunities : list SAMOpportunity;
  totalRecords : nat;
  response_limit : float;
  response_offset : float
}.

(** The value type of [searchResultsCache]. *)
Record CacheEntry : Type := { data : SAMSearchResponse; timestamp : Z }.

(** What lies outside the process: the clock ([clock n] is the reading of the
    [n]-th call of [Date.now()]), the SAM.gov fetch with its reshaping of the
    records ([searchSAMOpportunities]), and the two embedding endpoints
    ([generateOpenAIEmbeddings], [generateHuggingFaceEmbeddings]), each a
    function of its arguments that returns or throws. *)
Record Env : Type := {
  clock : nat -> Z;
  searchSAMOpportunities : SAMSearchFilters -> qvalue -> outcome (list SAMOpportunity);
  generateOpenAIEmbeddings : string -> string -> outcome (list float);
  generateHuggingFaceEmbeddings : string -> string -> outcome (list float)
}.

(** The module-level maps, and the number of clock readings taken so far. *)
Record State : Type := {
  samRateLimitMap : gmap string RateLimit.RateWindow;
  embeddingCache : gmap string (list float);
  searchResultsCache : gmap string CacheEntry;
  ticks : nat
}.

Definition set_samRateLimitMap (st : State) m : State :=
  {| samRateLimitMap := m; embeddingCache := embeddingCache st;
     searchResultsCache := searchResultsCache st; ticks := ticks st |}.
Definition set_embeddingCache (st : State) c : State :=
  {| samRateLimitMap := samRateLimitMap st; embeddingCache := c;
     searchResultsCache := searchResultsCache st; ticks := ticks st |}.
Definition set_searchResultsCache (st : State) c : State :=
  {| samRateLimitMap := samRateLimitMap st; embeddingCache := embeddingCache st;
     searchResultsCache := c; ticks := ticks st |}.

(** [Date.now()] *)
Definition Date_now (env : Env) (st : State) : Z * State :=
  (clock env (ticks st),
   {| samRateLimitMap := samRateLimitMap st; embeddingCache := embeddingCache st;
      searchResultsCache := searchResultsCache st; ticks := S (ticks st) |}).

(** ToString of a query value (an array joins its items with commas). *)
Fixpoint join_comma (l : list string) : string :=
  match l with
  | [] => ""
  | [s] => s
  | s :: l' => s +:+ "," +:+ join_comma l'
  end.

Definition qstring (v : qvalue) : string :=
  match v with QString s => s | QArray l => join_comma l end.

(** ToBoolean of a possibly absent query value. *)
Definition qtruthy (v : option qvalue) : bool :=
  match v with
  | None => false
  | Some (QString s) => negb (String.eqb s "")
  | Some (QArray _) => true
  end.

(** [v === 'literal'] *)
Definition qis (v : option qvalue) (literal : string) : bool :=
  match v with
  | Some (QString s) => String.eqb s literal
  | _ => false
  end.

Definition qjs (v : option qvalue) : jsval :=
  match v with
  | None => JUndefined
  | Some (QString s) => JStr s
  | Some (QArray l) => JArr (map JStr l)
  end.

(** [req.query.name]: the query object is the list of its properties in
    insertion order, read by name. *)
Definition query_get (query : list (string * qvalue)) (name : string)
    : option qvalue :=
  (list_to_map query : gmap string qvalue) !! name.

Section WithHost.
Context `{Host}.

(** [generateEmbeddings(text, provider, apiKey)], threading [embeddingCache]. *)
Definition generateEmbeddings (env : Env) (text : string) (provider : qvalue)
    (apiKey : string) (cache : gmap string (list float))
    : outcome (list float) * gmap string (list float) :=
  let cacheKey := qstring provider +:+ ":" +:+ text in
  match cache !! cacheKey with
  | Some embeddings => (Return embeddings, cache)
  | None =>
      let fetched :=
        match provider with
        | QString "openai" => generateOpenAIEmbeddings env text apiKey
        | QString "huggingface" => generateHuggingFaceEmbeddings env text apiKey
        | _ => Throw (Error ("Embedding provider " +:+ qstring provider +:+
                             " not supported"))
        end in
      match fetched with
      | Return embeddings => (Return embeddings, <[cacheKey := embeddings]> cache)
      | Throw e => (Throw e, cache)
      end
  end.

(** The text embedded for an opportunity. *)
Definition opportunityText (o : SAMOpportunity) : string :=
  title o +:+ " " +:+ description o +:+ " " +:+ synopsis o.

(** One callback of [opportunities.map(async ...)]: embed the opportunity's
    text, score it against the query, return the annotated copy. *)
Definition scoreOpportunity (env : Env) (queryEmbeddings : list float)
    (provider : qvalue) (apiKey : string) (cache : gmap string (list float))
    (opportunity : SAMOpportunity) : outcome SAMOpportunity :=
  opportunityEmbeddings ← (generateEmbeddings env (opportunityText opportunity)
                             provider apiKey cache).1;
  similarity ← Utils.cosineSimilarity queryEmbeddings opportunityEmbeddings;
  mret (with_relevanceScore opportunity similarity).

(** [Promise.all]: the values in order, or a rejection if any promise
    rejects. *)
Fixpoint Promise_all {A} (l : list (outcome A)) : outcome (list A) :=
  match l with
  | [] => Return []
  | Return a :: l' => as_ ← Promise_all l'; mret (a :: as_)
  | Throw e :: _ => Throw e
  end.

(** The sort comparator [(a, b) => (b.relevanceScore || 0) - (a.relevanceScore || 0)]. *)
Definition byRelevance (a b : SAMOpportunity) : float :=
  (JS.num_or0 (relevanceScore b) - JS.num_or0 (relevanceScore a))%float.

(** [Array.prototype.sort(comparefn)]: stable; [b] is moved before [a] only
    when [comparefn(a, b) > 0] (a NaN result counts as 0). *)
Fixpoint insert {A} (comparefn : A -> A -> float) (a : A) (l : list A) : list A :=
  match l with
  | [] => [a]
  | b :: l' =>
      if (0 <? comparefn a b)%float then b :: insert comparefn a l'
      else a :: l
  end.

Definition array_sort {A} (comparefn : A -> A -> float) (l : list A) : list A :=
  foldr (insert comparefn) [] l.

(** [a] may stand directly before [b]: the comparator does not ask for [b]
    first. *)
Definition in_order {A} (comparefn : A -> A -> float) (a b : A) : Prop :=
  (0 <? comparefn a b)%float = false.

(** Stability: whenever [a] occurs before [b] in [input] and the comparator
    does not ask for [b] first (in particular when the two tie), [a] still
    occurs before [b] in [output]. *)
Definition keeps_order {A} (comparefn : A -> A -> float) (input output : list A)
    : Prop :=
  forall a b,
    [a; b] `sublist_of` input -> in_order comparefn a b ->
    [a; b] `sublist_of` output.

(** [performSemanticSearch].  The callbacks of [Promise.all] all run up to
    their fetch before any of them resumes, so each one reads the embedding
    cache as it is after the query was embedded; their results are stored
    afterwards. *)
Definition performSemanticSearch (env : Env) (opportunities : list SAMOpportunity)
    (query provider : qvalue) (apiKey : string) (cache : gmap string (list float))
    : outcome (list SAMOpportunity) * gmap string (list float) :=
  match query with
  | QArray _ => (Throw (TypeError "query.trim is not a function"), cache)
  | QString q =>
      if String.eqb (trim q) "" then (Return opportunities, cache)
      else
        match generateEmbeddings env q provider apiKey cache with
        | (Throw _, cache1) => (Return opportunities, cache1)
        | (Return queryEmbeddings, cache1) =>
            let cache2 :=
              foldl (fun c o => (generateEmbeddings env (opportunityText o)
                                   provider apiKey c).2) cache1 opportunities in
            match Promise_all (map (scoreOpportunity env queryEmbeddings
                                      provider apiKey cache1) opportunities) with
            | Return opportunitiesWithScores =>
                (Return (take 25 (array_sort byRelevance opportunitiesWithScores)),
                 cache2)
            | Throw _ => (Return opportunities, cache2)
            end
        end
  end.

(** An opportunity scored against the query embedding [qe]: its embedding is
    obtained and has the query's dimension, and [scored] is the opportunity
    with the cosine similarity written into [relevanceScore]. *)
Definition scored_as (env : Env) (qe : list float) (provider : qvalue)
    (apiKey : string) (cache : gmap string (list float))
    (o scored : SAMOpportunity) : Prop :=
  exists e similarity,
    (generateEmbeddings env (opportunityText o) provider apiKey cache).1 = Return e /\
    Utils.cosineSimilarity qe e = Return similarity /\
    scored = with_relevanceScore o similarity.

(** The ranking failed: the query could not be embedded, or it could and the
    callback of some opportunity threw. *)
Definition ranking_fails (env : Env) (opportunities : list SAMOpportunity)
    (q : string) (provider : qvalue) (apiKey : string)
    (cache : gmap string (list float)) : Prop :=
  (exists e, (generateEmbeddings env q provider apiKey cache).1 = Throw e) \/
  (exists qe cache1,
      generateEmbeddings env q provider apiKey cache = (Return qe, cache1) /\
      Exists (fun o => exists e,
                  (generateEmbeddings env (opportunityText o) provider apiKey cache1).1
                  = Throw e) opportunities).

(** The filters object built by the handler, field by field. *)
Definition buildFilters (query : list (string * qvalue)) : SAMSearchFilters :=
  let q := query_get query in
  {| keyword := q "q";
     startDate := q "startDate";
     endDate := q "endDate";
     naicsCode := q "naicsCode";
     state := q "state";
     agency := q "agency";
     type := q "type";
     setAside := q "setAside";
     active := if qtruthy (q "active") then Some (qis (q "active") "true") else None;
     limit := if qtruthy (q "limit")
              then parseInt (qstring (default (QString "") (q "limit")))
              else 50%float;
     offset := if qtruthy (q "offset")
               then parseInt (qstring (default (QString "") (q "offset")))
               else 0%float |}.

(** The object literal handed to [JSON.stringify]: its properties in the
    order the handler writes them. *)
Definition filters_object (f : SAMSearchFilters) : jsval :=
  JObj [("keyword", qjs (keyword f));
        ("startDate", qjs (startDate f));
        ("endDate", qjs (endDate f));
        ("naicsCode", qjs (naicsCode f));
        ("state", qjs (state f));
        ("agency", qjs (agency f));
        ("type", qjs (type f));
        ("setAside", qjs (setAside f));
        ("active", match active f with Some b => JBool b | None => JUndefined end);
        ("limit", JNum (limit f));
        ("offset", JNum (offset f))].

Definition cacheKeyOf (query : list (string * qvalue)) : string :=
  JSON_stringify (filters_object (buildFilters query)).

End WithHost.

(** The request, as far as the handler reads it. *)
Record Request : Type := {
  method : string;
  x_forwarded_for : option string;
  remoteAddress : option string;
  authorization : option string;
  query : list (string * qvalue)
}.

(** The JSON bodies the handler sends. *)
Inductive body : Type :=
| ErrorBody (error : string) (timestamp : option Z)
| SearchBody (data : SAMSearchResponse) (cached : bool) (timestamp : Z).

Record Response : Type := { status : Z; json : body }.

(** [s.replace(pattern, '')] with a string pattern: the first occurrence is
    removed. *)
Fixpoint strip_prefix (pattern s : string) : option string :=
  match pattern, s with
  | EmptyString, _ => Some s
  | String a pattern', String b s' =>
      if Ascii.eqb a b then strip_prefix pattern' s' else None
  | String _ _, EmptyString => None
  end.

Fixpoint remove_first (pattern s : string) : string :=
  match strip_prefix pattern s with
  | Some after => after
  | None =>
      match s with
      | EmptyString => EmptyString
      | String c s' => String c (remove_first pattern s')
      end
  end.

Section Handler.
Context `{Host}.

(** The [catch] block of the handler. *)
Definition internalError (env : Env) (e : exn) (st : State) : Response * State :=
  let '(now, st) := Date_now env st in
  ({| status := 500; json := ErrorBody (message_of e) (Some now) |}, st).

(** The handler from the SAM.gov fetch on (a cache miss). *)
Definition searchAndStore (env : Env) (req : Request) (filters : SAMSearchFilters)
    (cacheKey : string) (samApiKey : qvalue) (st : State) : Response * State :=
  let q := query_get (query req) in
  let provider := default (QString "openai") (q "provider") in
  match searchSAMOpportunities env filters samApiKey with
  | Throw e => internalError env e st
  | Return opportunities =>
      let ranked :=
        if qis (q "semantic") "true" && qtruthy (q "q") then
          let llmApiKey := remove_first "Bearer " <$> authorization req in
          match llmApiKey with
          | Some key =>
              if String.eqb key "" then (Return opportunities, embeddingCache st)
              else performSemanticSearch env opportunities
                     (default (QString "") (q "q")) provider key (embeddingCache st)
          | None => (Return opportunities, embeddingCache st)
          end
        else (Return opportunities, embeddingCache st) in
      let st := set_embeddingCache st ranked.2 in
      match ranked.1 with
      | Throw e => internalError env e st
      | Return finalOpportunities =>
          let response :=
            {| opportunities := finalOpportunities;
               totalRecords := length opportunities;
               response_limit := JS.num_or (limit filters) 50%float;
               response_offset := JS.num_or0 (offset filters) |} in
          let '(now, st) := Date_now env st in
          let st := set_searchResultsCache st
                      (<[cacheKey := {| data := response; timestamp := now |}]>
                         (searchResultsCache st)) in
          let '(now', st) := Date_now env st in
          ({| status := 200; json := SearchBody response false now' |}, st)
      end
  end.

(** The default export of pages/api/sam-search.ts. *)
Definition handler (env : Env) (req : Request) (st : State) : Response * State :=
  if negb (String.eqb (method req) "GET") then
    ({| status := 405; json := ErrorBody "Method not allowed" None |}, st)
  else
    let '(now, st) := Date_now env st in
    let '(allowed, windows) :=
      RateLimit.checkSAMRateLimit
        (RateLimit.clientIpOf (x_forwarded_for req) (remoteAddress req))
        now (samRateLimitMap st) in
    let st := set_samRateLimitMap st windows in
    if negb allowed then
      ({| status := 429;
          json := ErrorBody "Rate limit exceeded. Please try again later." None |}, st)
    else
      let samApiKey := query_get (query req) "samApiKey" in
      if negb (qtruthy samApiKey) then
        ({| status := 400; json := ErrorBody "SAM API key is required" None |}, st)
      else
        let filters := buildFilters (query req) in
        let cacheKey := JSON_stringify (filters_object filters) in
        let samApiKey := default (QString "") samApiKey in
        match searchResultsCache st !! cacheKey with
        | Some cachedResult =>
            let '(now1, st) := Date_now env st in
            if now1 - timestamp cachedResult <? CACHE_DURATION then
              let '(now2, st) := Date_now env st in
              ({| status := 200;
                  json := SearchBody (data cachedResult) true now2 |}, st)
            else searchAndStore env req filters cacheKey samApiKey st
        | None => searchAndStore env req filters cacheKey samApiKey st
        end.

End Handler.
End SamSearch.

(** ** The chat gateway: app/api/chat/route.ts and its pages-router twin *)

Module Chat.

Inductive LLMProvider : Type := openai | anthropic | huggingface.

#[export] Instance LLMProvider_eq_dec : EqDecision LLMProvider.
Proof. solve_decision. Defined.

Module LLMMessage.
Record t : Type := { role : string; content : string }.
End LLMMessage.

(** [LLMResponse] as the adapters build it: each field holds whatever value
    the adapter puts there. *)
Record LLMResponse : Type := {
  content : jsval;
  usage : jsval;
  model : jsval;
  provider : LLMProvider
}.

(** A [fetch] call (always a POST) and the response it resolves to;
    [json] is the outcome of [response.json()]. *)
Record FetchRequest : Type := {
  url : string;
  headers : list (string * string);
  body : string
}.

Record FetchResponse : Type := {
  ok : bool;
  statusText : string;
  json : outcome jsval
}.

Definition nl : string := String (Ascii.ascii_of_N 10) EmptyString.

Definition SYSTEM_PROMPT : string :=
"You are OpenSAM AI, an expert assistant for SAM.gov (System for Award Management) government contracting opportunities. Your expertise includes:

- Government contracting processes and terminology
- SAM.gov opportunity analysis and search
- Contract award history and trends
- NAICS codes and industry classifications
- Set-aside programs and small business categories
- Federal procurement regulations (FAR)
- Proposal writing and past performance evaluation

When users ask about contracting opportunities, provide detailed, accurate information. If you need to search for specific opportunities, indicate that you'll search SAM.gov data. Always prioritize accuracy and compliance with federal regulations.

Keep responses concise but comprehensive, and always consider the business context of government contracting.".

(** [LLM_CONFIGS[p].headers(apiKey)] *)
Definition config_headers (p : LLMProvider) (apiKey : string)
    : list (string * string) :=
  match p with
  | openai | huggingface =>
      [("Authorization", "Bearer " +:+ apiKey); ("Content-Type", "application/json")]
  | anthropic =>
      [("x-api-key", apiKey); ("Content-Type", "application/json");
       ("anthropic-version", "2023-06-01")]
  end.

(** [array.join(separator)] on strings. *)
Fixpoint join (separator : string) (l : list string) : string :=
  match l with
  | [] => ""
  | [s] => s
  | s :: l' => s +:+ separator +:+ join separator l'
  end.

(** [msg.role === 'assistant' ? 'assistant' : 'user'] *)
Definition chat_role (msg : LLMMessage.t) : string :=
  if String.eqb (LLMMessage.role msg) "assistant" then "assistant" else "user".

Definition role_content (msg : LLMMessage.t) : jsval :=
  JObj [("role", JStr (chat_role msg)); ("content", JStr (LLMMessage.content msg))].

Definition formatOpenAIMessages (messages : list LLMMessage.t) : jsval :=
  JArr (JObj [("role", JStr "system"); ("content", JStr SYSTEM_PROMPT)]
        :: map role_content messages).

(** The [inputs] string of [formatHuggingFaceMessages]. *)
Definition huggingFaceInputs (messages : list LLMMessage.t) : string :=
  let conversationText :=
    join (nl +:+ nl)
      (map (fun msg =>
              (if String.eqb (LLMMessage.role msg) "user"
               then "Human: " else "Assistant: ") +:+ LLMMessage.content msg)
           messages) in
  SYSTEM_PROMPT +:+ nl +:+ nl +:+ conversationText +:+ nl +:+ nl +:+ "Assistant:".

Definition default_temperature : float := 0x1.6666666666666p-1%float.
Definition default_maxTokens : float := 1000%float.

Definition zero_usage : jsval :=
  JObj [("prompt_tokens", JNum 0); ("completion_tokens", JNum 0);
        ("total_tokens", JNum 0)].

(** The normalized shape in the specification's words: non-empty text, a
    usage object with three numeric counts, the requested provider. *)
Definition is_number (v : jsval) : bool :=
  match v with JNum _ => true | _ => false end.

Definition nonempty_text (v : jsval) : bool :=
  match v with JStr s => negb (String.eqb s "") | _ => false end.

Definition three_counts (u : jsval) : bool :=
  match u with
  | JObj fields =>
      is_number (JS.own fields "prompt_tokens")
      && is_number (JS.own fields "completion_tokens")
      && is_number (JS.own fields "total_tokens")
  | _ => false
  end.

Definition normalized (requested : LLMProvider) (r : LLMResponse) : bool :=
  nonempty_text (content r) && three_counts (usage r)
  && bool_decide (provider r = requested).

Section WithHost.
Context `{Host}.
Variable fetch : FetchRequest -> outcome FetchResponse.

(** [callOpenAI] up to the success check; [catch_json] tells whether the
    error body is read with [.catch(() => ({}))] (route.ts) or not (pages). *)
Definition error_body (catch_json : bool) (response : FetchResponse)
    : outcome jsval :=
  match json response with
  | Return v => Return v
  | Throw e => if catch_json then Return (JObj []) else Throw e
  end.

(** [throw new Error(`<prefix>${error.error?.message || response.statusText}`)] *)
Definition throw_api_error {A} (catch_json : bool) (prefix : string)
    (response : FetchResponse) : outcome A :=
  error ← error_body catch_json response;
  inner ← JS.get error (JS.Field "error");
  message ← JS.opt_get inner (JS.Field "message");
  Throw (Error (prefix +:+ JS.to_string (JS.or message (JStr (statusText response))))).

(** The Hugging Face variant: [`...${error.error || response.statusText}`] *)
Definition throw_hf_error {A} (catch_json : bool) (response : FetchResponse)
    : outcome A :=
  error ← error_body catch_json response;
  inner ← JS.get error (JS.Field "error");
  Throw (Error ("Hugging Face API error: " +:+
                JS.to_string (JS.or inner (JStr (statusText response))))).

Definition openai_request (messages : list LLMMessage.t) (model apiKey : string)
    (temperature maxTokens : option float) : FetchRequest :=
  {| url := "https://api.openai.com/v1" +:+ "/chat/completions";
     headers := config_headers openai apiKey;
     body := JSON_stringify
               (JObj [("model", JStr model);
                      ("messages", formatOpenAIMessages messages);
                      ("temperature", JNum (default default_temperature temperature));
                      ("max_tokens", JNum (default default_maxTokens maxTokens));
                      ("stream", JBool false)]) |}.

(** [callOpenAI], both files. *)
Definition callOpenAI (catch_json : bool) (messages : list LLMMessage.t)
    (model apiKey : string) (temperature maxTokens : option float)
    : outcome LLMResponse :=
  response ← fetch (openai_request messages model apiKey temperature maxTokens);
  if negb (ok response) then throw_api_error catch_json "OpenAI API error: " response
  else
    data ← json response;
    choices ← JS.get data (JS.Field "choices");
    choice ← JS.get choices JS.Index0;
    message ← JS.get choice (JS.Field "message");
    content ← JS.get message (JS.Field "content");
    usage ← JS.get data (JS.Field "usage");
    model ← JS.get data (JS.Field "model");
    mret {| content := content; usage := usage; model := model;
            provider := openai |}.

Definition huggingface_request (messages : list LLMMessage.t)
    (model apiKey : string) (temperature maxTokens : option float) : FetchRequest :=
  {| url := "https://api-inference.huggingface.co/models" +:+ "/" +:+ model;
     headers := config_headers huggingface apiKey;
     body := JSON_stringify
               (JObj [("inputs", JStr (huggingFaceInputs messages));
                      ("parameters",
                       JObj [("max_new_tokens",
                              JNum (default default_maxTokens maxTokens));
                             ("temperature",
                              JNum (default default_temperature temperature));
                             ("return_full_text", JBool false)])]) |}.

(** [callHuggingFace], both files. *)
Definition callHuggingFace (catch_json : bool) (messages : list LLMMessage.t)
    (model apiKey : string) (temperature maxTokens : option float)
    : outcome LLMResponse :=
  response ← fetch (huggingface_request messages model apiKey temperature maxTokens);
  if negb (ok response) then throw_hf_error catch_json response
  else
    data ← json response;
    content ← (if JS.isArray data
               then first ← JS.get data JS.Index0;
                    JS.get first (JS.Field "generated_text")
               else JS.get data (JS.Field "generated_text"));
    mret {| content := content; usage := zero_usage; model := JStr model;
            provider := huggingface |}.

(** [data] is the JSON body of a successful ([response.ok]) upstream answer
    to some request of the adapter. *)
Definition upstream_body (data : jsval) : Prop :=
  exists request response,
    fetch request = Return response /\ ok response = true /\
    json response = Return data.

(** What the OpenAI adapter returns, in terms of the upstream body. *)
Definition openai_shape (data : jsval) (r : LLMResponse) : Prop :=
  JS.path data [JS.Field "choices"; JS.Index0; JS.Field "message"; JS.Field "content"]
  = Return (content r) /\
  JS.path data [JS.Field "usage"] = Return (usage r) /\
  JS.path data [JS.Field "model"] = Return (model r).

(** The Hugging Face adapter: text from the array's first element or from
    the object, usage all zeros, the requested model echoed. *)
Definition huggingface_shape (requested_model : string) (data : jsval)
    (r : LLMResponse) : Prop :=
  JS.path data (if JS.isArray data
                then [JS.Index0; JS.Field "generated_text"]
                else [JS.Field "generated_text"]) = Return (content r) /\
  usage r = zero_usage /\
  model r = JStr requested_model.

(** The completion-style Anthropic adapter: each count is the upstream's
    or 0, the total their sum; all three are 0 when the upstream body has no
    usage block. *)
Definition anthropic_completion_shape (data : jsval) (r : LLMResponse) : Prop :=
  JS.path data [JS.Field "completion"] = Return (content r) /\
  exists reported prompt_tokens completion_tokens,
    JS.path data [JS.Field "usage"] = Return reported /\
    JS.opt_get reported (JS.Field "prompt_tokens") = Return prompt_tokens /\
    JS.opt_get reported (JS.Field "completion_tokens") = Return completion_tokens /\
    usage r = JObj [("prompt_tokens", JS.or prompt_tokens (JNum 0));
                    ("completion_tokens", JS.or completion_tokens (JNum 0));
                    ("total_tokens", JS.add (JS.or prompt_tokens (JNum 0))
                                            (JS.or completion_tokens (JNum 0)))] /\
    (reported = JUndefined -> usage r = zero_usage).

(** The messages-style Anthropic adapter: the upstream's two counts, copied,
    and their sum. *)
Definition anthropic_messages_shape (data : jsval) (r : LLMResponse) : Prop :=
  JS.path data [JS.Field "content"; JS.Index0; JS.Field "text"] = Return (content r) /\
  exists input_tokens output_tokens,
    JS.path data [JS.Field "usage"; JS.Field "input_tokens"] = Return input_tokens /\
    JS.path data [JS.Field "usage"; JS.Field "output_tokens"] = Return output_tokens /\
    usage r = JObj [("prompt_tokens", input_tokens);
                    ("completion_tokens", output_tokens);
                    ("total_tokens", JS.add input_tokens output_tokens)].

End WithHost.
End Chat.

(** app/api/chat/route.ts: the completion-style Anthropic adapter. *)
Module ChatRoute.
Import Chat.
Section WithHost.
Context `{Host}.
Variable fetch : FetchRequest -> outcome FetchResponse.

(** The [prompt] of [formatAnthropicMessages]. *)
Definition anthropicPrompt (messages : list LLMMessage.t) : string :=
  let conversation :=
    join (nl +:+ nl)
      (map (fun msg =>
              if String.eqb (LLMMessage.role msg) "assistant"
              then "Assistant: " +:+ LLMMessage.content msg
              else "Human: " +:+ LLMMessage.content msg)
           (filter (fun msg => LLMMessage.role msg <> "system") messages)) in
  SYSTEM_PROMPT +:+ nl +:+ nl +:+ conversation +:+ nl +:+ nl +:+ "Assistant:".

Definition anthropic_request (messages : list LLMMessage.t) (model apiKey : string)
    (temperature maxTokens : option float) : FetchRequest :=
  {| url := "https://api.anthropic.com/v1" +:+ "/completions";
     headers := config_headers anthropic apiKey;
     body := JSON_stringify
               (JObj [("prompt", JStr (anthropicPrompt messages));
                      ("model", JStr model);
                      ("max_tokens_to_sample",
                       JNum (default default_maxTokens maxTokens));
                      ("temperature",
                       JNum (default default_temperature temperature));
                      ("stop_sequences", JArr [JStr (nl +:+ "Human:")])]) |}.

Definition callAnthropic (messages : list LLMMessage.t) (model apiKey : string)
    (temperature maxTokens : option float) : outcome LLMResponse :=
  response ← fetch (anthropic_request messages model apiKey temperature maxTokens);
  if negb (ok response) then throw_api_error true "Anthropic API error: " response
  else
    data ← json response;
    content ← JS.get data (JS.Field "completion");
    reported ← JS.get data (JS.Field "usage");
    prompt_tokens ← JS.opt_get reported (JS.Field "prompt_tokens");
    completion_tokens ← JS.opt_get reported (JS.Field "completion_tokens");
    named ← JS.get data (JS.Field "model");
    mret {| content := content;
            usage := JObj [("prompt_tokens", JS.or prompt_tokens (JNum 0));
                           ("completion_tokens", JS.or completion_tokens (JNum 0));
                           ("total_tokens",
                            JS.add (JS.or prompt_tokens (JNum 0))
                                   (JS.or completion_tokens (JNum 0)))];
            model := JS.or named (JStr model);
            provider := anthropic |}.

(** The [switch] of [POST] on the (lower-cased) provider name. *)
Definition complete (p : LLMProvider) (messages : list LLMMessage.t)
    (model apiKey : string) (temperature maxTokens : option float)
    : outcome LLMResponse :=
  match p with
  | openai => callOpenAI fetch true messages model apiKey temperature maxTokens
  | anthropic => callAnthropic messages model apiKey temperature maxTokens
  | huggingface => callHuggingFace fetch true messages model apiKey temperature maxTokens
  end.

End WithHost.
End ChatRoute.

(** The pages-router chat endpoint: the messages-style Anthropic adapter. *)
Module ChatPages.
Import Chat.
Section WithHost.
Context `{Host}.
Variable fetch : FetchRequest -> outcome FetchResponse.

Definition anthropic_request (messages : list LLMMessage.t) (model apiKey : string)
    (temperature maxTokens : option float) : FetchRequest :=
  {| url := "https://api.anthropic.com/v1" +:+ "/messages";
     headers := config_headers anthropic apiKey;
     body := JSON_stringify
               (JObj [("model", JStr model);
                      ("max_tokens", JNum (default default_maxTokens maxTokens));
                      ("temperature",
                       JNum (default default_temperature temperature));
                      ("system", JStr SYSTEM_PROMPT);
                      ("messages",
                       JArr (map role_content
                               (filter (fun msg => LLMMessage.role msg <> "system")
                                       messages)))]) |}.

Definition callAnthropic (messages : list LLMMessage.t) (model apiKey : string)
    (temperature maxTokens : option float) : outcome LLMResponse :=
  response ← fetch (anthropic_request messages model apiKey temperature maxTokens);
  if negb (ok response) then throw_api_error false "Anthropic API error: " response
  else
    data ← json response;
    blocks ← JS.get data (JS.Field "content");
    block ← JS.get blocks JS.Index0;
    content ← JS.get block (JS.Field "text");
    reported ← JS.get data (JS.Field "usage");
    input_tokens ← JS.get reported (JS.Field "input_tokens");
    output_tokens ← JS.get reported (JS.Field "output_tokens");
    named ← JS.get data (JS.Field "model");
    mret {| content := content;
            usage := JObj [("prompt_tokens", input_tokens);
                           ("completion_tokens", output_tokens);
                           ("total_tokens", JS.add input_tokens output_tokens)];
            model := named;
            provider := anthropic |}.

(** The [switch] of the handler on the provider parsed from
    ["provider:model"]. *)
Definition complete (p : LLMProvider) (messages : list LLMMessage.t)
    (model apiKey : string) (temperature maxTokens : option float)
    : outcome LLMResponse :=
  match p with
  | openai => callOpenAI fetch false messages model apiKey temperature maxTokens
  | anthropic => callAnthropic messages model apiKey temperature maxTokens
  | huggingface => callHuggingFace fetch false messages model apiKey temperature maxTokens
  end.

End WithHost.
End ChatPages.

(** ** A host and an outside world to run the program on

    [Demo.host] computes the host functions on ASCII text and integers written
    in decimal, which is all the examples below use. *)

Module Demo.

Definition is_space (c : Ascii.ascii) : bool :=
  let n := Ascii.N_of_ascii c in
  (N.eqb n 32 || (N.leb 9 n && N.leb n 13))%N.

Fixpoint trim_start (s : string) : string :=
  match s with
  | EmptyString => EmptyString
  | String c s' => if is_space c then trim_start s' else s
  end.

Definition trim (s : string) : string :=
  String.rev (trim_start (String.rev (trim_start s))).

Definition digit (c : Ascii.ascii) : option Z :=
  let n := Z.of_N (Ascii.N_of_ascii c) in
  if (48 <=? n) && (n <=? 57) then Some (n - 48) else None.

Fixpoint digits (s : string) (acc : option Z) : option Z :=
  match s with
  | EmptyString => acc
  | String c s' =>
      match digit c with
      | Some d => digits s' (Some (10 * default 0 acc + d))
      | None => acc
      end
  end.

Definition parseInt (s : string) : float :=
  match digits (trim_start s) None with
  | Some z => PrimFloat.of_uint63 (Uint63.of_Z z)
  | None => nan
  end.

Definition integral (x : float) : option Z :=
  match Prim2SF x with
  | S754_zero _ => Some 0
  | S754_finite s m e =>
      let magnitude :=
        if 0 <=? e then Some (Z.pos m * 2 ^ e)
        else if Z.pos m mod 2 ^ (- e) =? 0 then Some (Z.pos m / 2 ^ (- e))
        else None in
      (fun z => if s then - z else z) <$> magnitude
  | _ => None
  end.

Definition number_to_string (x : float) : string :=
  match integral x with
  | Some z => NilZero.string_of_int (Z.to_int z)
  | None => "NaN"
  end.

Fixpoint escape (s : string) : string :=
  match s with
  | EmptyString => EmptyString
  | String c s' =>
      let n := Ascii.N_of_ascii c in
      if (N.eqb n 34 || N.eqb n 92)%N
      then String (Ascii.ascii_of_N 92) (String c (escape s'))
      else String c (escape s')
  end.

Definition quote (s : string) : string :=
  let q := String (Ascii.ascii_of_N 34) EmptyString in q +:+ escape s +:+ q.

Fixpoint JSON_stringify (v : jsval) : string :=
  match v with
  | JUndefined | JNull => "null"
  | JBool true => "true"
  | JBool false => "false"
  | JNum x =>
      match integral x with
      | Some z => NilZero.string_of_int (Z.to_int z)
      | None => "null"
      end
  | JStr s => quote s
  | JArr items =>
      "[" +:+
      (fix elements (l : list jsval) : string :=
         match l with
         | [] => ""
         | [v] => JSON_stringify v
         | v :: l' => JSON_stringify v +:+ "," +:+ elements l'
         end) items
      +:+ "]"
  | JObj fields =>
      "{" +:+
      (fix properties (l : list (string * jsval)) (first : bool) : string :=
         match l with
         | [] => ""
         | (_, JUndefined) :: l' => properties l' first
         | (name, v) :: l' =>
             (if first then "" else ",") +:+ quote name +:+ ":" +:+
             JSON_stringify v +:+ properties l' false
         end) fields true
      +:+ "}"
  end.

#[export] Instance host : Host :=
  Build_Host number_to_string JSON_stringify parseInt trim.

(** Three opportunities as SAM.gov returns them, in upstream order. *)
Definition hosting : SamSearch.SAMOpportunity :=
  {| SamSearch.id := "N-001"; SamSearch.title := "Data center hosting";
     SamSearch.description := "Colocation"; SamSearch.synopsis := "";
     SamSearch.relevanceScore := 0; SamSearch.rest := "" |}.
Definition migration : SamSearch.SAMOpportunity :=
  {| SamSearch.id := "N-002"; SamSearch.title := "Cloud migration";
     SamSearch.description := "Move workloads"; SamSearch.synopsis := "";
     SamSearch.relevanceScore := 0; SamSearch.rest := "" |}.
Definition paving : SamSearch.SAMOpportunity :=
  {| SamSearch.id := "N-003"; SamSearch.title := "Road paving";
     SamSearch.description := "Asphalt"; SamSearch.synopsis := "";
     SamSearch.relevanceScore := 0; SamSearch.rest := "" |}.

Definition upstream : list SamSearch.SAMOpportunity := [hosting; migration; paving].

(** An embedding endpoint: the query and [migration] point the same way,
    [hosting] is orthogonal to the query, [paving] points the opposite way. *)
Definition embed (text apiKey : string) : outcome (list float) :=
  if String.eqb text "cloud" then Return [1; 0]%float
  else if String.eqb text "Cloud migration Move workloads " then Return [2; 0]%float
  else if String.eqb text "Data center hosting Colocation " then Return [0; 3]%float
  else if String.eqb text "Road paving Asphalt " then Return [-1; 0]%float
  else Throw (Error "OpenAI Embeddings API error: Bad Request").

(** The clock advances one second per reading. *)
Definition env : SamSearch.Env :=
  {| SamSearch.clock := fun n => 1000 * Z.of_nat n;
     SamSearch.searchSAMOpportunities := fun _ _ => Return upstream;
     SamSearch.generateOpenAIEmbeddings := embed;
     SamSearch.generateHuggingFaceEmbeddings :=
       fun _ _ => Throw (Error "Hugging Face Embeddings API error: Service Unavailable") |}.

Definition fresh : SamSearch.State :=
  {| SamSearch.samRateLimitMap := ∅; SamSearch.embeddingCache := ∅;
     SamSearch.searchResultsCache := ∅; SamSearch.ticks := 0 |}.

(** [GET /api/sam-search?q=cloud&semantic=true&limit=5&samApiKey=SAM-KEY]
    with [Authorization: Bearer sk-test]. *)
Definition semantic_request : SamSearch.Request :=
  {| SamSearch.method := "GET";
     SamSearch.x_forwarded_for := Some "203.0.113.7";
     SamSearch.remoteAddress := None;
     SamSearch.authorization := Some "Bearer sk-test";
     SamSearch.query := [("q", SamSearch.QString "cloud");
                         ("semantic", SamSearch.QString "true");
                         ("limit", SamSearch.QString "5");
                         ("samApiKey", SamSearch.QString "SAM-KEY")] |}.

(** The same filters, parameters in another order, no ranking requested. *)
Definition plain_request : SamSearch.Request :=
  {| SamSearch.method := "GET";
     SamSearch.x_forwarded_for := Some "203.0.113.7";
     SamSearch.remoteAddress := None;
     SamSearch.authorization := None;
     SamSearch.query := [("samApiKey", SamSearch.QString "SAM-KEY");
                         ("limit", SamSearch.QString "5");
                         ("q", SamSearch.QString "cloud")] |}.

(** Mocked chat upstreams, told apart by the URL: an OpenAI body that
    reports no usage, an Anthropic completion that reports none either, and a
    Hugging Face one-element array. *)
Definition hello : list Chat.LLMMessage.t :=
  [{| Chat.LLMMessage.role := "user"; Chat.LLMMessage.content := "hello" |}].

Definition succeed (data : jsval) : outcome Chat.FetchResponse :=
  Return {| Chat.ok := true; Chat.statusText := "OK"; Chat.json := Return data |}.

Definition fetch (request : Chat.FetchRequest) : outcome Chat.FetchResponse :=
  let url := Chat.url request in
  if String.eqb url "https://api.openai.com/v1/chat/completions" then
    succeed (JObj [("id", JStr "chatcmpl-1");
                   ("model", JStr "gpt-4o-mini");
                   ("choices",
                    JArr [JObj [("index", JNum 0);
                                ("message",
                                 JObj [("role", JStr "assistant");
                                       ("content", JStr "Hello!")])]])])
  else if String.eqb url "https://api.anthropic.com/v1/completions" then
    succeed (JObj [("completion", JStr " Hello!"); ("model", JStr "claude-2")])
  else if String.eqb url "https://api.anthropic.com/v1/messages" then
    succeed (JObj [("content", JArr [JObj [("type", JStr "text");
                                           ("text", JStr "Hello!")]]);
                   ("model", JStr "claude-3-haiku");
                   ("usage", JObj [("input_tokens", JNum 12);
                                   ("output_tokens", JNum 3)])])
  else
    succeed (JArr [JObj [("generated_text", JStr "Hello!")]]).

End Demo.

(** ** Further parts of the cited files *)

(** Checks arriving from any callers. *)
Module RateLimitTrace.

(** Serve the arrivals (identity, clock reading) in order: the verdicts and
    the final map. *)
Fixpoint serve (check : string -> Z -> gmap string RateLimit.RateWindow ->
                        bool * gmap string RateLimit.RateWindow)
    (arrivals : list (string * Z)) (m : gmap string RateLimit.RateWindow)
    : list bool * gmap string RateLimit.RateWindow :=
  match arrivals with
  | [] => ([], m)
  | (clientIp, now) :: rest =>
      let '(ok, m') := check clientIp now m in
      let '(oks, m'') := serve check rest m' in
      (ok :: oks, m'')
  end.

(** Every stored window has counted at least one and at most [maxRequests]
    requests. *)
Definition counts_bounded (maxRequests : Z)
    (m : gmap string RateLimit.RateWindow) : Prop :=
  map_Forall (fun _ w => 1 <= RateLimit.count w <= maxRequests) m.

End RateLimitTrace.

(** The rest of pages/api/sam-search.ts: the periodic clean-up and the
    upstream query string. *)
Module SamSearchMore.
Import SamSearch.

(** The second half of the [setInterval] callback: delete every entry of
    [searchResultsCache] with [now - value.timestamp > CACHE_DURATION]. *)
Definition sweepSearchResults (now : Z) (cache : gmap string CacheEntry)
    : gmap string CacheEntry :=
  filter (fun kv => negb (now - timestamp kv.2 >? CACHE_DURATION) = true) cache.

(** [Math.min(x, y)] on two numbers: NaN if either is NaN, the smaller one
    otherwise, [-0] counting as smaller than [+0]. *)
Definition Math_min (x y : float) : float :=
  if PrimFloat.is_nan x || PrimFloat.is_nan y then nan
  else if (x <? y)%float then x
  else if (y <? x)%float then y
  else if PrimFloat.is_zero x && PrimFloat.is_zero y
       then (if PrimFloat.get_sign x then x else y)
       else y.

(** The number sent as [limit]: [Math.min(filters.limit || 50, 100)]. *)
Definition upstreamLimit (filters : SAMSearchFilters) : float :=
  Math_min (JS.num_or (limit filters) 50%float) 100%float.

(** The number sent as [offset]: [filters.offset || 0]. *)
Definition upstreamOffset (filters : SAMSearchFilters) : float :=
  JS.num_or0 (offset filters).

Section WithHost.
Context `{Host}.

(** [if (filters.x) params.append(name, filters.x)] *)
Definition appendIf (name : string) (v : option qvalue)
    : list (string * string) :=
  if qtruthy v then [(name, qstring (default (QString "") v))] else [].

(** The [URLSearchParams] built by [searchSAMOpportunities], as the list of
    its (name, value) pairs in append order. *)
Definition searchParams (filters : SAMSearchFilters) : list (string * string) :=
  appendIf "q" (keyword filters)
  ++ appendIf "postedFrom" (startDate filters)
  ++ appendIf "postedTo" (endDate filters)
  ++ appendIf "naicsCode" (naicsCode filters)
  ++ appendIf "state" (state filters)
  ++ appendIf "agency" (agency filters)
  ++ appendIf "noticeType" (type filters)
  ++ appendIf "setAside" (setAside filters)
  ++ match active filters with
     | Some b => [("active", if b then "true" else "false")]
     | None => []
     end
  ++ [("limit", number_to_string (upstreamLimit filters));
      ("offset", number_to_string (upstreamOffset filters));
      ("includeCount", "true");
      ("format", "json")].

End WithHost.

(** [params.get(name)]: the first value appended under [name]. *)
Fixpoint params_get (name : string) (params : list (string * string))
    : option string :=
  match params with
  | [] => None
  | (n, v) :: rest => if String.eqb n name then Some v else params_get name rest
  end.

(** Two outside worlds that differ at most in what the upstreams answer. *)
Definition same_clock (env env' : Env) : Prop :=
  forall n, clock env n = clock env' n.

(** An opportunity with its score blanked: what ranking must not change. *)
Definition notice (o : SAMOpportunity) : SAMOpportunity :=
  with_relevanceScore o 0%float.

(** The request passes the method check, the rate limiter and the API-key
    check. *)
Definition admitted (env : Env) (req : Request) (st : State) : Prop :=
  method req = "GET" /\
  (RateLimit.checkSAMRateLimit
     (RateLimit.clientIpOf (x_forwarded_for req) (remoteAddress req))
     (clock env (ticks st)) (samRateLimitMap st)).1 = true /\
  qtruthy (query_get (query req) "samApiKey") = true.

(** The state once an admitted request has been counted and [reads] clock
    readings have been taken. *)
Definition entered (env : Env) (req : Request) (st : State) (reads : nat) : State :=
  {| samRateLimitMap :=
       (RateLimit.checkSAMRateLimit
          (RateLimit.clientIpOf (x_forwarded_for req) (remoteAddress req))
          (clock env (ticks st)) (samRateLimitMap st)).2;
     embeddingCache := embeddingCache st;
     searchResultsCache := searchResultsCache st;
     ticks := reads + ticks st |}.

(** The request asks for ranking in a way the handler acts on:
    [semantic=true], a non-blank keyword, and a key left over after removing
    ["Bearer "] from the Authorization header. *)
Definition asks_ranking `{Host} (req : Request) : bool :=
  qis (query_get (query req) "semantic") "true"
  && match query_get (query req) "q" with
     | Some (QString q) => negb (String.eqb (trim q) "")
     | Some (QArray _) => true
     | None => false
     end
  && match authorization req with
     | Some auth => negb (String.eqb (remove_first "Bearer " auth) "")
     | None => false
     end.

(** The ranking step of the handler, between the SAM.gov fetch and the
    response: the list to send and the embedding cache afterwards. *)
Definition rankingStep `{Host} (env : Env) (req : Request)
    (opportunities : list SAMOpportunity) (cache : gmap string (list float))
    : outcome (list SAMOpportunity) * gmap string (list float) :=
  let q := query_get (query req) in
  if qis (q "semantic") "true" && qtruthy (q "q") then
    match remove_first "Bearer " <$> authorization req with
    | Some key =>
        if String.eqb key "" then (Return opportunities, cache)
        else performSemanticSearch env opportunities
               (default (QString "") (q "q"))
               (default (QString "openai") (q "provider")) key cache
    | None => (Return opportunities, cache)
    end
  else (Return opportunities, cache).

End SamSearchMore.

(** The app-router search route kept in app/api/test-env/route.ts: its own
    [performSemanticSearch].  Its [generateEmbeddings] is, line for line, the
    one of pages/api/sam-search.ts. *)
Module SamSearchApp.
Import SamSearch.

(** [`${opportunity.title} ${opportunity.description}`] *)
Definition textToEmbed (o : SAMOpportunity) : string :=
  title o +:+ " " +:+ description o.

(** The callback of [opportunities.map]: the embedding is looked up in
    [embeddingCache] under the text itself; without one the score is 0. *)
Definition scoreOpportunity (cache : gmap string (list float))
    (queryEmbedding : list float) (o : SAMOpportunity) : outcome SAMOpportunity :=
  match cache !! textToEmbed o with
  | None => Return (with_relevanceScore o 0%float)
  | Some embedding =>
      score ← Utils.cosineSimilarity queryEmbedding embedding;
      mret (with_relevanceScore o score)
  end.

(** [array.map(callback)] with a callback that may throw: the first throw
    ends the loop. *)
Fixpoint array_map {A B} (callback : A -> outcome B) (l : list A) : outcome (list B) :=
  match l with
  | [] => Return []
  | a :: l' => b ← callback a; bs ← array_map callback l'; mret (b :: bs)
  end.

(** [(opportunity) => opportunity.relevanceScore > 0] *)
Definition positive (o : SAMOpportunity) : bool :=
  (0 <? relevanceScore o)%float.

(** [(a, b) => b.relevanceScore - a.relevanceScore] *)
Definition byScore (a b : SAMOpportunity) : float :=
  (relevanceScore b - relevanceScore a)%float.

(** [performSemanticSearch]; nothing is caught. *)
Definition performSemanticSearch (env : Env) (opportunities : list SAMOpportunity)
    (query provider apiKey : string) (cache : gmap string (list float))
    : outcome (list SAMOpportunity) * gmap string (list float) :=
  match generateEmbeddings env query (QString provider) apiKey cache with
  | (Throw e, cache) => (Throw e, cache)
  | (Return queryEmbedding, cache) =>
      (scored ← array_map (scoreOpportunity cache queryEmbedding) opportunities;
       mret (array_sort byScore (List.filter positive scored)),
       cache)
  end.

End SamSearchApp.

(** More of lib/utils: [truncate], [retryWithBackoff] and the two case
    conversions.  A string is its sequence of code units; the case
    conversions are modelled on ASCII text, where [toLowerCase] and
    [toUpperCase] touch the 26 letters only. *)
Module UtilsMore.

(** [truncate(text, length, suffix)], for an integer [length];
    [substring(0, n)] takes no character when [n] is negative. *)
Definition truncate (text : string) (length : Z) (suffix : string) : string :=
  if Z.of_nat (String.length text) <=? length then text
  else String.substring 0 (Z.to_nat (length - Z.of_nat (String.length suffix))) text
       +:+ suffix.

Section Retry.
Context {T : Type}.

(** The loop of [retryWithBackoff] from iteration [i], with [remaining]
    retries left ([i + remaining = maxRetries]).  [fn i] is the outcome of
    the call of [fn] made in iteration [i]; the second component lists the
    delays slept, in order. *)
Fixpoint retry_from (fn : nat -> outcome T) (baseDelay : Z) (i remaining : nat)
    : outcome T * list Z :=
  match fn i with
  | Return v => (Return v, [])
  | Throw lastError =>
      match remaining with
      | O => (Throw lastError, [])
      | S remaining =>
          let '(result, slept) := retry_from fn baseDelay (S i) remaining in
          (result, baseDelay * 2 ^ Z.of_nat i :: slept)
      end
  end.

Definition retryWithBackoff (fn : nat -> outcome T) (maxRetries : nat)
    (baseDelay : Z) : outcome T * list Z :=
  retry_from fn baseDelay 0 maxRetries.

End Retry.

(** The delays before retries 1 .. [k]. *)
Definition backoff (baseDelay : Z) (k : nat) : list Z :=
  map (fun i => baseDelay * 2 ^ Z.of_nat i) (seq 0 k).

Definition is_lower (c : Ascii.ascii) : bool :=
  let n := Ascii.N_of_ascii c in (N.leb 97 n && N.leb n 122)%N.

Definition is_upper (c : Ascii.ascii) : bool :=
  let n := Ascii.N_of_ascii c in (N.leb 65 n && N.leb n 90)%N.

(** 'A' .. 'Z' to 'a' .. 'z', other characters unchanged. *)
Definition ascii_lower (c : Ascii.ascii) : Ascii.ascii :=
  if is_upper c then Ascii.ascii_of_N (Ascii.N_of_ascii c + 32) else c.

Definition ascii_upper (c : Ascii.ascii) : Ascii.ascii :=
  if is_lower c then Ascii.ascii_of_N (Ascii.N_of_ascii c - 32) else c.

(** [s.toLowerCase()] on ASCII text. *)
Fixpoint lower (s : string) : string :=
  match s with
  | EmptyString => EmptyString
  | String c s' => String (ascii_lower c) (lower s')
  end.

Definition underscore : Ascii.ascii := Ascii.ascii_of_N 95.

(** [str.replace(/_([a-z])/g, (_, letter) => letter.toUpperCase())] *)
Fixpoint toCamelCase (str : string) : string :=
  match str with
  | EmptyString => EmptyString
  | String c rest =>
      if Ascii.eqb c underscore then
        match rest with
        | String letter rest' =>
            if is_lower letter then String (ascii_upper letter) (toCamelCase rest')
            else String c (toCamelCase rest)
        | EmptyString => String c EmptyString
        end
      else String c (toCamelCase rest)
  end.

(** [str.replace(/([A-Z])/g, '_$1')] *)
Fixpoint underscored (str : string) : string :=
  match str with
  | EmptyString => EmptyString
  | String c rest =>
      if is_upper c then String underscore (String c (underscored rest))
      else String c (underscored rest)
  end.

Definition toSnakeCase (str : string) : string := lower (underscored str).

(** ASCII text without capital letters. *)
Fixpoint plain (s : string) : bool :=
  match s with
  | EmptyString => true
  | String c s' =>
      N.ltb (Ascii.N_of_ascii c) 128 && negb (is_upper c) && plain s'
  end.

End UtilsMore.

(** The request handlers of the chat gateway.  A request body is taken as
    TypeScript types it: [model], [apiKey] and [provider] strings, [messages]
    an array of messages, the numbers numbers, each possibly absent. *)
Module ChatHandlers.
Import Chat.

(** [s.split(separator)] for a one-character separator. *)
Fixpoint split (separator : Ascii.ascii) (s : string) : list string :=
  match s with
  | EmptyString => [EmptyString]
  | String c s' =>
      if Ascii.eqb c separator then EmptyString :: split separator s'
      else match split separator s' with
           | [] => [String c EmptyString]
           | first :: others => String c first :: others
           end
  end.

(** A text between double quotes. *)
Definition quoted (s : string) : string :=
  String (Ascii.ascii_of_N 34) (s +:+ String (Ascii.ascii_of_N 34) EmptyString).

(** No character of [s] is the separator. *)
Fixpoint free_of (separator : Ascii.ascii) (s : string) : bool :=
  match s with
  | EmptyString => true
  | String c s' => negb (Ascii.eqb c separator) && free_of separator s'
  end.

Definition comma : Ascii.ascii := Ascii.ascii_of_N 44.
Definition colon : Ascii.ascii := Ascii.ascii_of_N 58.

(** [!s] for a possibly absent string. *)
Definition missing (s : option string) : bool :=
  match s with
  | Some s => String.eqb s ""
  | None => true
  end.

(** [a || b] for possibly absent strings. *)
Definition or_string (a b : option string) : option string :=
  if missing a then b else a.

(** The provider names of the [switch] statements. *)
Definition provider_of (name : string) : option LLMProvider :=
  if String.eqb name "openai" then Some openai
  else if String.eqb name "anthropic" then Some anthropic
  else if String.eqb name "huggingface" then Some huggingface
  else None.

Definition provider_name (p : LLMProvider) : string :=
  match p with
  | openai => "openai"
  | anthropic => "anthropic"
  | huggingface => "huggingface"
  end.

(** The prefix each adapter puts before the upstream's error text. *)
Definition error_prefix (p : LLMProvider) : string :=
  match p with
  | openai => "OpenAI API error: "
  | anthropic => "Anthropic API error: "
  | huggingface => "Hugging Face API error: "
  end.

(** An error body with the fields [fields] carries the text [text] where the
    adapter of [p] looks for it: [error.message] for OpenAI and Anthropic,
    [error] for Hugging Face. *)
Definition reports (p : LLMProvider) (fields : list (string * jsval))
    (text : string) : Prop :=
  match p with
  | huggingface => JS.own fields "error" = JStr text
  | _ => exists inner, JS.own fields "error" = JObj inner /\
                       JS.own inner "message" = JStr text
  end.

(** What a handler sends back. *)
Inductive payload : Type :=
| ErrorJson (error : string)
| ResultJson (result : LLMResponse)
| ValidationJson (message : string).

Record Response : Type := { status : Z; json : payload }.

(** *** app/api/chat/route.ts *)

Record RouteBody : Type := {
  provider : option string;
  model : option string;
  messages : option (list LLMMessage.t);
  temperature : option float;
  maxTokens : option float;
  apiKey : option string
}.


(** [headers.get] of the two address headers, and [req.json()]. *)
Record RouteRequest : Type := {
  x_forwarded_for : option string;
  x_real_ip : option string;
  body : outcome RouteBody
}.

Section Route.
Context `{Host}.
Variable toLowerCase : string -> string.
Variable fetch : FetchRequest -> outcome FetchResponse.

(** The caller identity of [checkRateLimit(req: NextRequest)]. *)
Definition clientIp (req : RouteRequest) : string :=
  let first :=
    (fun header => trim (default EmptyString (head (split comma header))))
      <$> x_forwarded_for req in
  default "unknown" (or_string (or_string first (x_real_ip req)) (Some "unknown")).

(** The [catch] block. *)
Definition internalError (e : exn) : Response :=
  {| status := 500;
     json := ErrorJson (if String.eqb (message_of e) ""
                        then "Internal server error" else message_of e) |}.

(** [POST], with [now] the clock reading of the rate check. *)
Definition POST (req : RouteRequest) (now : Z)
    (rateLimitMap : gmap string RateLimit.RateWindow)
    : Response * gmap string RateLimit.RateWindow :=
  let '(allowed, rateLimitMap) :=
    RateLimit.checkRateLimit (clientIp req) now rateLimitMap in
  if negb allowed then
    ({| status := 429; json := ErrorJson "Rate limit exceeded. Try again later." |},
     rateLimitMap)
  else
    match body req with
    | Throw e => (internalError e, rateLimitMap)
    | Return body =>
        if missing (apiKey body) then
          ({| status := 400; json := ErrorJson "Missing API key" |}, rateLimitMap)
        else
          match messages body with
          | None | Some [] =>
              ({| status := 400;
                  json := ErrorJson "Missing or invalid messages array" |},
               rateLimitMap)
          | Some messages =>
              if missing (model body) then
                ({| status := 400; json := ErrorJson "Missing model parameter" |},
                 rateLimitMap)
              else
                let provider := default "openai" (provider body) in
                match provider_of (toLowerCase provider) with
                | None =>
                    ({| status := 400;
                        json := ErrorJson ("Unsupported provider: " +:+ provider) |},
                     rateLimitMap)
                | Some p =>
                    match ChatRoute.complete fetch p messages
                            (default "" (model body)) (default "" (apiKey body))
                            (Some (default default_temperature (temperature body)))
                            (Some (default default_maxTokens (maxTokens body))) with
                    | Return result =>
                        ({| status := 200; json := ResultJson result |}, rateLimitMap)
                    | Throw e => (internalError e, rateLimitMap)
                    end
                end
          end
    end.

End Route.

(** *** The pages-router chat endpoint *)

Record Context : Type := {
  context_apiKey : option string;
  test : bool;
  context_temperature : option float;
  context_maxTokens : option float
}.

(** [req.body] is untyped: [model] is whatever JSON value the caller sent
    ([JUndefined] when absent).  [messages] is [Some] array of well-formed
    messages, or [None] for a value the handler's check refuses (absent,
    falsy or not an array); [context] is an object with its optional
    fields, or absent. *)
Record PagesBody : Type := {
  pages_model : jsval;
  pages_messages : option (list LLMMessage.t);
  context : option Context
}.

Record PagesRequest : Type := {
  method : string;
  forwarded_for : option string;
  remoteAddress : option string;
  authorization : option string;
  pages_body : PagesBody
}.

(** The handler's answers: the two success bodies carry more than the
    route's. *)
Inductive pages_payload : Type :=
| PagesError (error : string) (timestamp : option Z)
| PagesTest (message : string)
| PagesData (data : LLMResponse) (timestamp : Z).

Record PagesResponse : Type := { pages_status : Z; pages_json : pages_payload }.

Section Pages.
Context `{Host}.
Variable fetch : FetchRequest -> outcome FetchResponse.

(** [handler]; [now] is the clock reading of the rate check and [later] the
    one stamped on the answer.  Its [checkRateLimit] is the pages variant,
    which computes what [RateLimit.checkRateLimit] computes.  A truthy
    [model] that is not a string has no [split] method: the call throws
    inside the [try] and the [catch] answers 500. *)
Definition handler (req : PagesRequest) (now later : Z)
    (rateLimitMap : gmap string RateLimit.RateWindow)
    : PagesResponse * gmap string RateLimit.RateWindow :=
  if negb (String.eqb (method req) "POST") then
    ({| pages_status := 405; pages_json := PagesError "Method not allowed" None |},
     rateLimitMap)
  else
    let '(allowed, rateLimitMap) :=
      RateLimit.checkRateLimit
        (RateLimit.clientIpOf (forwarded_for req) (remoteAddress req))
        now rateLimitMap in
    if negb allowed then
      ({| pages_status := 429;
          pages_json := PagesError "Rate limit exceeded. Please try again later." None |},
       rateLimitMap)
    else
      let body := pages_body req in
      match pages_messages body with
      | Some messages =>
          if negb (JS.truthy (pages_model body)) then
            ({| pages_status := 400;
                pages_json :=
                  PagesError "Invalid request. Model and messages are required." None |},
             rateLimitMap)
          else
          match pages_model body with
          | JStr model =>
            let parts := split colon model in
            let provider := parts !! 0%nat in
            let modelName := parts !! 1%nat in
            if missing provider || missing modelName then
              ({| pages_status := 400;
                  pages_json :=
                    PagesError ("Invalid model format. Use " +:+ quoted "provider:model"
                                +:+ " format.") None |},
               rateLimitMap)
            else
              match provider_of (default "" provider) with
              | None =>
                  ({| pages_status := 400;
                      pages_json :=
                        PagesError "Invalid provider. Supported providers: openai, anthropic, huggingface." None |},
                   rateLimitMap)
              | Some p =>
                  let apiKey :=
                    or_string (SamSearch.remove_first "Bearer " <$> authorization req)
                              (context body ≫= context_apiKey) in
                  if missing apiKey then
                    ({| pages_status := 401;
                        pages_json := PagesError "API key is required." None |},
                     rateLimitMap)
                  else if default false (test <$> context body) then
                    ({| pages_status := 200;
                        pages_json := PagesTest "API key validation successful" |},
                     rateLimitMap)
                  else
                    match ChatPages.complete fetch p messages
                            (default "" modelName) (default "" apiKey)
                            (context body ≫= context_temperature)
                            (context body ≫= context_maxTokens) with
                    | Return response =>
                        ({| pages_status := 200;
                            pages_json := PagesData response later |}, rateLimitMap)
                    | Throw e =>
                        ({| pages_status := 500;
                            pages_json := PagesError (message_of e) (Some later) |},
                         rateLimitMap)
                    end
              end
          | _ =>
              ({| pages_status := 500;
                  pages_json :=
                    PagesError "model.split is not a function" (Some later) |},
               rateLimitMap)
          end
      | None =>
          ({| pages_status := 400;
              pages_json :=
                PagesError "Invalid request. Model and messages are required." None |},
           rateLimitMap)
      end.

End Pages.

End ChatHandlers.

(** The client-side store: the favourites and the check of the LLM
    configuration against the chat endpoint. *)
Module Store.
Import Chat ChatHandlers.

(** [[...state.favorites, opportunityId]] *)
Definition addToFavorites (opportunityId : string) (favorites : list string)
    : list string :=
  favorites ++ [opportunityId].

(** [state.favorites.filter(id => id !== opportunityId)] *)
Definition removeFromFavorites (opportunityId : string) (favorites : list string)
    : list string :=
  List.filter (fun id => negb (String.eqb id opportunityId)) favorites.

(** [state.favorites.includes(opportunityId)] *)
Definition includes (opportunityId : string) (favorites : list string) : bool :=
  existsb (String.eqb opportunityId) favorites.

Definition toggleFavorite (opportunityId : string) (favorites : list string)
    : list string :=
  if includes opportunityId favorites
  then removeFromFavorites opportunityId favorites
  else addToFavorites opportunityId favorites.

(** The fields of [LLMConfig] that [validateLLMConfig] reads. *)
Record LLMConfig : Type := {
  provider : LLMProvider;
  model : string;
  apiKey : string
}.

(** The body [validateLLMConfig] posts to [/api/chat]: the model as
    ["provider:model"], one message, and [context: { test: true }]. *)
Definition validation_body (llmConfig : LLMConfig) : PagesBody :=
  {| pages_model := JStr (provider_name (provider llmConfig) +:+ ":" +:+ model llmConfig);
     pages_messages := Some [{| LLMMessage.role := "user"; LLMMessage.content := "test" |}];
     context := Some {| context_apiKey := None; test := true;
                        context_temperature := None; context_maxTokens := None |} |}.

(** [response.ok]: a status from 200 to 299. *)
Definition response_ok (status : Z) : bool :=
  (200 <=? status) && (status <=? 299).

(** [validateLLMConfig], with [post body] the status of the endpoint's
    answer, or the failure of the fetch. *)
Definition validateLLMConfig (post : PagesBody -> outcome Z) (llmConfig : LLMConfig)
    : bool :=
  if String.eqb (apiKey llmConfig) "" || String.eqb (model llmConfig) "" then false
  else match post (validation_body llmConfig) with
       | Return status => response_ok status
       | Throw _ => false
       end.

(** The posted body as the two chat handlers receive it: the request carries
    a [Content-Type] header only, whatever address headers the network adds. *)
Definition as_pages_request (x_forwarded_for remoteAddress : option string)
    (body : PagesBody) : PagesRequest :=
  {| method := "POST"; forwarded_for := x_forwarded_for;
     ChatHandlers.remoteAddress := remoteAddress;
     authorization := None; pages_body := body |}.

Definition as_route_request (x_forwarded_for x_real_ip : option string)
    (body : PagesBody) : RouteRequest :=
  {| ChatHandlers.x_forwarded_for := x_forwarded_for;
     ChatHandlers.x_real_ip := x_real_ip;
     ChatHandlers.body :=
       Return {| ChatHandlers.provider := None;
                 ChatHandlers.model :=
                   match pages_model body with JStr model => Some model | _ => None end;
                 messages := pages_messages body;
                 temperature := None; maxTokens := None;
                 ChatHandlers.apiKey := None |} |}.

End Store.

(* ================================================================== *)
(** * Properties *)
(* ================================================================== *)

Section RateLimitFacts.
Import RateLimit.

Lemma checkRateLimit_window :
  checkRateLimit = window_check RATE_LIMIT_WINDOW RATE_LIMIT_MAX_REQUESTS.
Proof. reflexivity. Qed.

Lemma checkSAMRateLimit_window :
  checkSAMRateLimit = window_check SAM_RATE_LIMIT_WINDOW SAM_RATE_LIMIT_MAX_REQUESTS.
Proof. reflexivity. Qed.

Variables window maxRequests : Z.
Implicit Types (m : gmap string RateWindow) (ip : string).

(** A check starting a new window is accepted and stores [count = 1],
    [timestamp = now]. *)
Lemma window_check_reset ip now m :
  starts_window window now (m !! ip) ->
  window_check window maxRequests ip now m
  = (true, <[ip := {| count := 1; timestamp := now |}]> m).
Proof.
  unfold window_check, starts_window.
  destruct (m !! ip) as [w|]; [|done].
  intros H. apply Z.gtb_gt in H. by rewrite H.
Qed.

(** Inside a window, below the limit: accepted, count incremented. *)
Lemma window_check_incr ip now m w :
  m !! ip = Some w -> now - timestamp w <= window -> count w < maxRequests ->
  window_check window maxRequests ip now m
  = (true, <[ip := {| count := count w + 1; timestamp := timestamp w |}]> m).
Proof.
  intros Hw Hin Hc. unfold window_check. rewrite Hw.
  destruct (Z.gtb_spec (now - timestamp w) window); [lia|].
  destruct (Z.geb_spec (count w) maxRequests); [lia|done].
Qed.

(** Inside a window, at the limit: rejected, map untouched. *)
Lemma window_check_reject ip now m w :
  m !! ip = Some w -> now - timestamp w <= window -> maxRequests <= count w ->
  window_check window maxRequests ip now m = (false, m).
Proof.
  intros Hw Hin Hc. unfold window_check. rewrite Hw.
  destruct (Z.gtb_spec (now - timestamp w) window); [lia|].
  destruct (Z.geb_spec (count w) maxRequests); [done|lia].
Qed.

(** A check never touches another identity's entry. *)
Lemma window_check_frame ip ip' now m :
  ip <> ip' ->
  (window_check window maxRequests ip now m).2 !! ip' = m !! ip'.
Proof.
  intros Hne. unfold window_check.
  destruct (m !! ip) as [w|]; simpl.
  - destruct (_ >? _); simpl; [by rewrite lookup_insert_ne|].
    destruct (_ >=? _); simpl; [done|by rewrite lookup_insert_ne].
  - by rewrite lookup_insert_ne.
Qed.

(** From an entry with [count = c] in a window opened at [t0], the next
    [k] checks in that window are accepted as long as [c + k] stays within
    the limit. *)
Lemma run_accepts ip t0 times m c :
  m !! ip = Some {| count := c; timestamp := t0 |} ->
  Forall (fun t => t - t0 <= window) times ->
  c + Z.of_nat (length times) <= maxRequests ->
  run (window_check window maxRequests) ip times m
  = (replicate (length times) true,
     match times with
     | [] => m
     | _ => <[ip := {| count := c + Z.of_nat (length times);
                       timestamp := t0 |}]> m
     end).
Proof.
  intros Hw Hin. revert m c Hw.
  induction Hin as [|t times Ht Hin IH]; intros m c Hw Hc; [done|].
  cbn [run length replicate] in *.
  rewrite (window_check_incr ip t m _ Hw); cbn [timestamp count]; [|done|lia].
  rewrite (IH _ (c + 1)); [| by rewrite lookup_insert_eq | lia].
  f_equal. destruct times as [|t' times']; cbn [length];
    rewrite ?insert_insert_eq;
    apply (f_equal (fun w => <[ip := w]> m)); f_equal; lia.
Qed.

Lemma run_app check ip l1 l2 m :
  run check ip (l1 ++ l2) m
  = let '(oks1, m1) := run check ip l1 m in
    let '(oks2, m2) := run check ip l2 m1 in
    (oks1 ++ oks2, m2).
Proof.
  revert m. induction l1 as [|t l1 IH]; intros m; cbn [run app].
  - by destruct (run check ip l2 m).
  - destruct (check ip t m) as [ok m']. rewrite IH.
    destruct (run check ip l1 m') as [oks1 m1].
    by destruct (run check ip l2 m1).
Qed.

(** The state reached by [k] accepted checks of a window opened at [t0]. *)
Lemma run_accepts_lookup ip t0 times m c :
  m !! ip = Some {| count := c; timestamp := t0 |} ->
  Forall (fun t => t - t0 <= window) times ->
  c + Z.of_nat (length times) <= maxRequests ->
  (run (window_check window maxRequests) ip times m).2 !! ip
  = Some {| count := c + Z.of_nat (length times); timestamp := t0 |}.
Proof.
  intros Hw Hin Hc. rewrite (run_accepts ip t0 times m c) by done.
  destruct times; cbn [snd length].
  - rewrite Hw. do 2 f_equal. lia.
  - by rewrite lookup_insert_eq.
Qed.

(** A full window: the opening check and the next [maxRequests - 1] checks
    are accepted, the one after is rejected. *)
Lemma run_full_window ip t1 rest m :
  1 <= maxRequests ->
  starts_window window t1 (m !! ip) ->
  length rest = Z.to_nat maxRequests ->
  Forall (fun t => t - t1 <= window) rest ->
  (run (window_check window maxRequests) ip (t1 :: rest) m).1
  = replicate (Z.to_nat maxRequests) true ++ [false].
Proof.
  intros HN Hstart Hlen Hin.
  induction rest as [|last mid _] using rev_ind.
  { cbn in Hlen. lia. }
  rewrite length_app in Hlen. cbn [length] in Hlen.
  apply Forall_app in Hin as [Hmid Hlast].
  apply Forall_cons in Hlast as [Hlast _].
  cbn [run]. rewrite window_check_reset by done.
  set (m1 := <[ip := {| count := 1; timestamp := t1 |}]> m).
  assert (Hm1 : m1 !! ip = Some {| count := 1; timestamp := t1 |})
    by apply lookup_insert_eq.
  assert (Hc : 1 + Z.of_nat (length mid) <= maxRequests) by lia.
  rewrite run_app.
  pose proof (run_accepts_lookup ip t1 mid m1 1 Hm1 Hmid Hc) as Hm2.
  rewrite (run_accepts ip t1 mid m1 1 Hm1 Hmid Hc) in Hm2 |- *.
  cbn [snd] in Hm2. cbn [run].
  rewrite (window_check_reject ip last _ _ Hm2); cbn [count timestamp fst];
    [|done|lia].
  replace (Z.to_nat maxRequests) with (S (length mid)) by lia.
  reflexivity.
Qed.

End RateLimitFacts.

(** C2.  Both limiters ([maxRequests] = 20 for chat, 100 for search, window
    60000 ms): for any identity that starts a window at [t1], that check and
    the following ones up to [maxRequests] in total are accepted and check
    number [maxRequests + 1], still within the window, is rejected; a check
    arriving more than the window size after the stored window start is
    accepted and stores [count = 1], [timestamp = now]. *)
Theorem rate_limit_window_property
    (ip : string) (m : gmap string RateLimit.RateWindow) :
  let W := RateLimit.RATE_LIMIT_WINDOW in
  let N := RateLimit.RATE_LIMIT_MAX_REQUESTS in
  let WS := RateLimit.SAM_RATE_LIMIT_WINDOW in
  let NS := RateLimit.SAM_RATE_LIMIT_MAX_REQUESTS in
  (forall t1 rest,
      RateLimit.starts_window W t1 (m !! ip) ->
      length rest = Z.to_nat N ->
      Forall (fun t => t - t1 <= W) rest ->
      (RateLimit.run RateLimit.checkRateLimit ip (t1 :: rest) m).1
      = replicate (Z.to_nat N) true ++ [false]) /\
  (forall now w,
      m !! ip = Some w -> now - RateLimit.timestamp w > W ->
      RateLimit.checkRateLimit ip now m
      = (true, <[ip := {| RateLimit.count := 1; RateLimit.timestamp := now |}]> m)) /\
  (forall t1 rest,
      RateLimit.starts_window WS t1 (m !! ip) ->
      length rest = Z.to_nat NS ->
      Forall (fun t => t - t1 <= WS) rest ->
      (RateLimit.run RateLimit.checkSAMRateLimit ip (t1 :: rest) m).1
      = replicate (Z.to_nat NS) true ++ [false]) /\
  (forall now w,
      m !! ip = Some w -> now - RateLimit.timestamp w > WS ->
      RateLimit.checkSAMRateLimit ip now m
      = (true, <[ip := {| RateLimit.count := 1; RateLimit.timestamp := now |}]> m)).
Proof.
  intros W N WS NS.
  rewrite checkRateLimit_window, checkSAMRateLimit_window.
  repeat split.
  - intros t1 rest. by apply run_full_window.
  - intros now w Hw Hgt. apply window_check_reset.
    unfold RateLimit.starts_window. by rewrite Hw.
  - intros t1 rest. by apply run_full_window.
  - intros now w Hw Hgt. apply window_check_reset.
    unfold RateLimit.starts_window. by rewrite Hw.
Qed.

(** A fresh caller makes 21 chat checks (101 search checks) one second apart,
    then returns two minutes later. *)
Lemma rate_limit_window_property_witness :
  (RateLimit.run RateLimit.checkRateLimit "203.0.113.7"
     (0 :: map (fun k => 1000 * Z.of_nat k) (seq 1 20)) ∅).1
  = replicate 20 true ++ [false] /\
  RateLimit.checkRateLimit "203.0.113.7" 120000
    {[ "203.0.113.7" := {| RateLimit.count := 20; RateLimit.timestamp := 0 |} ]}
  = (true, {[ "203.0.113.7" := {| RateLimit.count := 1;
                                  RateLimit.timestamp := 120000 |} ]}) /\
  (RateLimit.run RateLimit.checkSAMRateLimit "203.0.113.7"
     (0 :: map (fun k => 500 * Z.of_nat k) (seq 1 100)) ∅).1
  = replicate 100 true ++ [false].
Proof.
  pose proof (rate_limit_window_property "203.0.113.7" ∅) as (Hchat & _ & Hsam & _).
  pose proof (rate_limit_window_property "203.0.113.7"
    {[ "203.0.113.7" := {| RateLimit.count := 20; RateLimit.timestamp := 0 |} ]})
    as (_ & Hreset & _).
  split; [|split].
  - apply Hchat; [exact I | reflexivity |].
    apply List.Forall_forall. intros t Ht.
    apply List.in_map_iff in Ht as (k & <- & Hk). apply List.in_seq in Hk. unfold RateLimit.RATE_LIMIT_WINDOW. lia.
  - rewrite (Hreset 120000 _ (lookup_singleton_eq _ _)).
    + by rewrite insert_singleton_eq.
    + cbn. unfold RateLimit.RATE_LIMIT_WINDOW. lia.
  - apply Hsam; [exact I | reflexivity |].
    apply List.Forall_forall. intros t Ht.
    apply List.in_map_iff in Ht as (k & <- & Hk). apply List.in_seq in Hk. unfold RateLimit.SAM_RATE_LIMIT_WINDOW. lia.
Defined.

(** C9.  A rejected check is a no-op on the limiter's state: when the
    identity's entry has [count >= maxRequests] and its window has not
    elapsed, the check answers [false] and returns the very same map, so
    the entry's count and window start are unchanged. *)
Theorem rejected_check_leaves_state
    (ip : string) (now : Z) (m : gmap string RateLimit.RateWindow)
    (w : RateLimit.RateWindow) :
  m !! ip = Some w ->
  (RateLimit.count w >= RateLimit.RATE_LIMIT_MAX_REQUESTS ->
   now - RateLimit.timestamp w <= RateLimit.RATE_LIMIT_WINDOW ->
   RateLimit.checkRateLimit ip now m = (false, m)) /\
  (RateLimit.count w >= RateLimit.SAM_RATE_LIMIT_MAX_REQUESTS ->
   now - RateLimit.timestamp w <= RateLimit.SAM_RATE_LIMIT_WINDOW ->
   RateLimit.checkSAMRateLimit ip now m = (false, m)).
Proof.
  intros Hw. rewrite checkRateLimit_window, checkSAMRateLimit_window.
  split; intros Hc Hin; eapply window_check_reject; eauto; lia.
Qed.

Lemma rejected_check_leaves_state_witness :
  let m : gmap string RateLimit.RateWindow :=
    {[ "203.0.113.7" := {| RateLimit.count := 100; RateLimit.timestamp := 5000 |} ]} in
  RateLimit.checkRateLimit "203.0.113.7" 65000 m = (false, m) /\
  RateLimit.checkSAMRateLimit "203.0.113.7" 65000 m = (false, m).
Proof.
  intros m.
  pose proof (rejected_check_leaves_state "203.0.113.7" 65000 m _
                (lookup_singleton_eq _ _)) as [Hchat Hsam].
  split; [apply Hchat | apply Hsam]; cbn;
    unfold RateLimit.RATE_LIMIT_MAX_REQUESTS, RateLimit.RATE_LIMIT_WINDOW,
      RateLimit.SAM_RATE_LIMIT_MAX_REQUESTS, RateLimit.SAM_RATE_LIMIT_WINDOW; lia.
Defined.

(** ** Cosine similarity *)

Section CosineGeneric.
Import Utils.
Context {T : Type} `{Arith T}.

Lemma cosine_mismatch (a b : list T) :
  length a <> length b ->
  cosineSimilarity a b = Throw (Error "Vectors must have the same length").
Proof.
  intros Hne. unfold cosineSimilarity.
  destruct (Nat.eqb_spec (length a) (length b)); [done|reflexivity].
Qed.

Lemma cosine_same_length (a b : list T) :
  length a = length b ->
  cosineSimilarity a b =
  let s := foldl step sums0 (zip a b) in
  Return (n_div (dotProduct s) (n_mul (n_sqrt (normA s)) (n_sqrt (normB s)))).
Proof.
  intros Heq. unfold cosineSimilarity. by rewrite Heq, Nat.eqb_refl.
Qed.

Hypothesis n_mul_comm : forall x y : T, n_mul x y = n_mul y x.

(** Swapping the two vectors swaps the two norms and keeps the dot product. *)
Lemma foldl_step_swap (a b : list T) (s : sums T) :
  foldl step {| dotProduct := dotProduct s; normA := normB s; normB := normA s |}
        (zip b a)
  = let r := foldl step s (zip a b) in
    {| dotProduct := dotProduct r; normA := normB r; normB := normA r |}.
Proof.
  revert b s. induction a as [|x a IH]; intros [|y b] s; try reflexivity.
  cbn [zip zip_with foldl]. rewrite <- IH. f_equal.
  unfold step; cbn. by rewrite (n_mul_comm y x).
Qed.

Lemma cosine_symmetric_of_comm (a b : list T) :
  cosineSimilarity a b = cosineSimilarity b a.
Proof.
  unfold cosineSimilarity.
  rewrite (Nat.eqb_sym (length b) (length a)).
  destruct (length a =? length b)%nat; [|reflexivity]. cbn [negb].
  pose proof (foldl_step_swap a b sums0) as Hswap. cbn in Hswap.
  change {| dotProduct := n_zero; normA := n_zero; normB := n_zero |}
    with (@sums0 T _) in Hswap.
  rewrite Hswap. cbn. by rewrite n_mul_comm.
Qed.

End CosineGeneric.

(** *** Facts about binary64 arithmetic *)

Section FloatFacts.
Import Utils.

Lemma float_mul_comm (x y : float) : (x * y)%float = (y * x)%float.
Proof.
  apply Prim2SF_inj. rewrite !FloatAxioms.mul_spec.
  destruct (Prim2SF x) as [sx|sx| |sx mx ex], (Prim2SF y) as [sy|sy| |sy my ey];
    cbn; rewrite ?(xorb_comm sx sy); try reflexivity.
  by rewrite (Pos.mul_comm mx my), (Z.add_comm ex ey).
Qed.

Lemma Prim2SF_zero_inv (x : float) (s : bool) :
  Prim2SF x = S754_zero s -> x = 0%float \/ x = (-0)%float.
Proof.
  intros Hx. destruct s; [right|left]; apply Prim2SF_inj; by rewrite Hx.
Qed.

Lemma Prim2SF_nan_inv (x : float) : Prim2SF x = S754_nan -> x = nan.
Proof. intros Hx. apply Prim2SF_inj. by rewrite Hx. Qed.

Lemma is_zero_inv (x : float) :
  PrimFloat.is_zero x = true -> x = 0%float \/ x = (-0)%float.
Proof.
  unfold PrimFloat.is_zero. rewrite FloatAxioms.eqb_spec.
  change (Prim2SF 0) with (S754_zero false).
  destruct (Prim2SF x) as [s|s| |s m e] eqn:Hx; cbn; try done.
  - intros _. by apply (Prim2SF_zero_inv x s).
  - by destruct s.
  - by destruct s.
Qed.

Lemma zero_mul_absorbs (z y : float) :
  z = 0%float \/ z = (-0)%float -> zero_or_nan (z * y).
Proof.
  intros Hz. unfold zero_or_nan.
  assert (Hsf : exists s, Prim2SF z = S754_zero s).
  { destruct Hz as [-> | ->]; eauto. }
  destruct Hsf as [s Hs].
  pose proof (FloatAxioms.mul_spec z y) as Hm. rewrite Hs in Hm.
  destruct (Prim2SF y) as [sy|sy| |sy my ey]; cbn in Hm.
  - destruct (Prim2SF_zero_inv _ _ Hm); auto.
  - right; right. by apply Prim2SF_nan_inv.
  - right; right. by apply Prim2SF_nan_inv.
  - destruct (Prim2SF_zero_inv _ _ Hm); auto.
Qed.

Lemma zero_or_nan_add (x y : float) :
  zero_or_nan x -> zero_or_nan y -> zero_or_nan (x + y).
Proof.
  unfold zero_or_nan.
  intros [-> | [-> | ->]] [-> | [-> | ->]]; vm_compute; auto.
Qed.

Lemma zero_or_nan_div (x y : float) :
  zero_or_nan x -> zero_or_nan y -> (x / y)%float = nan.
Proof.
  intros [-> | [-> | ->]] [-> | [-> | ->]]; reflexivity.
Qed.

Lemma zero_sq_add (z : float) :
  z = 0%float \/ z = (-0)%float -> (0 + z * z)%float = 0%float.
Proof. intros [-> | ->]; reflexivity. Qed.

End FloatFacts.

Section CosineFloat.
Import Utils.

Lemma cosine_float_symmetric (a b : list float) :
  cosineSimilarity a b = cosineSimilarity b a.
Proof. apply cosine_symmetric_of_comm. exact float_mul_comm. Qed.

(** With an all-zero first vector the loop keeps [normA] at [+0] and the dot
    product among the signed zeros and NaN. *)
Lemma foldl_step_zero_left (a b : list float) (s : sums float) :
  all_zero a = true ->
  normA s = 0%float -> zero_or_nan (dotProduct s) ->
  let r := foldl step s (zip a b) in
  normA r = 0%float /\ zero_or_nan (dotProduct r).
Proof.
  revert b s. induction a as [|x a IH]; intros [|y b] s Hz Hn Hd; try done.
  cbn [all_zero forallb] in Hz. apply andb_prop in Hz as [Hx Hz].
  apply is_zero_inv in Hx.
  cbn [zip zip_with foldl]. apply IH; [done|..]; cbn.
  - rewrite Hn. by apply zero_sq_add.
  - apply zero_or_nan_add; [done|]. by apply zero_mul_absorbs.
Qed.

Lemma cosine_zero_left (a b : list float) :
  length a = length b -> all_zero a = true ->
  cosineSimilarity a b = Return nan.
Proof.
  intros Hlen Hz. rewrite cosine_same_length by done. cbn zeta.
  destruct (foldl_step_zero_left a b sums0 Hz) as [Hn Hd];
    [reflexivity | by left |].
  f_equal. cbn [n_div n_mul n_sqrt float_arith]. rewrite Hn.
  apply zero_or_nan_div; [done|].
  change (PrimFloat.sqrt 0) with 0%float.
  apply zero_mul_absorbs. by left.
Qed.

End CosineFloat.

(** C7.  On vectors of unequal length [cosineSimilarity] throws (the code's
    error is [Error('Vectors must have the same length')]) and so returns no
    number. *)
Theorem cosine_dimension_mismatch (a b : list float) :
  length a <> length b ->
  Utils.cosineSimilarity a b = Throw (Error "Vectors must have the same length")
  /\ forall r : float, Utils.cosineSimilarity a b <> Return r.
Proof.
  intros Hne. rewrite (cosine_mismatch a b Hne). split; [reflexivity|done].
Qed.

Lemma cosine_dimension_mismatch_witness :
  Utils.cosineSimilarity [1; 2; 3]%float [1; 2]%float
  = Throw (Error "Vectors must have the same length").
Proof.
  apply (cosine_dimension_mismatch [1; 2; 3]%float [1; 2]%float). cbn. lia.
Defined.

(** C10.  The length check is the only guard: for equal-length vectors one of
    which is all zeros, [cosineSimilarity] does not throw; it divides by a
    zero (or NaN) magnitude product and returns NaN. *)
Theorem cosine_zero_vector_unguarded (a b : list float) :
  length a = length b ->
  Utils.all_zero a = true \/ Utils.all_zero b = true ->
  Utils.cosineSimilarity a b = Return nan.
Proof.
  intros Hlen [Hz | Hz].
  - by apply cosine_zero_left.
  - rewrite cosine_float_symmetric. by apply cosine_zero_left.
Qed.

Lemma cosine_zero_vector_unguarded_witness :
  Utils.cosineSimilarity [0; 0; 0]%float [1; 2; 3]%float = Return nan /\
  Utils.cosineSimilarity [0.5; 2]%float [0; -0]%float = Return nan.
Proof.
  split.
  - apply (cosine_zero_vector_unguarded [0; 0; 0]%float [1; 2; 3]%float);
      [reflexivity | left; reflexivity].
  - apply (cosine_zero_vector_unguarded [0.5; 2]%float [0; -0]%float);
      [reflexivity | right; reflexivity].
Defined.

(** *** Negating a vector *)

Section NegationFacts.
Import Utils.















End NegationFacts.


(** [0x1.0000000000001p+0] is the double printed as 1.0000000000000002, and
    [0x1.4e718d7d7625ap+664] the double written [1e200]. *)
Example cosine_ones_value :
  Utils.cosineSimilarity [1; 1; 1]%float [1; 1; 1]%float
  = Return 0x1.0000000000001p+0%float.
Proof. reflexivity. Qed.



(** ** Sorting by relevance *)

Section SubtractionSign.

(** A rounded value carries the sign it was given: it is never positive when
    that sign is negative. *)
Lemma binary_round_aux_negative (prec emax mx ex : Z) (lx : location) :
  SFltb (S754_zero false) (binary_round_aux prec emax true mx ex lx) = false.
Proof.
  unfold binary_round_aux.
  destruct (shr_fexp prec emax mx ex lx) as [mrs' e'].
  destruct (shr_fexp prec emax _ e' loc_Exact) as [mrs'' e''].
  destruct (shr_m mrs'') as [|m|m]; [reflexivity| |reflexivity].
  destruct (e'' <=? emax - prec); reflexivity.
Qed.

Lemma binary_normalize_positive (prec emax m e : Z) :
  SFltb (S754_zero false) (binary_normalize prec emax m e false) = true ->
  0 < m.
Proof.
  destruct m as [|p|p]; cbn [binary_normalize]; [done|lia|].
  unfold binary_round.
  destruct (shl_align p e _) as [mz ez].
  by rewrite binary_round_aux_negative.
Qed.

Lemma SFsub_positive_antisym (prec emax : Z) (x y : spec_float) :
  SFltb (S754_zero false) (SFsub prec emax y x) = true ->
  SFltb (S754_zero false) (SFsub prec emax x y) = false.
Proof.
  destruct x as [sx|sx| |sx mx ex], y as [sy|sy| |sy my ey];
    try (repeat match goal with s : bool |- _ => destruct s end; cbn; done).
  cbn [SFsub]. intros Hpos. apply binary_normalize_positive in Hpos.
  destruct (SFltb _ _) eqn:Hneg; [|reflexivity].
  apply binary_normalize_positive in Hneg.
  rewrite (Z.min_comm ey ex) in Hpos. lia.
Qed.

(** [b - a > 0] excludes [a - b > 0]. *)
Lemma float_sub_positive_antisym (a b : float) :
  (0 <? b - a)%float = true -> (0 <? a - b)%float = false.
Proof.
  rewrite !FloatAxioms.ltb_spec, !FloatAxioms.sub_spec.
  apply SFsub_positive_antisym.
Qed.

End SubtractionSign.

Section ArraySort.
Import SamSearch.
Context {A : Type} (comparefn : A -> A -> float).

Hypothesis comparefn_antisym :
  forall a b, (0 <? comparefn a b)%float = true -> in_order comparefn b a.

Lemma insert_perm (a : A) (l : list A) : insert comparefn a l ≡ₚ a :: l.
Proof.
  induction l as [|b l IH]; cbn; [done|].
  destruct (0 <? comparefn a b)%float; [|done].
  rewrite IH. apply perm_swap.
Qed.

Lemma array_sort_perm (l : list A) : array_sort comparefn l ≡ₚ l.
Proof.
  induction l as [|a l IH]; cbn; [done|].
  fold (array_sort comparefn l). rewrite insert_perm. by rewrite IH.
Qed.

Lemma insert_hd_rel (a b : A) (l : list A) :
  in_order comparefn b a -> HdRel (in_order comparefn) b l -> HdRel (in_order comparefn) b (insert comparefn a l).
Proof.
  intros Hba Hl. destruct l as [|c l]; cbn; [by constructor|].
  destruct (0 <? comparefn a c)%float; constructor; [|done].
  by inversion Hl.
Qed.

Lemma insert_sorted (a : A) (l : list A) :
  Sorted (in_order comparefn) l -> Sorted (in_order comparefn) (insert comparefn a l).
Proof.
  induction 1 as [|b l Hs IH Hhd]; cbn; [by repeat constructor|].
  destruct (0 <? comparefn a b)%float eqn:Hab.
  - constructor; [done|]. apply insert_hd_rel; [|done].
    by apply comparefn_antisym.
  - constructor; [by constructor|]. by constructor.
Qed.

Lemma array_sort_sorted (l : list A) : Sorted (in_order comparefn) (array_sort comparefn l).
Proof.
  induction l as [|a l IH]; cbn; [constructor|].
  by apply insert_sorted.
Qed.

(** Inserting an element keeps the others in their order. *)
Lemma sublist_insert (a : A) (l : list A) : l `sublist_of` insert comparefn a l.
Proof.
  induction l as [|b l IH]; cbn; [apply sublist_nil_l|].
  destruct (0 <? comparefn a b)%float; [by apply sublist_skip|by apply sublist_cons].
Qed.

(** The inserted element stops before the first one it need not follow. *)
Lemma insert_before (a b : A) (l : list A) :
  in_order comparefn a b -> b ∈ l -> [a; b] `sublist_of` insert comparefn a l.
Proof.
  intros Hab. induction l as [|c l IH]; [by intros ?%elem_of_nil|].
  intros Hb. cbn. destruct (0 <? comparefn a c)%float eqn:Hac.
  - apply sublist_cons, IH. apply elem_of_cons in Hb as [->|Hb]; [|done].
    unfold in_order in Hab. congruence.
  - apply sublist_skip. by apply singleton_sublist_l.
Qed.

Lemma array_sort_keeps_order (l : list A) :
  keeps_order comparefn l (array_sort comparefn l).
Proof.
  unfold keeps_order. induction l as [|x l IH]; intros a b Hin Hab.
  - by apply sublist_nil_r in Hin.
  - cbn. fold (array_sort comparefn l).
    apply sublist_cons_r in Hin as [Hin|(rest & [= -> <-] & Hb)].
    + etrans; [by apply IH|apply sublist_insert].
    + apply insert_before; [done|].
      rewrite array_sort_perm. by apply singleton_sublist_l.
Qed.

End ArraySort.

Lemma byRelevance_antisym (a b : SamSearch.SAMOpportunity) :
  (0 <? SamSearch.byRelevance a b)%float = true ->
  SamSearch.in_order SamSearch.byRelevance b a.
Proof. apply float_sub_positive_antisym. Qed.

(** ** The search path *)

Section SearchFacts.
Import SamSearch.
Context `{Host}.

Lemma query_get_perm (q1 q2 : list (string * qvalue)) (name : string) :
  NoDup q1.*1 -> q1 ≡ₚ q2 -> query_get q1 name = query_get q2 name.
Proof.
  intros Hnd Hperm. unfold query_get.
  by rewrite (list_to_map_proper (M := gmap string) q1 q2 Hnd Hperm).
Qed.

Lemma buildFilters_perm (q1 q2 : list (string * qvalue)) :
  NoDup q1.*1 -> q1 ≡ₚ q2 -> buildFilters q1 = buildFilters q2.
Proof.
  intros Hnd Hperm. unfold buildFilters.
  by rewrite !(query_get_perm q1 q2 _ Hnd Hperm).
Qed.

Lemma cacheKeyOf_perm (q1 q2 : list (string * qvalue)) :
  NoDup q1.*1 -> q1 ≡ₚ q2 -> cacheKeyOf q1 = cacheKeyOf q2.
Proof.
  intros Hnd Hperm. unfold cacheKeyOf. by rewrite (buildFilters_perm q1 q2).
Qed.

(** What a fresh (not served-from-cache) success leaves behind. *)
Lemma searchAndStore_stored env req filters cacheKey samApiKey st resp st' d t :
  searchAndStore env req filters cacheKey samApiKey st = (resp, st') ->
  json resp = SearchBody d false t ->
  status resp = 200 /\
  exists ts, searchResultsCache st' !! cacheKey = Some {| data := d; timestamp := ts |}.
Proof.
  unfold searchAndStore, internalError, Date_now.
  intros Hrun Hjson.
  destruct (searchSAMOpportunities env filters samApiKey) as [opps|e];
    [|by simplify_eq].
  cbv zeta in Hrun.
  match type of Hrun with
  | context [set_embeddingCache st (?r).2] => destruct r as [[final|e] cache']
  end; cbn in Hrun; simplify_eq; cbn in *; simplify_eq.
  split; [done|]. eexists. apply lookup_insert_eq.
Qed.

Lemma handler_stored env req st resp st' d t :
  handler env req st = (resp, st') ->
  json resp = SearchBody d false t ->
  status resp = 200 /\
  exists ts, searchResultsCache st' !! cacheKeyOf (query req)
             = Some {| data := d; timestamp := ts |}.
Proof.
  unfold handler, cacheKeyOf, Date_now. intros Hrun Hjson.
  repeat (case_match; simplify_eq; cbn in *; try done);
    eapply searchAndStore_stored; eauto.
Qed.

Lemma handler_success_has_key env req st resp st' d c t :
  handler env req st = (resp, st') ->
  json resp = SearchBody d c t ->
  qtruthy (query_get (query req) "samApiKey") = true.
Proof.
  unfold handler, Date_now. intros Hrun Hjson.
  destruct (qtruthy (query_get (query req) "samApiKey")); [done|].
  repeat (case_match; simplify_eq; cbn in *; try done).
Qed.

(** A request whose key has a young enough entry is answered from it. *)
Lemma handler_hit env req st entry :
  method req = "GET" ->
  (RateLimit.checkSAMRateLimit
     (RateLimit.clientIpOf (x_forwarded_for req) (remoteAddress req))
     (clock env (ticks st)) (samRateLimitMap st)).1 = true ->
  qtruthy (query_get (query req) "samApiKey") = true ->
  searchResultsCache st !! cacheKeyOf (query req) = Some entry ->
  clock env (S (ticks st)) - timestamp entry < CACHE_DURATION ->
  exists st',
    handler env req st
    = ({| status := 200;
          json := SearchBody (data entry) true (clock env (S (S (ticks st)))) |},
       st').
Proof.
  intros Hget Hallowed Hkey Hentry Hyoung.
  unfold handler, Date_now, cacheKeyOf in *. rewrite Hget.
  change (negb ("GET" =? "GET")%string) with false. cbv iota.
  destruct (RateLimit.checkSAMRateLimit _ _ _) as [allowed windows].
  cbn in Hallowed. subst allowed. cbn. rewrite Hkey. cbn. rewrite Hentry.
  apply Z.ltb_lt in Hyoung. rewrite Hyoung. eauto.
Qed.

End SearchFacts.

(** C5.  The cache key is [JSON.stringify] of a filters object that the
    handler builds field by field in a fixed order from the query's values, so
    two queries holding the same name/value pairs in any order get the same
    key; and a request that follows a freshly answered one with the same
    pairs, while the stored entry is younger than [CACHE_DURATION], is
    answered from that entry with the same payload. *)
Theorem cache_key_order_independent `{Host}
    (env : SamSearch.Env) (req1 req2 : SamSearch.Request)
    (st st1 : SamSearch.State) (resp1 : SamSearch.Response)
    (d : SamSearch.SAMSearchResponse) (t : Z) :
  NoDup (SamSearch.query req1).*1 ->
  SamSearch.query req1 ≡ₚ SamSearch.query req2 ->
  SamSearch.cacheKeyOf (SamSearch.query req1)
  = SamSearch.cacheKeyOf (SamSearch.query req2) /\
  (SamSearch.handler env req1 st = (resp1, st1) ->
   SamSearch.json resp1 = SamSearch.SearchBody d false t ->
   SamSearch.method req2 = "GET" ->
   (RateLimit.checkSAMRateLimit
      (RateLimit.clientIpOf (SamSearch.x_forwarded_for req2)
                            (SamSearch.remoteAddress req2))
      (SamSearch.clock env (SamSearch.ticks st1))
      (SamSearch.samRateLimitMap st1)).1 = true ->
   (forall entry,
       SamSearch.searchResultsCache st1 !! SamSearch.cacheKeyOf (SamSearch.query req1)
       = Some entry ->
       SamSearch.clock env (S (SamSearch.ticks st1)) - SamSearch.timestamp entry
       < SamSearch.CACHE_DURATION) ->
   exists t2 st2,
     SamSearch.handler env req2 st1
     = ({| SamSearch.status := 200;
           SamSearch.json := SamSearch.SearchBody d true t2 |}, st2)).
Proof.
  intros Hnd Hperm.
  pose proof (cacheKeyOf_perm _ _ Hnd Hperm) as Hkey.
  split; [exact Hkey|].
  intros Hrun Hjson Hget Hallowed Hyoung.
  destruct (handler_stored _ _ _ _ _ _ _ Hrun Hjson) as (_ & ts & Hstored).
  pose proof (handler_success_has_key _ _ _ _ _ _ _ _ Hrun Hjson) as Hsam.
  rewrite (query_get_perm _ _ _ Hnd Hperm) in Hsam.
  specialize (Hyoung _ Hstored). rewrite Hkey in Hstored.
  destruct (handler_hit env req2 st1 _ Hget Hallowed Hsam Hstored Hyoung)
    as [st2 Hhit].
  eauto.
Qed.

Lemma cache_key_order_independent_witness :
  SamSearch.cacheKeyOf (H := Demo.host) (SamSearch.query Demo.plain_request)
  = SamSearch.cacheKeyOf (H := Demo.host)
      [("q", SamSearch.QString "cloud"); ("limit", SamSearch.QString "5");
       ("samApiKey", SamSearch.QString "SAM-KEY")] /\
  exists t2 st2,
    SamSearch.handler (H := Demo.host) Demo.env
      {| SamSearch.method := "GET";
         SamSearch.x_forwarded_for := Some "198.51.100.4";
         SamSearch.remoteAddress := None;
         SamSearch.authorization := None;
         SamSearch.query := [("q", SamSearch.QString "cloud");
                             ("limit", SamSearch.QString "5");
                             ("samApiKey", SamSearch.QString "SAM-KEY")] |}
      (SamSearch.handler (H := Demo.host) Demo.env Demo.plain_request Demo.fresh).2
    = ({| SamSearch.status := 200;
          SamSearch.json :=
            SamSearch.SearchBody
              {| SamSearch.opportunities := Demo.upstream;
                 SamSearch.totalRecords := 3;
                 SamSearch.response_limit := 5;
                 SamSearch.response_offset := 0 |} true t2 |}, st2).
Proof.
  pose proof (cache_key_order_independent (H := Demo.host) Demo.env
    Demo.plain_request
    {| SamSearch.method := "GET";
       SamSearch.x_forwarded_for := Some "198.51.100.4";
       SamSearch.remoteAddress := None;
       SamSearch.authorization := None;
       SamSearch.query := [("q", SamSearch.QString "cloud");
                           ("limit", SamSearch.QString "5");
                           ("samApiKey", SamSearch.QString "SAM-KEY")] |}
    Demo.fresh
    (SamSearch.handler (H := Demo.host) Demo.env Demo.plain_request Demo.fresh).2
    (SamSearch.handler (H := Demo.host) Demo.env Demo.plain_request Demo.fresh).1
    {| SamSearch.opportunities := Demo.upstream;
       SamSearch.totalRecords := 3;
       SamSearch.response_limit := 5;
       SamSearch.response_offset := 0 |} 2000) as Hthm.
  destruct Hthm as [Hkey Hhit].
  - refine (bool_decide_unpack _ _). vm_compute. exact I.
  - exact (Permutation_rev (SamSearch.query Demo.plain_request)).
  - split; [exact Hkey|].
    apply Hhit; try reflexivity.
    intros entry Hentry. vm_compute in Hentry. injection Hentry as <-.
    vm_compute. reflexivity.
Defined.

(** C4, as stated, fails: after the ranked request of [Demo], the entry
    stored under the filter key holds the ranked list (scores written,
    order changed), not the list SAM.gov returned. *)
Lemma cache_holds_ranked_payload :
  let st' := (SamSearch.handler (H := Demo.host) Demo.env
                Demo.semantic_request Demo.fresh).2 in
  exists entry,
    SamSearch.searchResultsCache st'
      !! SamSearch.cacheKeyOf (H := Demo.host) (SamSearch.query Demo.semantic_request)
    = Some entry /\
    SamSearch.opportunities (SamSearch.data entry)
    = [SamSearch.with_relevanceScore Demo.migration 1;
       SamSearch.with_relevanceScore Demo.hosting 0;
       SamSearch.with_relevanceScore Demo.paving (-1)] /\
    SamSearch.opportunities (SamSearch.data entry) <> Demo.upstream.
Proof.
  eexists. split; [vm_compute; reflexivity|]. split; [reflexivity|].
  intros Heq.
  apply (f_equal (fun l => SamSearch.id <$> head l)) in Heq. by vm_compute in Heq.
Qed.

(** The next request with the same filters and no ranking asked for is served
    that ranked list. *)
Example plain_request_served_ranked :
  (SamSearch.handler (H := Demo.host) Demo.env Demo.plain_request
     (SamSearch.handler (H := Demo.host) Demo.env
        Demo.semantic_request Demo.fresh).2).1
  = {| SamSearch.status := 200;
       SamSearch.json :=
         SamSearch.SearchBody
           {| SamSearch.opportunities :=
                [SamSearch.with_relevanceScore Demo.migration 1;
                 SamSearch.with_relevanceScore Demo.hosting 0;
                 SamSearch.with_relevanceScore Demo.paving (-1)];
              SamSearch.totalRecords := 3;
              SamSearch.response_limit := 5;
              SamSearch.response_offset := 0 |} true 5000 |}.
Proof. vm_compute. reflexivity. Qed.

(** C4, amended.  Whenever the handler answers a request afresh (status 200,
    not served from cache), the entry it has stored under the request's
    filter key holds exactly the payload it returns: the ranked, truncated
    list when ranking ran, the upstream list otherwise. *)
Theorem cache_stores_returned_payload `{Host}
    (env : SamSearch.Env) (req : SamSearch.Request) (st st' : SamSearch.State)
    (resp : SamSearch.Response) (d : SamSearch.SAMSearchResponse) (t : Z) :
  SamSearch.handler env req st = (resp, st') ->
  SamSearch.json resp = SamSearch.SearchBody d false t ->
  exists ts,
    SamSearch.searchResultsCache st' !! SamSearch.cacheKeyOf (SamSearch.query req)
    = Some {| SamSearch.data := d; SamSearch.timestamp := ts |}.
Proof.
  intros Hrun Hjson. by destruct (handler_stored _ _ _ _ _ _ _ Hrun Hjson).
Qed.

Lemma cache_stores_returned_payload_witness :
  exists ts,
    SamSearch.searchResultsCache
      (SamSearch.handler (H := Demo.host) Demo.env Demo.semantic_request Demo.fresh).2
      !! SamSearch.cacheKeyOf (H := Demo.host) (SamSearch.query Demo.semantic_request)
    = Some {| SamSearch.data :=
                {| SamSearch.opportunities :=
                     [SamSearch.with_relevanceScore Demo.migration 1;
                      SamSearch.with_relevanceScore Demo.hosting 0;
                      SamSearch.with_relevanceScore Demo.paving (-1)];
                   SamSearch.totalRecords := 3;
                   SamSearch.response_limit := 5;
                   SamSearch.response_offset := 0 |};
              SamSearch.timestamp := ts |}.
Proof.
  apply (cache_stores_returned_payload (H := Demo.host) Demo.env
           Demo.semantic_request Demo.fresh _
           (SamSearch.handler (H := Demo.host) Demo.env
              Demo.semantic_request Demo.fresh).1 _ 2000).
  - vm_compute. reflexivity.
  - vm_compute. reflexivity.
Defined.

(** ** Semantic ranking *)

Section RankingFacts.
Import SamSearch.
Context `{Host}.

Lemma Promise_all_returns {A} (l : list (outcome A)) (values : list A) :
  Forall2 (fun o a => o = Return a) l values -> Promise_all l = Return values.
Proof.
  induction 1 as [|o a l values -> _ IH]; cbn; [done|]. by rewrite IH.
Qed.

Lemma Promise_all_rejects {A} (l : list (outcome A)) :
  Exists (fun o => exists e, o = Throw e) l -> exists e, Promise_all l = Throw e.
Proof.
  induction l as [|o l IH]; intros Hex; [by inversion Hex|].
  destruct o as [a|e]; cbn; [|eauto].
  apply Exists_cons in Hex as [[e He]|Hex]; [done|].
  destruct (IH Hex) as [e ->]. cbn. eauto.
Qed.

Lemma scoreOpportunity_scored env qe provider apiKey cache o scored :
  scored_as env qe provider apiKey cache o scored ->
  scoreOpportunity env qe provider apiKey cache o = Return scored.
Proof.
  intros (e & similarity & He & Hsim & ->). unfold scoreOpportunity.
  rewrite He. cbn. by rewrite Hsim.
Qed.

Lemma scoreOpportunity_embedding_throws env qe provider apiKey cache o e :
  (generateEmbeddings env (opportunityText o) provider apiKey cache).1 = Throw e ->
  scoreOpportunity env qe provider apiKey cache o = Throw e.
Proof. intros He. unfold scoreOpportunity. by rewrite He. Qed.

Lemma performSemanticSearch_falls_back env opportunities q provider apiKey cache :
  ranking_fails env opportunities q provider apiKey cache ->
  (performSemanticSearch env opportunities (QString q) provider apiKey cache).1
  = Return opportunities.
Proof.
  intros Hfail. unfold performSemanticSearch.
  destruct (String.eqb (trim q) ""); [done|].
  destruct Hfail as [[e He] | (qe & cache1 & Hq & Hex)].
  - destruct (generateEmbeddings env q provider apiKey cache) as [[qe|e'] cache1];
      [done|reflexivity].
  - rewrite Hq.
    destruct (Promise_all_rejects
                (map (scoreOpportunity env qe provider apiKey cache1) opportunities))
      as [e ->]; [|reflexivity].
    apply Exists_fmap. eapply Exists_impl; [exact Hex|].
    intros o [e He]. exists e. by apply scoreOpportunity_embedding_throws.
Qed.

Lemma performSemanticSearch_ranks env opportunities q provider apiKey cache
    qe cache1 scored :
  String.eqb (trim q) "" = false ->
  generateEmbeddings env q provider apiKey cache = (Return qe, cache1) ->
  Forall2 (scored_as env qe provider apiKey cache1) opportunities scored ->
  (performSemanticSearch env opportunities (QString q) provider apiKey cache).1
  = Return (take 25 (array_sort byRelevance scored)).
Proof.
  intros Hq Hqe Hscored. unfold performSemanticSearch. rewrite Hq, Hqe.
  rewrite (Promise_all_returns _ scored); [done|].
  apply Forall2_fmap_l. eapply Forall2_impl; [exact Hscored|].
  intros o s. apply scoreOpportunity_scored.
Qed.

End RankingFacts.

(** C3, as stated, fails: the ranked output keeps the items whose score is
    zero or negative.  In [Demo] the query embedding is [1, 0]; [hosting]
    scores 0 and [paving] scores -1, and both are returned. *)
Lemma semantic_search_keeps_nonpositive_scores :
  exists ranked,
    (SamSearch.performSemanticSearch (H := Demo.host) Demo.env
       Demo.upstream (SamSearch.QString "cloud")
       (SamSearch.QString "openai") "sk-test" ∅).1 = Return ranked /\
    ranked = [SamSearch.with_relevanceScore Demo.migration 1;
              SamSearch.with_relevanceScore Demo.hosting 0;
              SamSearch.with_relevanceScore Demo.paving (-1)] /\
    existsb (fun o => (SamSearch.relevanceScore o <=? 0)%float) ranked = true.
Proof.
  eexists. split; [vm_compute; reflexivity|]. split; reflexivity.
Qed.

(** C3, amended.  With a non-blank query, the query embedded and every
    opportunity embedded in the query's dimension, the search path returns
    the first 25 of the list obtained by writing each opportunity's cosine
    similarity into its score and sorting by the comparator, highest first:
    the sorted list is a rearrangement of all the scored opportunities (none
    is filtered out, whatever its score), no element is followed by one the
    comparator ranks higher, the sort is stable (two opportunities of which
    the comparator does not ask the later one first, as when their scores
    tie, keep their upstream order), and the output has min(25, n) items. *)
Theorem semantic_search_ranks_top25 `{Host}
    (env : SamSearch.Env) (opportunities scored : list SamSearch.SAMOpportunity)
    (q : string) (provider : SamSearch.qvalue) (apiKey : string)
    (cache cache1 : gmap string (list float)) (qe : list float) :
  trim q <> "" ->
  SamSearch.generateEmbeddings env q provider apiKey cache = (Return qe, cache1) ->
  Forall2 (SamSearch.scored_as env qe provider apiKey cache1) opportunities scored ->
  exists sorted,
    (SamSearch.performSemanticSearch env opportunities (SamSearch.QString q)
       provider apiKey cache).1 = Return (take 25 sorted) /\
    sorted ≡ₚ scored /\
    Sorted (SamSearch.in_order SamSearch.byRelevance) sorted /\
    SamSearch.keeps_order SamSearch.byRelevance scored sorted /\
    length (take 25 sorted) = Nat.min 25 (length opportunities).
Proof.
  intros Hq Hqe Hscored.
  exists (SamSearch.array_sort SamSearch.byRelevance scored).
  split; [|split; [|split; [|split]]].
  - apply (performSemanticSearch_ranks env opportunities q provider apiKey cache
             qe cache1 scored); [|done..].
    by apply String.eqb_neq.
  - apply array_sort_perm.
  - apply array_sort_sorted. exact byRelevance_antisym.
  - apply array_sort_keeps_order.
  - rewrite length_take, (Permutation_length (array_sort_perm _ scored)).
    by rewrite (Forall2_length _ _ _ Hscored).
Qed.

Lemma semantic_search_ranks_top25_witness :
  exists sorted,
    (SamSearch.performSemanticSearch (H := Demo.host) Demo.env Demo.upstream
       (SamSearch.QString "cloud") (SamSearch.QString "openai") "sk-test" ∅).1
    = Return (take 25 sorted) /\
    sorted ≡ₚ [SamSearch.with_relevanceScore Demo.hosting 0;
               SamSearch.with_relevanceScore Demo.migration 1;
               SamSearch.with_relevanceScore Demo.paving (-1)] /\
    Sorted (SamSearch.in_order SamSearch.byRelevance) sorted /\
    SamSearch.keeps_order SamSearch.byRelevance
      [SamSearch.with_relevanceScore Demo.hosting 0;
       SamSearch.with_relevanceScore Demo.migration 1;
       SamSearch.with_relevanceScore Demo.paving (-1)] sorted /\
    length (take 25 sorted) = Nat.min 25 (length Demo.upstream).
Proof.
  apply (semantic_search_ranks_top25 (H := Demo.host) Demo.env Demo.upstream _
           "cloud" (SamSearch.QString "openai") "sk-test" ∅
           {[ "openai:cloud" := [1; 0]%float ]} [1; 0]%float).
  - by vm_compute.
  - vm_compute. reflexivity.
  - repeat constructor; eexists _, _;
      (split; [vm_compute; reflexivity|]); (split; [vm_compute; reflexivity|]);
      reflexivity.
Defined.

(** Tied scores keep their upstream order behind the higher score. *)
Example ranking_ties_keep_upstream_order :
  SamSearch.array_sort SamSearch.byRelevance
    [SamSearch.with_relevanceScore Demo.hosting 0.5;
     SamSearch.with_relevanceScore Demo.migration 0.5;
     SamSearch.with_relevanceScore Demo.paving 1]
  = [SamSearch.with_relevanceScore Demo.paving 1;
     SamSearch.with_relevanceScore Demo.hosting 0.5;
     SamSearch.with_relevanceScore Demo.migration 0.5].
Proof. vm_compute. reflexivity. Qed.

#[local] Arguments SamSearch.performSemanticSearch : simpl never.

(** C6.  If the query embedding or the embedding of any opportunity throws,
    [performSemanticSearch] returns the list it was given; and a request that
    misses the cache, asks for ranking and hits such a failure is answered
    200 with the list SAM.gov returned, unranked. *)
Theorem embedding_failure_returns_unranked `{Host}
    (env : SamSearch.Env) (req : SamSearch.Request) (st : SamSearch.State)
    (opportunities : list SamSearch.SAMOpportunity)
    (q auth : string) (samApiKey : SamSearch.qvalue) :
  let provider := default (SamSearch.QString "openai")
                    (SamSearch.query_get (SamSearch.query req) "provider") in
  let apiKey := SamSearch.remove_first "Bearer " auth in
  SamSearch.ranking_fails env opportunities q provider apiKey
    (SamSearch.embeddingCache st) ->
  (SamSearch.performSemanticSearch env opportunities (SamSearch.QString q)
     provider apiKey (SamSearch.embeddingCache st)).1 = Return opportunities /\
  (SamSearch.method req = "GET" ->
   (RateLimit.checkSAMRateLimit
      (RateLimit.clientIpOf (SamSearch.x_forwarded_for req)
                            (SamSearch.remoteAddress req))
      (SamSearch.clock env (SamSearch.ticks st))
      (SamSearch.samRateLimitMap st)).1 = true ->
   SamSearch.query_get (SamSearch.query req) "samApiKey" = Some samApiKey ->
   SamSearch.qtruthy (Some samApiKey) = true ->
   SamSearch.searchResultsCache st !! SamSearch.cacheKeyOf (SamSearch.query req)
   = None ->
   SamSearch.searchSAMOpportunities env (SamSearch.buildFilters (SamSearch.query req))
     samApiKey = Return opportunities ->
   SamSearch.query_get (SamSearch.query req) "semantic"
   = Some (SamSearch.QString "true") ->
   SamSearch.query_get (SamSearch.query req) "q" = Some (SamSearch.QString q) ->
   q <> "" ->
   SamSearch.authorization req = Some auth ->
   apiKey <> "" ->
   exists d t st',
     SamSearch.handler env req st
     = ({| SamSearch.status := 200;
           SamSearch.json := SamSearch.SearchBody d false t |}, st') /\
     SamSearch.opportunities d = opportunities /\
     SamSearch.totalRecords d = length opportunities).
Proof.
  intros provider apiKey Hfail.
  pose proof (performSemanticSearch_falls_back _ _ _ _ _ _ Hfail) as Hback.
  split; [exact Hback|].
  intros Hget Hallowed Hsam Hsamt Hmiss Hup Hsem Hq Hqne Hauth Hkey.
  destruct (SamSearch.performSemanticSearch _ _ _ _ _ _) as [ranked cache']
    eqn:Hperf.
  cbn in Hback. subst ranked.
  unfold SamSearch.handler, SamSearch.Date_now, SamSearch.cacheKeyOf in *.
  rewrite Hget. change (negb ("GET" =? "GET")%string) with false. cbv iota.
  destruct (RateLimit.checkSAMRateLimit _ _ _) as [allowed windows].
  cbn in Hallowed. subst allowed. cbn.
  rewrite Hsam, Hsamt. cbn. rewrite Hmiss.
  unfold SamSearch.searchAndStore. cbn. rewrite Hup, Hsem, Hq, Hauth. cbn.
  apply String.eqb_neq in Hqne, Hkey. rewrite Hqne. cbn.
  fold apiKey. rewrite Hkey. fold provider.
  rewrite Hperf. cbn. eauto 10.
Qed.

(** The Hugging Face endpoint of [Demo] is down: a ranked search through it
    returns the upstream list in upstream order. *)
Lemma embedding_failure_returns_unranked_witness :
  let req :=
    {| SamSearch.method := "GET";
       SamSearch.x_forwarded_for := None;
       SamSearch.remoteAddress := None;
       SamSearch.authorization := Some "Bearer hf-test";
       SamSearch.query := [("q", SamSearch.QString "cloud");
                           ("semantic", SamSearch.QString "true");
                           ("provider", SamSearch.QString "huggingface");
                           ("samApiKey", SamSearch.QString "SAM-KEY")] |} in
  (SamSearch.performSemanticSearch (H := Demo.host) Demo.env Demo.upstream
     (SamSearch.QString "cloud") (SamSearch.QString "huggingface") "hf-test" ∅).1
  = Return Demo.upstream /\
  exists d t st',
    SamSearch.handler (H := Demo.host) Demo.env req Demo.fresh
    = ({| SamSearch.status := 200;
          SamSearch.json := SamSearch.SearchBody d false t |}, st') /\
    SamSearch.opportunities d = Demo.upstream /\
    SamSearch.totalRecords d = 3%nat.
Proof.
  intros req.
  destruct (embedding_failure_returns_unranked (H := Demo.host) Demo.env req
              Demo.fresh Demo.upstream "cloud" "Bearer hf-test"
              (SamSearch.QString "SAM-KEY")) as [Hfun Hhandler].
  { left. eexists. vm_compute. reflexivity. }
  split; [exact Hfun|].
  apply Hhandler; try (vm_compute; reflexivity); by vm_compute.
Defined.

(** A failure in the middle of the ranking: the third opportunity's text is
    rejected by the embedding endpoint after the first two were embedded. *)
Example embedding_failure_mid_ranking :
  let unknown := {| SamSearch.id := "N-004"; SamSearch.title := "Janitorial";
                    SamSearch.description := ""; SamSearch.synopsis := "";
                    SamSearch.relevanceScore := 0; SamSearch.rest := "" |} in
  (SamSearch.performSemanticSearch (H := Demo.host) Demo.env
     [Demo.migration; Demo.hosting; unknown; Demo.paving]
     (SamSearch.QString "cloud") (SamSearch.QString "openai") "sk-test" ∅).1
  = Return [Demo.migration; Demo.hosting; unknown; Demo.paving].
Proof. vm_compute. reflexivity. Qed.

(** ** The chat adapters *)

Section ChatFacts.
Import Chat.
Context `{Host}.
Variable fetch : FetchRequest -> outcome FetchResponse.

Lemma throw_api_error_throws {A} catch_json prefix response (a : A) :
  throw_api_error catch_json prefix response <> Return a.
Proof.
  unfold throw_api_error, mbind, outcome_bind, obind.
  repeat case_match; done.
Qed.

Lemma throw_hf_error_throws {A} catch_json response (a : A) :
  throw_hf_error catch_json response <> Return a.
Proof.
  unfold throw_hf_error, mbind, outcome_bind, obind.
  repeat case_match; done.
Qed.

(** Unfold the binds of an adapter that returned. *)
Ltac returned_inv Hrun :=
  unfold mbind, outcome_bind, obind, mret, outcome_ret in Hrun;
  repeat (case_match; try done);
  try (exfalso;
       first [by eapply throw_api_error_throws | by eapply throw_hf_error_throws]);
  simplify_eq.

Ltac read_path :=
  cbn [JS.path]; unfold mbind, outcome_bind, obind;
  repeat match goal with Hget : _ = Return _ |- _ => rewrite Hget end;
  try reflexivity.

Lemma callOpenAI_returns catch_json messages requested_model apiKey
    temperature maxTokens r :
  callOpenAI fetch catch_json messages requested_model apiKey temperature maxTokens
  = Return r ->
  provider r = openai /\ exists data, upstream_body fetch data /\ openai_shape data r.
Proof.
  intros Hrun. unfold callOpenAI in Hrun. returned_inv Hrun.
  split; [reflexivity|]. eexists. split.
  - eexists _, _. split; [eassumption|]. split; [|eassumption].
    by destruct (ok _).
  - unfold openai_shape; cbn [content usage model]. repeat split; read_path.
Qed.

Lemma callHuggingFace_returns catch_json messages requested_model apiKey
    temperature maxTokens r :
  callHuggingFace fetch catch_json messages requested_model apiKey temperature maxTokens
  = Return r ->
  provider r = huggingface /\
  exists data, upstream_body fetch data /\ huggingface_shape requested_model data r.
Proof.
  intros Hrun. unfold callHuggingFace in Hrun. returned_inv Hrun.
  - split; [reflexivity|]. eexists. split.
    + eexists _, _. split; [eassumption|]. split; [|eassumption].
      by destruct (ok _).
    + unfold huggingface_shape; cbn [content usage model].
      match goal with Harr : JS.isArray _ = true |- _ => rewrite Harr end.
      repeat split; read_path.
  - split; [reflexivity|]. eexists. split.
    + eexists _, _. split; [eassumption|]. split; [|eassumption].
      by destruct (ok _).
    + unfold huggingface_shape; cbn [content usage model].
      match goal with Harr : JS.isArray _ = false |- _ => rewrite Harr end.
      repeat split; read_path.
Qed.

Lemma route_callAnthropic_returns messages requested_model apiKey
    temperature maxTokens r :
  ChatRoute.callAnthropic fetch messages requested_model apiKey temperature maxTokens
  = Return r ->
  provider r = anthropic /\
  exists data, upstream_body fetch data /\ anthropic_completion_shape data r.
Proof.
  intros Hrun. unfold ChatRoute.callAnthropic in Hrun. returned_inv Hrun.
  split; [reflexivity|]. eexists. split.
  - eexists _, _. split; [eassumption|]. split; [|eassumption].
    by destruct (ok _).
  - unfold anthropic_completion_shape; cbn [content usage model].
    split; [read_path|].
    eexists _, _, _. split; [read_path|].
    split; [eassumption|]. split; [eassumption|]. split; [reflexivity|].
    intros ->. cbn in *. by simplify_eq.
Qed.

Lemma pages_callAnthropic_returns messages requested_model apiKey
    temperature maxTokens r :
  ChatPages.callAnthropic fetch messages requested_model apiKey temperature maxTokens
  = Return r ->
  provider r = anthropic /\
  exists data, upstream_body fetch data /\ anthropic_messages_shape data r.
Proof.
  intros Hrun. unfold ChatPages.callAnthropic in Hrun. returned_inv Hrun.
  split; [reflexivity|]. eexists. split.
  - eexists _, _. split; [eassumption|]. split; [|eassumption].
    by destruct (ok _).
  - unfold anthropic_messages_shape; cbn [content usage model].
    split; [read_path|].
    eexists _, _. split; [read_path|]. split; [read_path|]. reflexivity.
Qed.

End ChatFacts.

(** C1, as stated, fails for the OpenAI adapter of both files: it returns the
    upstream's [usage] property as it is, so a success body that reports no
    usage yields a response whose [usage] is [undefined], not an object of
    three zero counts. *)
Lemma openai_usage_not_defaulted :
  exists r,
    ChatRoute.complete (H := Demo.host) Demo.fetch Chat.openai Demo.hello
      "gpt-4o-mini" "sk-test" None None = Return r /\
    ChatPages.complete (H := Demo.host) Demo.fetch Chat.openai Demo.hello
      "gpt-4o-mini" "sk-test" None None = Return r /\
    Chat.content r = JStr "Hello!" /\
    Chat.usage r = JUndefined /\
    Chat.normalized Chat.openai r = false.
Proof.
  eexists. split; [vm_compute; reflexivity|]. repeat split.
Qed.

(** C1, amended.  In both files, a successful completion through any of the
    three adapters returns [{content, usage, model, provider}] with [provider]
    the requested one and [content] the text field of the upstream body,
    unchanged.  [usage] is: for Hugging Face, three zeros; for the
    completion-style Anthropic adapter, the upstream counts with 0 for each
    missing one and their sum (three zeros when the body has no usage block);
    for the messages-style Anthropic adapter, the upstream's input and output
    counts and their sum; for OpenAI, the upstream's [usage] property as it
    is. *)
Theorem adapters_return_one_shape `{Host}
    (fetch : Chat.FetchRequest -> outcome Chat.FetchResponse)
    (p : Chat.LLMProvider) (messages : list Chat.LLMMessage.t)
    (model apiKey : string) (temperature maxTokens : option float)
    (r : Chat.LLMResponse) :
  (ChatRoute.complete fetch p messages model apiKey temperature maxTokens = Return r ->
   Chat.provider r = p /\
   exists data,
     Chat.upstream_body fetch data /\
     match p with
     | Chat.openai => Chat.openai_shape data r
     | Chat.anthropic => Chat.anthropic_completion_shape data r
     | Chat.huggingface => Chat.huggingface_shape model data r
     end) /\
  (ChatPages.complete fetch p messages model apiKey temperature maxTokens = Return r ->
   Chat.provider r = p /\
   exists data,
     Chat.upstream_body fetch data /\
     match p with
     | Chat.openai => Chat.openai_shape data r
     | Chat.anthropic => Chat.anthropic_messages_shape data r
     | Chat.huggingface => Chat.huggingface_shape model data r
     end).
Proof.
  split; intros Hrun; destruct p; cbn [ChatRoute.complete ChatPages.complete] in Hrun.
  - by apply callOpenAI_returns in Hrun.
  - by apply route_callAnthropic_returns in Hrun.
  - by apply callHuggingFace_returns in Hrun.
  - by apply callOpenAI_returns in Hrun.
  - by apply pages_callAnthropic_returns in Hrun.
  - by apply callHuggingFace_returns in Hrun.
Qed.

(** The three adapters of route.ts on the minimal conversation. *)
Lemma adapters_return_one_shape_witness :
  let anthropic_reply :=
    {| Chat.content := JStr " Hello!"; Chat.usage := Chat.zero_usage;
       Chat.model := JStr "claude-2"; Chat.provider := Chat.anthropic |} in
  let huggingface_reply :=
    {| Chat.content := JStr "Hello!"; Chat.usage := Chat.zero_usage;
       Chat.model := JStr "gpt2"; Chat.provider := Chat.huggingface |} in
  let messages_reply :=
    {| Chat.content := JStr "Hello!";
       Chat.usage := JObj [("prompt_tokens", JNum 12); ("completion_tokens", JNum 3);
                           ("total_tokens", JNum 15)];
       Chat.model := JStr "claude-3-haiku"; Chat.provider := Chat.anthropic |} in
  (exists data, Chat.upstream_body Demo.fetch data /\
                Chat.anthropic_completion_shape (H := Demo.host) data anthropic_reply) /\
  (exists data, Chat.upstream_body Demo.fetch data /\
                Chat.huggingface_shape "gpt2" data huggingface_reply) /\
  (exists data, Chat.upstream_body Demo.fetch data /\
                Chat.anthropic_messages_shape (H := Demo.host) data messages_reply).
Proof.
  intros anthropic_reply huggingface_reply messages_reply.
  split; [|split].
  - apply (adapters_return_one_shape (H := Demo.host) Demo.fetch Chat.anthropic
             Demo.hello "claude-2" "sk-test" None None anthropic_reply).
    vm_compute. reflexivity.
  - apply (adapters_return_one_shape (H := Demo.host) Demo.fetch Chat.huggingface
             Demo.hello "gpt2" "hf-test" None None huggingface_reply).
    vm_compute. reflexivity.
  - apply (adapters_return_one_shape (H := Demo.host) Demo.fetch Chat.anthropic
             Demo.hello "claude-3-haiku" "sk-test" None None messages_reply).
    vm_compute. reflexivity.
Defined.

(** The messages-style adapter has no defaults: a success body without a
    usage block makes it throw, and a usage block without counts gives
    [undefined] counts and a NaN total. *)
Example pages_anthropic_without_counts :
  let reply data : Chat.FetchRequest -> outcome Chat.FetchResponse :=
    fun _ => Demo.succeed data in
  let text := ("content", JArr [JObj [("type", JStr "text"); ("text", JStr "Hi")]]) in
  ChatPages.callAnthropic (H := Demo.host) (reply (JObj [text])) Demo.hello
    "claude-3-haiku" "sk-test" None None
  = Throw (TypeError "Cannot read properties of undefined (reading 'input_tokens')") /\
  Chat.usage <$> ChatPages.callAnthropic (H := Demo.host)
    (reply (JObj [text; ("usage", JObj [])])) Demo.hello
    "claude-3-haiku" "sk-test" None None
  = Return (JObj [("prompt_tokens", JUndefined); ("completion_tokens", JUndefined);
                  ("total_tokens", JNum nan)]).
Proof. split; vm_compute; reflexivity. Qed.

(** ** More on the rate limiters *)

Section RateLimitMore.
Import RateLimit RateLimitTrace.
Variables window maxRequests : Z.
Hypothesis limit_positive : 1 <= maxRequests.

Lemma window_check_bounded ip now (m : gmap string RateWindow) :
  counts_bounded maxRequests m ->
  counts_bounded maxRequests (window_check window maxRequests ip now m).2.
Proof.
  intros Hm. unfold window_check.
  destruct (m !! ip) as [w|] eqn:Hw; cbn.
  - destruct (_ >? _); cbn.
    + apply map_Forall_insert_2; [cbn; lia|done].
    + destruct (Z.geb_spec (count w) maxRequests); cbn; [done|].
      apply map_Forall_insert_2; [|done].
      pose proof (Hm _ _ Hw). cbn in *. lia.
  - apply map_Forall_insert_2; [cbn; lia|done].
Qed.

Lemma serve_bounded arrivals (m : gmap string RateWindow) :
  counts_bounded maxRequests m ->
  counts_bounded maxRequests
    (serve (window_check window maxRequests) arrivals m).2.
Proof.
  revert m. induction arrivals as [|[ip now] rest IH]; intros m Hm; [done|].
  cbn [serve].
  pose proof (window_check_bounded ip now m Hm) as Hstep.
  destruct (window_check window maxRequests ip now m) as [ok m'].
  specialize (IH m' Hstep).
  by destruct (serve (window_check window maxRequests) rest m') as [oks m''].
Qed.

End RateLimitMore.

(** X1.  A check by one identity never reads or changes another identity's
    window: in both limiters the other entry is the same before and after,
    whatever the verdict. *)
Theorem rate_limit_identities_isolated
    (ip ip' : string) (now : Z) (m : gmap string RateLimit.RateWindow) :
  ip <> ip' ->
  (RateLimit.checkRateLimit ip now m).2 !! ip' = m !! ip' /\
  (RateLimit.checkSAMRateLimit ip now m).2 !! ip' = m !! ip'.
Proof.
  intros Hne. rewrite checkRateLimit_window, checkSAMRateLimit_window.
  split; by apply window_check_frame.
Qed.

Lemma rate_limit_identities_isolated_witness :
  let m : gmap string RateLimit.RateWindow :=
    {[ "198.51.100.4" := {| RateLimit.count := 20; RateLimit.timestamp := 0 |} ]} in
  (RateLimit.checkRateLimit "203.0.113.7" 10 m).2 !! "198.51.100.4"
  = Some {| RateLimit.count := 20; RateLimit.timestamp := 0 |}.
Proof.
  intros m.
  rewrite (proj1 (rate_limit_identities_isolated "203.0.113.7" "198.51.100.4" 10 m
                    ltac:(done))).
  reflexivity.
Defined.

(** X2.  Whatever callers arrive in whatever order and at whatever times,
    starting from the empty map, every window the limiters store has a count
    between 1 and the limit (20 for chat, 100 for search). *)
Theorem rate_limit_counts_stay_bounded (arrivals : list (string * Z)) :
  RateLimitTrace.counts_bounded RateLimit.RATE_LIMIT_MAX_REQUESTS
    (RateLimitTrace.serve RateLimit.checkRateLimit arrivals ∅).2 /\
  RateLimitTrace.counts_bounded RateLimit.SAM_RATE_LIMIT_MAX_REQUESTS
    (RateLimitTrace.serve RateLimit.checkSAMRateLimit arrivals ∅).2.
Proof.
  rewrite checkRateLimit_window, checkSAMRateLimit_window.
  split; apply serve_bounded;
    first [ by unfold RateLimit.RATE_LIMIT_MAX_REQUESTS,
                      RateLimit.SAM_RATE_LIMIT_MAX_REQUESTS
          | apply map_Forall_empty ].
Qed.

(** ** More on the search handler *)

#[local] Arguments SamSearch.searchAndStore : simpl never.

Section HandlerMore.
Import SamSearch SamSearchMore.
Context `{Host}.

(** How an admitted request proceeds, by the state of its cache entry. *)
Lemma handler_admitted env req st :
  admitted env req st ->
  let key := cacheKeyOf (query req) in
  let samApiKey := default (QString "") (query_get (query req) "samApiKey") in
  handler env req st =
  match searchResultsCache st !! key with
  | Some cachedResult =>
      if clock env (S (ticks st)) - timestamp cachedResult <? CACHE_DURATION then
        ({| status := 200;
            json := SearchBody (data cachedResult) true (clock env (S (S (ticks st)))) |},
         entered env req st 3)
      else searchAndStore env req (buildFilters (query req)) key samApiKey
             (entered env req st 2)
  | None => searchAndStore env req (buildFilters (query req)) key samApiKey
              (entered env req st 1)
  end.
Proof.
  intros (Hget & Hallowed & Hkey). unfold handler, Date_now, cacheKeyOf, entered.
  rewrite Hget. change (negb ("GET" =? "GET")%string) with false. cbv iota.
  destruct (RateLimit.checkSAMRateLimit _ _ _) as [allowed windows].
  cbn in Hallowed. subst allowed. cbn. rewrite Hkey. cbn.
  destruct (searchResultsCache st !! _) as [cachedResult|]; [|reflexivity].
  by destruct (_ <? _).
Qed.

(** A request that is not admitted is answered 405, 429 or 400. *)
Lemma handler_not_admitted env req st :
  ~ admitted env req st ->
  (status (handler env req st).1 = 405 /\ (handler env req st).2 = st) \/
  ((status (handler env req st).1 = 429 \/ status (handler env req st).1 = 400) /\
   (handler env req st).2 = entered env req st 1).
Proof.
  intros Hno. unfold handler, Date_now, entered, admitted in *.
  destruct (String.eqb_spec (method req) "GET") as [Hget|Hget]; cbn; [|by left].
  right.
  destruct (RateLimit.checkSAMRateLimit _ _ _) as [[] windows]; cbn in *; [|by auto].
  destruct (qtruthy (query_get (query req) "samApiKey")); cbn; [|by auto].
  by destruct Hno.
Qed.

Lemma searchAndStore_status env req filters key samApiKey st :
  let out := searchAndStore env req filters key samApiKey st in
  (status out.1 = 500 /\ (exists msg t, json out.1 = ErrorBody msg t) /\
   searchResultsCache out.2 = searchResultsCache st) \/
  (status out.1 = 200 /\
   exists d t ts, json out.1 = SearchBody d false t /\
     searchResultsCache out.2
     = <[key := {| data := d; timestamp := ts |}]> (searchResultsCache st)).
Proof.
  unfold searchAndStore, internalError, Date_now. cbv zeta.
  destruct (searchSAMOpportunities env filters samApiKey) as [opps|e];
    [|left; cbn; eauto 10].
  match goal with
  | |- context [set_embeddingCache st (?r).2] => destruct r as [[final|e] cache']
  end; cbn; [right|left]; eauto 10.
Qed.

Lemma admitted_decision env req st : Decision (admitted env req st).
Proof. unfold admitted. apply _. Qed.

Lemma admitted_same_clock env env' req st :
  same_clock env env' -> admitted env req st -> admitted env' req st.
Proof. intros Hclock. unfold admitted. by rewrite (Hclock (ticks st)). Qed.

Lemma entered_same_clock env env' req st n :
  same_clock env env' -> entered env req st n = entered env' req st n.
Proof. intros Hclock. unfold entered. by rewrite (Hclock (ticks st)). Qed.

End HandlerMore.

(** X3.  A request admitted with a cache entry younger than [CACHE_DURATION]
    under its key is answered 200 with the stored payload, marked cached, and
    leaves both caches as they were; the answer is the same in every outside
    world with the same clock, so neither SAM.gov nor an embedding endpoint is
    consulted. *)
Theorem cache_hit_consults_no_upstream `{Host}
    (env env' : SamSearch.Env) (req : SamSearch.Request) (st : SamSearch.State)
    (entry : SamSearch.CacheEntry) :
  SamSearchMore.same_clock env env' ->
  SamSearchMore.admitted env req st ->
  SamSearch.searchResultsCache st !! SamSearch.cacheKeyOf (SamSearch.query req)
  = Some entry ->
  SamSearch.clock env (S (SamSearch.ticks st)) - SamSearch.timestamp entry
  < SamSearch.CACHE_DURATION ->
  SamSearch.handler env' req st = SamSearch.handler env req st /\
  (SamSearch.handler env req st).1
  = {| SamSearch.status := 200;
       SamSearch.json :=
         SamSearch.SearchBody (SamSearch.data entry) true
           (SamSearch.clock env (S (S (SamSearch.ticks st)))) |} /\
  SamSearch.searchResultsCache (SamSearch.handler env req st).2
  = SamSearch.searchResultsCache st /\
  SamSearch.embeddingCache (SamSearch.handler env req st).2
  = SamSearch.embeddingCache st.
Proof.
  intros Hclock Hadm Hentry Hyoung.
  pose proof (admitted_same_clock _ _ _ _ Hclock Hadm) as Hadm'.
  rewrite (handler_admitted env' req st Hadm'), (handler_admitted env req st Hadm).
  cbv zeta. rewrite Hentry. rewrite <- !Hclock.
  apply Z.ltb_lt in Hyoung. rewrite Hyoung.
  rewrite (entered_same_clock env env') by done. done.
Qed.

Lemma cache_hit_consults_no_upstream_witness :
  let st1 := (SamSearch.handler (H := Demo.host) Demo.env Demo.plain_request
                Demo.fresh).2 in
  let down := {| SamSearch.clock := SamSearch.clock Demo.env;
                 SamSearch.searchSAMOpportunities :=
                   fun _ _ => Throw (Error "SAM.gov API error: 503");
                 SamSearch.generateOpenAIEmbeddings := fun _ _ => Throw (Error "down");
                 SamSearch.generateHuggingFaceEmbeddings :=
                   fun _ _ => Throw (Error "down") |} in
  SamSearch.handler (H := Demo.host) down Demo.plain_request st1
  = SamSearch.handler (H := Demo.host) Demo.env Demo.plain_request st1.
Proof.
  intros st1 down.
  refine (proj1 (cache_hit_consults_no_upstream (H := Demo.host) Demo.env down
                   Demo.plain_request st1
                   {| SamSearch.data :=
                        {| SamSearch.opportunities := Demo.upstream;
                           SamSearch.totalRecords := 3;
                           SamSearch.response_limit := 5;
                           SamSearch.response_offset := 0 |};
                      SamSearch.timestamp := 1000 |} _ _ _ _)).
  - intros n. reflexivity.
  - repeat split; vm_compute; reflexivity.
  - vm_compute. reflexivity.
  - vm_compute. reflexivity.
Defined.

(** X4.  The handler writes [searchResultsCache] only when it answers a
    request afresh: then the new map is the old one with the returned payload
    put under the request's key; after every other answer (405, 429, 400,
    500, or 200 served from cache) the map is the one it started with, so
    errors are never cached and a stale entry that could not be refreshed
    stays in place. *)
Theorem result_cache_written_only_on_fresh_success `{Host}
    (env : SamSearch.Env) (req : SamSearch.Request) (st : SamSearch.State) :
  let resp := (SamSearch.handler env req st).1 in
  let cache' := SamSearch.searchResultsCache (SamSearch.handler env req st).2 in
  (exists d t ts,
      SamSearch.status resp = 200 /\
      SamSearch.json resp = SamSearch.SearchBody d false t /\
      cache' = <[SamSearch.cacheKeyOf (SamSearch.query req) :=
                   {| SamSearch.data := d; SamSearch.timestamp := ts |}]>
                 (SamSearch.searchResultsCache st)) \/
  ((forall d t, SamSearch.json resp <> SamSearch.SearchBody d false t) /\
   cache' = SamSearch.searchResultsCache st).
Proof.
  cbv zeta.
  destruct (admitted_decision env req st) as [Hadm|Hno].
  - rewrite (handler_admitted env req st Hadm). cbv zeta.
    destruct (SamSearch.searchResultsCache st !! _) as [entry|].
    + destruct (_ <? _); [right; by split|].
      destruct (searchAndStore_status env req
                  (SamSearch.buildFilters (SamSearch.query req))
                  (SamSearch.cacheKeyOf (SamSearch.query req))
                  (default (SamSearch.QString "")
                     (SamSearch.query_get (SamSearch.query req) "samApiKey"))
                  (SamSearchMore.entered env req st 2))
        as [(_ & (msg & t & Hjson) & Hcache) | (Hst & d & t & ts & Hjson & Hcache)].
      * right. rewrite Hjson. by split.
      * left. eauto 10.
    + destruct (searchAndStore_status env req
                  (SamSearch.buildFilters (SamSearch.query req))
                  (SamSearch.cacheKeyOf (SamSearch.query req))
                  (default (SamSearch.QString "")
                     (SamSearch.query_get (SamSearch.query req) "samApiKey"))
                  (SamSearchMore.entered env req st 1))
        as [(_ & (msg & t & Hjson) & Hcache) | (Hst & d & t & ts & Hjson & Hcache)].
      * right. rewrite Hjson. by split.
      * left. eauto 10.
  - right. unfold SamSearch.handler, SamSearch.Date_now, SamSearchMore.admitted in *.
    destruct (String.eqb_spec (SamSearch.method req) "GET") as [Hget|Hget]; cbn;
      [|by split].
    destruct (RateLimit.checkSAMRateLimit _ _ _) as [[] windows]; cbn in *;
      [|by split].
    destruct (SamSearch.qtruthy _); cbn; [|by split].
    by destruct Hno.
Qed.

Section HandlerMore2.
Import SamSearch SamSearchMore.
Context `{Host}.

Lemma handler_not_admitted_same_clock env env' req st :
  same_clock env env' -> ~ admitted env req st ->
  handler env' req st = handler env req st.
Proof.
  intros Hclock Hno. unfold handler, Date_now, admitted in *.
  rewrite <- (Hclock (ticks st)).
  destruct (String.eqb_spec (method req) "GET") as [Hget|Hget]; cbn; [|done].
  destruct (RateLimit.checkSAMRateLimit _ _ _) as [[] windows]; cbn in *; [|done].
  destruct (qtruthy (query_get (query req) "samApiKey")); cbn; [|done].
  by destruct Hno.
Qed.

Lemma handler_admitted_status env req st :
  admitted env req st ->
  status (handler env req st).1 = 200 \/ status (handler env req st).1 = 500.
Proof.
  intros Hadm. rewrite (handler_admitted env req st Hadm). cbv zeta.
  destruct (searchResultsCache st !! _) as [entry|].
  - destruct (_ <? _); [by left|].
    destruct (searchAndStore_status env req (buildFilters (query req))
                (cacheKeyOf (query req))
                (default (QString "") (query_get (query req) "samApiKey"))
                (entered env req st 2)) as [(-> & _) | (-> & _)]; auto.
  - destruct (searchAndStore_status env req (buildFilters (query req))
                (cacheKeyOf (query req))
                (default (QString "") (query_get (query req) "samApiKey"))
                (entered env req st 1)) as [(-> & _) | (-> & _)]; auto.
Qed.

Lemma Promise_all_inv {A B} (f : A -> outcome B) (l : list A) (values : list B) :
  Promise_all (map f l) = Return values ->
  Forall2 (fun a b => f a = Return b) l values.
Proof.
  revert values. induction l as [|a l IH]; intros values Hall; cbn in Hall.
  - by simplify_eq.
  - destruct (f a) as [b|e] eqn:Hfa; [|done].
    destruct (Promise_all (map f l)) as [bs|e] eqn:Hrest; [|done].
    unfold mbind, outcome_bind, obind, mret, outcome_ret in Hall. simplify_eq.
    constructor; [done|]. by apply IH.
Qed.

Lemma scoreOpportunity_notice env qe provider apiKey cache o scored :
  scoreOpportunity env qe provider apiKey cache o = Return scored ->
  notice scored = notice o.
Proof.
  unfold scoreOpportunity, mbind, outcome_bind, obind, mret, outcome_ret.
  intros Hrun. repeat case_match; by simplify_eq.
Qed.

Lemma notice_self o : notice (with_relevanceScore o (relevanceScore o)) = notice o.
Proof. by destruct o. Qed.

(** Whatever [performSemanticSearch] returns is made of the opportunities it
    was given, each at most once, with nothing but the score changed. *)
Lemma performSemanticSearch_notices env opportunities query provider apiKey cache
    ranked :
  (performSemanticSearch env opportunities query provider apiKey cache).1
  = Return ranked ->
  notice <$> ranked ⊆+ notice <$> opportunities.
Proof.
  unfold performSemanticSearch. destruct query as [q|items]; [|done].
  destruct (String.eqb (trim q) ""); [cbn; intros [= <-]; reflexivity|].
  destruct (generateEmbeddings env q provider apiKey cache) as [[qe|e] cache1];
    [|cbn; intros [= <-]; reflexivity].
  destruct (Promise_all _) as [scored|e] eqn:Hall;
    [|cbn; intros [= <-]; reflexivity].
  cbn. intros Hr. simplify_eq.
  apply Promise_all_inv in Hall.
  assert (Hsame : notice <$> scored = notice <$> opportunities).
  { induction Hall as [|o s os ss Hs _ IH]; cbn; [done|].
    by rewrite IH, (scoreOpportunity_notice _ _ _ _ _ _ _ Hs). }
  rewrite <- Hsame.
  etransitivity; [apply fmap_submseteq, sublist_submseteq, sublist_take|].
  by rewrite (array_sort_perm byRelevance scored).
Qed.

End HandlerMore2.

(** X5.  A request answered 405, 429 or 400 gets the same answer in every
    outside world with the same clock, and both caches are left as they
    were: a rejected request reaches neither SAM.gov nor an embedding
    endpoint.  The 405 leaves the whole state, rate windows included,
    untouched. *)
Theorem rejected_request_consults_no_upstream `{Host}
    (env env' : SamSearch.Env) (req : SamSearch.Request) (st : SamSearch.State) :
  SamSearchMore.same_clock env env' ->
  SamSearch.status (SamSearch.handler env req st).1 <> 200 ->
  SamSearch.status (SamSearch.handler env req st).1 <> 500 ->
  SamSearch.handler env' req st = SamSearch.handler env req st /\
  SamSearch.searchResultsCache (SamSearch.handler env req st).2
  = SamSearch.searchResultsCache st /\
  SamSearch.embeddingCache (SamSearch.handler env req st).2
  = SamSearch.embeddingCache st /\
  (SamSearch.status (SamSearch.handler env req st).1 = 405 ->
   (SamSearch.handler env req st).2 = st).
Proof.
  intros Hclock H200 H500.
  destruct (admitted_decision env req st) as [Hadm|Hno].
  { destruct (handler_admitted_status env req st Hadm); done. }
  split; [by apply handler_not_admitted_same_clock|].
  destruct (handler_not_admitted env req st Hno) as [[H405 ->] | [Hst ->]].
  - done.
  - repeat split; try done. intros H405. rewrite H405 in Hst. by destruct Hst.
Qed.

Lemma rejected_request_consults_no_upstream_witness :
  let post := {| SamSearch.method := "POST";
                 SamSearch.x_forwarded_for := Some "203.0.113.7";
                 SamSearch.remoteAddress := None;
                 SamSearch.authorization := None;
                 SamSearch.query := SamSearch.query Demo.plain_request |} in
  (SamSearch.handler (H := Demo.host) Demo.env post Demo.fresh).2 = Demo.fresh.
Proof.
  intros post.
  destruct (rejected_request_consults_no_upstream (H := Demo.host)
              Demo.env Demo.env post Demo.fresh) as (_ & _ & _ & Hstate).
  - intros n. reflexivity.
  - vm_compute. discriminate.
  - vm_compute. discriminate.
  - apply Hstate. vm_compute. reflexivity.
Defined.

Section HandlerMore3.
Import SamSearch SamSearchMore.
Context `{Host}.

(** A fresh answer, taken apart. *)
Lemma searchAndStore_fresh env req filters key samApiKey st d t :
  json (searchAndStore env req filters key samApiKey st).1 = SearchBody d false t ->
  exists upstream final cache',
    searchSAMOpportunities env filters samApiKey = Return upstream /\
    rankingStep env req upstream (embeddingCache st) = (Return final, cache') /\
    opportunities d = final /\ totalRecords d = length upstream /\
    embeddingCache (searchAndStore env req filters key samApiKey st).2 = cache'.
Proof.
  unfold searchAndStore, internalError, Date_now. cbv zeta.
  destruct (searchSAMOpportunities env filters samApiKey) as [upstream|e]; [|done].
  fold (rankingStep env req upstream (embeddingCache st)).
  destruct (rankingStep env req upstream (embeddingCache st)) as [[final|e] cache']
    eqn:Hstep; cbn; [|done].
  intros [= <- <-]. by eexists _, _, _.
Qed.

Lemma handler_fresh env req st d t :
  json (handler env req st).1 = SearchBody d false t ->
  exists upstream final cache',
    searchSAMOpportunities env (buildFilters (query req))
      (default (QString "") (query_get (query req) "samApiKey")) = Return upstream /\
    rankingStep env req upstream (embeddingCache st) = (Return final, cache') /\
    opportunities d = final /\ totalRecords d = length upstream /\
    embeddingCache (handler env req st).2 = cache'.
Proof.
  destruct (admitted_decision env req st) as [Hadm|Hno].
  - rewrite (handler_admitted env req st Hadm). cbv zeta.
    destruct (searchResultsCache st !! _) as [entry|].
    + destruct (_ <? _); [done|].
      intros Hj. exact (searchAndStore_fresh _ _ _ _ _ _ _ _ Hj).
    + intros Hj. exact (searchAndStore_fresh _ _ _ _ _ _ _ _ Hj).
  - intros Hjson. exfalso.
    unfold handler, Date_now, admitted in *.
    destruct (String.eqb_spec (method req) "GET") as [Hget|Hget]; cbn in *; [|done].
    destruct (RateLimit.checkSAMRateLimit _ _ _) as [[] windows]; cbn in *; [|done].
    destruct (qtruthy (query_get (query req) "samApiKey")); cbn in *; [|done].
    by destruct Hno.
Qed.

Lemma rankingStep_notices env req upstream cache final cache' :
  rankingStep env req upstream cache = (Return final, cache') ->
  notice <$> final ⊆+ notice <$> upstream.
Proof.
  unfold rankingStep. cbv zeta. intros Hstep.
  repeat case_match; simplify_eq; try reflexivity.
  eapply performSemanticSearch_notices.
  match goal with Hp : performSemanticSearch _ _ _ _ _ _ = _ |- _ => by rewrite Hp end.
Qed.

Lemma rankingStep_skipped env req upstream cache :
  asks_ranking req = false ->
  rankingStep env req upstream cache = (Return upstream, cache).
Proof.
  unfold asks_ranking, rankingStep. cbv zeta. intros Hask.
  destruct (qis _ "true"); cbn in *; [|done].
  destruct (query_get (query req) "q") as [[q|items]|] eqn:Hq; cbn in *;
    [| |done].
  - destruct (negb (q =? "")%string) eqn:Hqne; cbn; [|done].
    destruct (authorization req) as [auth|]; cbn in *; [|done].
    destruct (remove_first "Bearer " auth =? "")%string eqn:Hkey; cbn in *; [done|].
    rewrite andb_true_r in Hask. apply negb_false_iff in Hask.
    unfold performSemanticSearch. by rewrite Hask.
  - destruct (authorization req) as [auth|]; cbn in *; [|done].
    by destruct (remove_first "Bearer " auth =? "")%string.
Qed.

End HandlerMore3.

(** X6.  With an entry stored under the request's key, an admitted request is
    served from the cache exactly when the entry is younger than
    [CACHE_DURATION] at the handler's clock reading: an entry exactly
    [CACHE_DURATION] old, or older, is never served. *)
Theorem cache_entry_served_iff_young `{Host}
    (env : SamSearch.Env) (req : SamSearch.Request) (st : SamSearch.State)
    (entry : SamSearch.CacheEntry) :
  SamSearchMore.admitted env req st ->
  SamSearch.searchResultsCache st !! SamSearch.cacheKeyOf (SamSearch.query req)
  = Some entry ->
  (exists d t, SamSearch.json (SamSearch.handler env req st).1
               = SamSearch.SearchBody d true t) <->
  SamSearch.clock env (S (SamSearch.ticks st)) - SamSearch.timestamp entry
  < SamSearch.CACHE_DURATION.
Proof.
  intros Hadm Hentry. rewrite (handler_admitted env req st Hadm). cbv zeta.
  rewrite Hentry. destruct (Z.ltb_spec (SamSearch.clock env (S (SamSearch.ticks st))
                                         - SamSearch.timestamp entry)
                                        SamSearch.CACHE_DURATION) as [Hy|Ho].
  - split; [done|]. intros _. cbn. eauto.
  - split; [|lia]. intros (d & t & Hjson). exfalso.
    destruct (searchAndStore_status env req
                (SamSearch.buildFilters (SamSearch.query req))
                (SamSearch.cacheKeyOf (SamSearch.query req))
                (default (SamSearch.QString "")
                   (SamSearch.query_get (SamSearch.query req) "samApiKey"))
                (SamSearchMore.entered env req st 2))
      as [(_ & (msg & t' & Hj) & _) | (_ & d' & t' & ts & Hj & _)];
      rewrite Hj in Hjson; done.
Qed.

Lemma cache_entry_served_iff_young_witness :
  let st1 := (SamSearch.handler (H := Demo.host) Demo.env Demo.plain_request
                Demo.fresh).2 in
  exists d t, SamSearch.json (SamSearch.handler (H := Demo.host) Demo.env
                                Demo.plain_request st1).1
              = SamSearch.SearchBody d true t.
Proof.
  intros st1.
  apply (cache_entry_served_iff_young (H := Demo.host) Demo.env Demo.plain_request st1
           {| SamSearch.data :=
                {| SamSearch.opportunities := Demo.upstream;
                   SamSearch.totalRecords := 3;
                   SamSearch.response_limit := 5;
                   SamSearch.response_offset := 0 |};
              SamSearch.timestamp := 1000 |}).
  - repeat split; vm_compute; reflexivity.
  - vm_compute. reflexivity.
  - vm_compute. reflexivity.
Defined.

(** X7.  In every fresh answer, [totalRecords] is the number of opportunities
    SAM.gov returned, and the opportunities listed are drawn from those, each
    at most once and with nothing but the relevance score changed; so the
    list is never longer than [totalRecords]. *)
Theorem fresh_answer_lists_upstream_opportunities `{Host}
    (env : SamSearch.Env) (req : SamSearch.Request) (st : SamSearch.State)
    (d : SamSearch.SAMSearchResponse) (t : Z) :
  SamSearch.json (SamSearch.handler env req st).1 = SamSearch.SearchBody d false t ->
  exists upstream,
    SamSearch.searchSAMOpportunities env (SamSearch.buildFilters (SamSearch.query req))
      (default (SamSearch.QString "")
         (SamSearch.query_get (SamSearch.query req) "samApiKey")) = Return upstream /\
    SamSearch.totalRecords d = length upstream /\
    SamSearchMore.notice <$> SamSearch.opportunities d
      ⊆+ SamSearchMore.notice <$> upstream /\
    (length (SamSearch.opportunities d) <= SamSearch.totalRecords d)%nat.
Proof.
  intros Hjson.
  destruct (handler_fresh env req st d t Hjson)
    as (upstream & final & cache' & Hup & Hstep & <- & Htotal & _).
  exists upstream. split; [done|]. split; [done|].
  pose proof (rankingStep_notices _ _ _ _ _ _ Hstep) as Hsub.
  split; [done|]. rewrite Htotal.
  apply submseteq_length in Hsub. by rewrite !length_fmap in Hsub.
Qed.

Lemma fresh_answer_lists_upstream_opportunities_witness :
  exists upstream,
    Return Demo.upstream = Return upstream /\
    3%nat = length upstream /\
    SamSearchMore.notice <$> [SamSearch.with_relevanceScore Demo.migration 1;
                              SamSearch.with_relevanceScore Demo.hosting 0;
                              SamSearch.with_relevanceScore Demo.paving (-1)]
      ⊆+ SamSearchMore.notice <$> upstream /\
    (3 <= 3)%nat.
Proof.
  exact (fresh_answer_lists_upstream_opportunities (H := Demo.host) Demo.env
           Demo.semantic_request Demo.fresh
           {| SamSearch.opportunities :=
                [SamSearch.with_relevanceScore Demo.migration 1;
                 SamSearch.with_relevanceScore Demo.hosting 0;
                 SamSearch.with_relevanceScore Demo.paving (-1)];
              SamSearch.totalRecords := 3;
              SamSearch.response_limit := 5;
              SamSearch.response_offset := 0 |} 2000 eq_refl).
Defined.

(** X8.  Ranking is skipped unless the request asks for it in full: without
    [semantic=true], a non-blank keyword and a key in the Authorization
    header, a fresh answer lists the opportunities exactly as SAM.gov
    returned them, in upstream order, and the embedding cache is left as it
    was. *)
Theorem ranking_skipped_unless_asked `{Host}
    (env : SamSearch.Env) (req : SamSearch.Request) (st : SamSearch.State)
    (d : SamSearch.SAMSearchResponse) (t : Z) :
  SamSearchMore.asks_ranking req = false ->
  SamSearch.json (SamSearch.handler env req st).1 = SamSearch.SearchBody d false t ->
  SamSearch.searchSAMOpportunities env (SamSearch.buildFilters (SamSearch.query req))
    (default (SamSearch.QString "")
       (SamSearch.query_get (SamSearch.query req) "samApiKey"))
  = Return (SamSearch.opportunities d) /\
  SamSearch.embeddingCache (SamSearch.handler env req st).2
  = SamSearch.embeddingCache st.
Proof.
  intros Hask Hjson.
  destruct (handler_fresh env req st d t Hjson)
    as (upstream & final & cache' & Hup & Hstep & <- & _ & Hcache).
  rewrite (rankingStep_skipped env req upstream _ Hask) in Hstep.
  by simplify_eq.
Qed.

Lemma ranking_skipped_unless_asked_witness :
  let blank :=
    {| SamSearch.method := "GET";
       SamSearch.x_forwarded_for := None;
       SamSearch.remoteAddress := Some "192.0.2.1";
       SamSearch.authorization := Some "Bearer sk-test";
       SamSearch.query := [("q", SamSearch.QString "   ");
                           ("semantic", SamSearch.QString "true");
                           ("samApiKey", SamSearch.QString "SAM-KEY")] |} in
  SamSearch.embeddingCache
    (SamSearch.handler (H := Demo.host) Demo.env blank Demo.fresh).2 = ∅.
Proof.
  intros blank.
  refine (proj2 (ranking_skipped_unless_asked (H := Demo.host) Demo.env blank
                   Demo.fresh
                   {| SamSearch.opportunities := Demo.upstream;
                      SamSearch.totalRecords := 3;
                      SamSearch.response_limit := 50;
                      SamSearch.response_offset := 0 |} 2000 _ _)).
  - vm_compute. reflexivity.
  - vm_compute. reflexivity.
Defined.

(** ** Sorting, the embedding cache, the sweep and the upstream query *)

Section SortMore.
Import SamSearch.
Context {A : Type} (comparefn : A -> A -> float).

Lemma array_sort_fixes_sorted (l : list A) :
  Sorted (in_order comparefn) l -> array_sort comparefn l = l.
Proof.
  induction 1 as [|a l Hs IH Hhd]; [done|].
  cbn. fold (array_sort comparefn l). rewrite IH.
  destruct Hhd as [|b l' Hab]; [done|]. cbn.
  unfold in_order in Hab. by rewrite Hab.
Qed.

End SortMore.

(** X9.  Ranking is idempotent, and a list already in ranked order is
    returned as it is: where no opportunity is followed by one the comparator
    ranks higher (in particular where all scores tie), the sort keeps the
    upstream order. *)
Theorem ranking_keeps_ranked_order (l : list SamSearch.SAMOpportunity) :
  SamSearch.array_sort SamSearch.byRelevance
    (SamSearch.array_sort SamSearch.byRelevance l)
  = SamSearch.array_sort SamSearch.byRelevance l /\
  (Sorted (SamSearch.in_order SamSearch.byRelevance) l ->
   SamSearch.array_sort SamSearch.byRelevance l = l).
Proof.
  split; [|apply array_sort_fixes_sorted].
  apply array_sort_fixes_sorted, array_sort_sorted. exact byRelevance_antisym.
Qed.

Lemma ranking_keeps_ranked_order_witness :
  SamSearch.array_sort SamSearch.byRelevance Demo.upstream = Demo.upstream.
Proof.
  apply (ranking_keeps_ranked_order Demo.upstream).
  repeat constructor.
Defined.

Section EmbeddingCacheMore.
Import SamSearch.



Lemma generateEmbeddings_throws env text provider apiKey cache e cache' :
  generateEmbeddings env text provider apiKey cache = (Throw e, cache') ->
  cache' = cache /\ cache !! (qstring provider +:+ ":" +:+ text) = None.
Proof.
  unfold generateEmbeddings. cbv zeta.
  destruct (cache !! _) as [hit|] eqn:Hhit; [done|].
  match goal with |- context [match ?f with Return _ => _ | Throw _ => _ end] =>
    destruct f as [fetched|err] end; [done|].
  by intros [= <- <-].
Qed.

(** The [switch] on the provider name falls to its [default] for every
    other name. *)
Lemma provider_switch {A} (a b c : A) (p : string) :
  p <> "openai" -> p <> "huggingface" ->
  match p with
  | "openai" => a
  | "huggingface" => b
  | _ => c
  end = c.
Proof.
  intros Ho Hh.
  repeat (destruct p as [|[[|] [|] [|] [|] [|] [|] [|] [|]] p];
          try reflexivity; try congruence).
Qed.

End EmbeddingCacheMore.



(** X11.  A failed embedding call caches nothing: when [generateEmbeddings]
    throws, the cache is the one it was given.  A provider other than
    ["openai"] or ["huggingface"] with no cached vector is refused in every
    outside world, with the message naming it. *)
Theorem embedding_failure_caches_nothing
    (env : SamSearch.Env) (text : string) (provider : SamSearch.qvalue)
    (apiKey : string) (cache cache' : gmap string (list float)) (e : exn) :
  (SamSearch.generateEmbeddings env text provider apiKey cache = (Throw e, cache') ->
   cache' = cache) /\
  (provider <> SamSearch.QString "openai" ->
   provider <> SamSearch.QString "huggingface" ->
   cache !! (SamSearch.qstring provider +:+ ":" +:+ text) = None ->
   SamSearch.generateEmbeddings env text provider apiKey cache
   = (Throw (Error ("Embedding provider " +:+ SamSearch.qstring provider +:+
                    " not supported")), cache)).
Proof.
  split.
  - intros Hrun. by destruct (generateEmbeddings_throws _ _ _ _ _ _ _ Hrun).
  - intros Ho Hh Hmiss. unfold SamSearch.generateEmbeddings. rewrite Hmiss.
    destruct provider as [p|items]; [|reflexivity].
    cbv zeta. rewrite provider_switch; [reflexivity| |]; congruence.
Qed.

Lemma embedding_failure_caches_nothing_witness :
  SamSearch.generateEmbeddings Demo.env "cloud"
    (SamSearch.QString "anthropic") "sk-test" ∅
  = (Throw (Error "Embedding provider anthropic not supported"), ∅).
Proof.
  refine (proj2 (embedding_failure_caches_nothing Demo.env "cloud"
                   (SamSearch.QString "anthropic") "sk-test" ∅ ∅ (Error ""))
            _ _ _); done.
Defined.

(** X12.  The periodic sweep of [searchResultsCache] keeps exactly the
    entries that are at most [CACHE_DURATION] old at the time of the sweep.
    So it never removes an entry the handler would still serve at that time
    or later, and an entry exactly [CACHE_DURATION] old survives the sweep
    although the handler no longer serves it. *)
Theorem sweep_keeps_servable_entries
    (now : Z) (cache : gmap string SamSearch.CacheEntry) (key : string)
    (entry : SamSearch.CacheEntry) :
  (SamSearchMore.sweepSearchResults now cache !! key = Some entry <->
   cache !! key = Some entry /\
   now - SamSearch.timestamp entry <= SamSearch.CACHE_DURATION) /\
  (forall later,
      now <= later ->
      cache !! key = Some entry ->
      later - SamSearch.timestamp entry < SamSearch.CACHE_DURATION ->
      SamSearchMore.sweepSearchResults now cache !! key = Some entry).
Proof.
  assert (Hiff : SamSearchMore.sweepSearchResults now cache !! key = Some entry <->
                 cache !! key = Some entry /\
                 now - SamSearch.timestamp entry <= SamSearch.CACHE_DURATION).
  { unfold SamSearchMore.sweepSearchResults. rewrite map_lookup_filter_Some. cbn.
    rewrite negb_true_iff, Z.gtb_ltb, Z.ltb_ge. done. }
  split; [exact Hiff|].
  intros later Hle Hentry Hyoung. apply Hiff. split; [done|lia].
Qed.

Lemma sweep_keeps_servable_entries_witness :
  let young := {| SamSearch.data :=
                    {| SamSearch.opportunities := []; SamSearch.totalRecords := 0;
                       SamSearch.response_limit := 50;
                       SamSearch.response_offset := 0 |};
                  SamSearch.timestamp := 100000 |} in
  SamSearchMore.sweepSearchResults 350000 {[ "k" := young ]} !! "k" = Some young.
Proof.
  intros young.
  apply (proj2 (sweep_keeps_servable_entries 350000 {[ "k" := young ]} "k" young)
           399999); [lia | apply lookup_singleton_eq | vm_compute; reflexivity].
Defined.

Section UpstreamQuery.
Import SamSearch SamSearchMore.
Context `{Host}.

Lemma float_ltb_leb (x y : float) : (x <? y)%float = true -> (x <=? y)%float = true.
Proof.
  rewrite FloatAxioms.ltb_spec, FloatAxioms.leb_spec. unfold SFltb, SFleb.
  by destruct (SFcompare _ _) as [[]|].
Qed.

Lemma num_or_not_nan (x d : float) :
  PrimFloat.is_nan d = false -> PrimFloat.is_nan (JS.num_or x d) = false.
Proof.
  intros Hd. unfold JS.num_or.
  destruct (PrimFloat.is_zero x) eqn:Hz; cbn; [done|].
  by destruct (PrimFloat.is_nan x) eqn:Hn.
Qed.

Lemma Math_min_le_100 (x : float) :
  PrimFloat.is_nan x = false -> (Math_min x 100 <=? 100)%float = true.
Proof.
  intros Hx. unfold Math_min. rewrite Hx.
  change (PrimFloat.is_nan 100) with false. cbn [orb].
  destruct (x <? 100)%float eqn:Hlt; [by apply float_ltb_leb|].
  destruct (100 <? x)%float; [reflexivity|].
  change (PrimFloat.is_zero 100) with false. rewrite andb_false_r. reflexivity.
Qed.

Lemma params_get_app_miss name l1 l2 :
  name ∉ l1.*1 -> params_get name (l1 ++ l2) = params_get name l2.
Proof.
  induction l1 as [|[n v] l1 IH]; cbn; [done|].
  intros Hnot. apply not_elem_of_cons in Hnot as [Hne Hnot].
  destruct (String.eqb_spec n name); [done|]. by apply IH.
Qed.

Lemma appendIf_names name v k :
  k <> name -> k ∉ (appendIf name v).*1.
Proof.
  intros Hne. unfold appendIf. destruct (qtruthy v); cbn.
  - apply not_elem_of_cons. split; [done|apply not_elem_of_nil].
  - apply not_elem_of_nil.
Qed.

End UpstreamQuery.

(** X13.  The [limit] sent to SAM.gov is [Math.min(filters.limit || 50, 100)]:
    whatever limit the request carries, the number sent is at most 100, and a
    limit that is 0 or not a number is replaced by 50. *)
Theorem upstream_limit_capped `{Host} (filters : SamSearch.SAMSearchFilters) :
  SamSearchMore.params_get "limit" (SamSearchMore.searchParams filters)
  = Some (number_to_string (SamSearchMore.upstreamLimit filters)) /\
  (SamSearchMore.upstreamLimit filters <=? 100)%float = true /\
  (JS.truthy (JNum (SamSearch.limit filters)) = false ->
   SamSearchMore.upstreamLimit filters = 50%float).
Proof.
  split; [|split].
  - unfold SamSearchMore.searchParams.
    rewrite !params_get_app_miss; [reflexivity|..];
      try (by apply appendIf_names).
    destruct (SamSearch.active filters); cbn.
    + apply not_elem_of_cons. split; [done|apply not_elem_of_nil].
    + apply not_elem_of_nil.
  - apply Math_min_le_100, num_or_not_nan. reflexivity.
  - intros Hfalsy. unfold JS.truthy in Hfalsy. apply negb_false_iff in Hfalsy.
    unfold SamSearchMore.upstreamLimit, JS.num_or. by rewrite Hfalsy.
Qed.

Lemma upstream_limit_capped_witness :
  let filters := SamSearch.buildFilters (H := Demo.host)
                   [("limit", SamSearch.QString "abc")] in
  SamSearchMore.upstreamLimit filters = 50%float.
Proof.
  intros filters.
  apply (upstream_limit_capped (H := Demo.host) filters). vm_compute. reflexivity.
Defined.

Example upstream_limit_of_500 :
  SamSearchMore.params_get "limit"
    (SamSearchMore.searchParams (H := Demo.host)
       (SamSearch.buildFilters (H := Demo.host) [("limit", SamSearch.QString "500")]))
  = Some "100".
Proof. vm_compute. reflexivity. Qed.

(** ** The chat adapters' error path and the two chat handlers *)

Section ChatErrors.
Import Chat ChatHandlers.
Context `{Host}.
Variable fetch : FetchRequest -> outcome FetchResponse.
Variable response : FetchResponse.
Hypothesis fetch_answers : forall request, fetch request = Return response.
Hypothesis not_ok : ok response = false.

Lemma route_complete_error p messages model apiKey temperature maxTokens :
  ChatRoute.complete fetch p messages model apiKey temperature maxTokens
  = match p with
    | huggingface => throw_hf_error true response
    | _ => throw_api_error true (error_prefix p) response
    end.
Proof.
  destruct p; cbn; unfold callOpenAI, ChatRoute.callAnthropic, callHuggingFace;
    rewrite fetch_answers; cbn; by rewrite not_ok.
Qed.

Lemma pages_complete_error p messages model apiKey temperature maxTokens :
  ChatPages.complete fetch p messages model apiKey temperature maxTokens
  = match p with
    | huggingface => throw_hf_error false response
    | _ => throw_api_error false (error_prefix p) response
    end.
Proof.
  destruct p; cbn; unfold callOpenAI, ChatPages.callAnthropic, callHuggingFace;
    rewrite fetch_answers; cbn; by rewrite not_ok.
Qed.

Lemma error_body_parsed catch_json v :
  Chat.json response = Return v -> error_body catch_json response = Return v.
Proof. intros Hv. unfold error_body. by rewrite Hv. Qed.

End ChatErrors.

(** X14.  When the upstream answers with a non-OK response, every adapter of
    both chat endpoints throws an [Error] whose message is the provider's
    prefix followed by the text the error body reports, or by the response's
    status text when the body has no [error] field.  When the error body is
    not JSON, app/api/chat/route.ts still falls back to the status text,
    while the pages endpoint throws the parse failure itself. *)
Theorem upstream_error_becomes_exception `{Host}
    (fetch : Chat.FetchRequest -> outcome Chat.FetchResponse)
    (response : Chat.FetchResponse) (p : Chat.LLMProvider)
    (messages : list Chat.LLMMessage.t) (model apiKey : string)
    (temperature maxTokens : option float) :
  (forall request, fetch request = Return response) ->
  Chat.ok response = false ->
  let route := ChatRoute.complete fetch p messages model apiKey temperature maxTokens in
  let pages := ChatPages.complete fetch p messages model apiKey temperature maxTokens in
  (forall fields text,
      Chat.json response = Return (JObj fields) ->
      ChatHandlers.reports p fields text -> text <> EmptyString ->
      route = Throw (Error (ChatHandlers.error_prefix p +:+ text)) /\
      pages = Throw (Error (ChatHandlers.error_prefix p +:+ text))) /\
  (forall fields,
      Chat.json response = Return (JObj fields) ->
      JS.own fields "error" = JUndefined ->
      route = Throw (Error (ChatHandlers.error_prefix p +:+ Chat.statusText response)) /\
      pages = Throw (Error (ChatHandlers.error_prefix p +:+ Chat.statusText response))) /\
  (forall e,
      Chat.json response = Throw e ->
      route = Throw (Error (ChatHandlers.error_prefix p +:+ Chat.statusText response)) /\
      pages = Throw e).
Proof.
  intros Hfetch Hok route pages. subst route pages.
  rewrite (route_complete_error fetch response Hfetch Hok),
          (pages_complete_error fetch response Hfetch Hok).
  unfold Chat.throw_api_error, Chat.throw_hf_error.
  split; [|split].
  - intros fields text Hbody Hreports Htext.
    rewrite !(error_body_parsed response _ _ Hbody).
    assert (String.eqb text "" = false) as Hne by by apply String.eqb_neq.
    destruct p; cbn in Hreports |- *.
    1,2: destruct Hreports as (inner & -> & Hmsg); cbn; rewrite Hmsg;
         unfold JS.or; cbn; by rewrite Hne.
    rewrite Hreports. unfold JS.or; cbn. by rewrite Hne.
  - intros fields Hbody Hnone.
    rewrite !(error_body_parsed response _ _ Hbody).
    destruct p; cbn; by rewrite Hnone.
  - intros e Hbody. unfold Chat.error_body. rewrite Hbody.
    destruct p; by cbn.
Qed.

Lemma upstream_error_becomes_exception_witness :
  let response := {| Chat.ok := false; Chat.statusText := "Too Many Requests";
                     Chat.json := Throw (Error "Unexpected token < in JSON") |} in
  ChatRoute.complete (H := Demo.host) (fun _ => Return response) Chat.openai
    Demo.hello "gpt-4" "sk-test" None None
  = Throw (Error "OpenAI API error: Too Many Requests") /\
  ChatPages.complete (H := Demo.host) (fun _ => Return response) Chat.openai
    Demo.hello "gpt-4" "sk-test" None None
  = Throw (Error "Unexpected token < in JSON").
Proof.
  intros response.
  exact (proj2 (proj2 (upstream_error_becomes_exception (H := Demo.host)
                         (fun _ => Return response) response Chat.openai
                         Demo.hello "gpt-4" "sk-test" None None
                         (fun _ => eq_refl) eq_refl))
           (Error "Unexpected token < in JSON") eq_refl).
Defined.

Section RoutePost.
Import Chat ChatHandlers.
Context `{Host}.
Variable toLowerCase : string -> string.

Lemma POST_table fetch req now m :
  (POST toLowerCase fetch req now m).2
  = (RateLimit.checkRateLimit (clientIp req) now m).2.
Proof.
  unfold POST. destruct (RateLimit.checkRateLimit _ _ _) as [allowed m'].
  repeat case_match; reflexivity.
Qed.

Lemma POST_status fetch req now m :
  status (POST toLowerCase fetch req now m).1 = 429 <->
  (RateLimit.checkRateLimit (clientIp req) now m).1 = false.
Proof.
  unfold POST. destruct (RateLimit.checkRateLimit _ _ _) as [[|] m']; cbn.
  - split; [|done]. repeat case_match; cbn; done.
  - done.
Qed.

(** A request that gets past validation, taken apart. *)
Lemma POST_passed fetch req now m :
  status (POST toLowerCase fetch req now m).1 = 200 \/
  status (POST toLowerCase fetch req now m).1 = 500 ->
  (exists e, body req = Throw e /\
             (POST toLowerCase fetch req now m).1 = internalError e) \/
  exists b p first others,
    body req = Return b /\
    missing (apiKey b) = false /\
    messages b = Some (first :: others) /\
    missing (model b) = false /\
    provider_of (toLowerCase (default "openai" (provider b))) = Some p /\
    (POST toLowerCase fetch req now m).1
    = match ChatRoute.complete fetch p (first :: others)
              (default "" (model b)) (default "" (apiKey b))
              (Some (default default_temperature (temperature b)))
              (Some (default default_maxTokens (maxTokens b))) with
      | Return result => {| status := 200; json := ResultJson result |}
      | Throw e => internalError e
      end.
Proof.
  unfold POST. destruct (RateLimit.checkRateLimit _ _ _) as [[|] m']; cbn;
    [|intros [|]; done].
  destruct (body req) as [b|e]; [|intros _; left; by eexists].
  destruct (missing (apiKey b)) eqn:Hkey; [intros [|]; done|].
  destruct (messages b) as [[|first others]|] eqn:Hmsgs; try (intros [|]; done).
  destruct (missing (model b)) eqn:Hmodel; [intros [|]; done|].
  destruct (provider_of _) as [p|] eqn:Hp; [|intros [|]; done].
  intros _. right. exists b, p, first, others.
  repeat split; try done. by destruct (ChatRoute.complete _ _ _ _ _ _ _).
Qed.

Lemma POST_rejected fetch fetch' req now m :
  status (POST toLowerCase fetch req now m).1 <> 200 ->
  status (POST toLowerCase fetch req now m).1 <> 500 ->
  POST toLowerCase fetch' req now m = POST toLowerCase fetch req now m /\
  (status (POST toLowerCase fetch req now m).1 = 400 \/
   status (POST toLowerCase fetch req now m).1 = 429).
Proof.
  unfold POST. destruct (RateLimit.checkRateLimit _ _ _) as [[|] m']; cbn;
    [|by auto].
  destruct (body req) as [b|e]; [|done].
  destruct (missing (apiKey b)); [by auto|].
  destruct (messages b) as [[|first others]|]; try by auto.
  destruct (missing (model b)); [by auto|].
  destruct (provider_of _) as [p|]; [|by auto].
  destruct (ChatRoute.complete fetch _ _ _ _ _ _); done.
Qed.

End RoutePost.

(** X15.  [POST] counts every request against the caller's window before
    looking at it: whatever the request and whatever the answer, the table
    afterwards is the one [checkRateLimit] leaves, so malformed requests use
    up the allowance too; and the answer is 429 exactly when the limiter
    refuses. *)
Theorem chat_post_counts_every_request `{Host}
    (toLowerCase : string -> string)
    (fetch : Chat.FetchRequest -> outcome Chat.FetchResponse)
    (req : ChatHandlers.RouteRequest) (now : Z)
    (m : gmap string RateLimit.RateWindow) :
  (ChatHandlers.POST toLowerCase fetch req now m).2
  = (RateLimit.checkRateLimit (ChatHandlers.clientIp req) now m).2 /\
  (ChatHandlers.status (ChatHandlers.POST toLowerCase fetch req now m).1 = 429 <->
   (RateLimit.checkRateLimit (ChatHandlers.clientIp req) now m).1 = false).
Proof. split; [apply POST_table|apply POST_status]. Qed.

(** X16.  [POST] answers 200 only for a request with a key, a non-empty
    messages array, a model and a supported provider name, and only when the
    provider's adapter returned; the body of the answer is then the adapter's
    result itself, with no envelope around it. *)
Theorem chat_post_success_is_adapter_result `{Host}
    (toLowerCase : string -> string)
    (fetch : Chat.FetchRequest -> outcome Chat.FetchResponse)
    (req : ChatHandlers.RouteRequest) (now : Z)
    (m : gmap string RateLimit.RateWindow) :
  ChatHandlers.status (ChatHandlers.POST toLowerCase fetch req now m).1 = 200 ->
  exists b p first others result,
    ChatHandlers.body req = Return b /\
    ChatHandlers.missing (ChatHandlers.apiKey b) = false /\
    ChatHandlers.messages b = Some (first :: others) /\
    ChatHandlers.missing (ChatHandlers.model b) = false /\
    ChatHandlers.provider_of
      (toLowerCase (default "openai" (ChatHandlers.provider b))) = Some p /\
    ChatRoute.complete fetch p (first :: others)
      (default "" (ChatHandlers.model b)) (default "" (ChatHandlers.apiKey b))
      (Some (default Chat.default_temperature (ChatHandlers.temperature b)))
      (Some (default Chat.default_maxTokens (ChatHandlers.maxTokens b)))
    = Return result /\
    (ChatHandlers.POST toLowerCase fetch req now m).1
    = {| ChatHandlers.status := 200; ChatHandlers.json := ChatHandlers.ResultJson result |}.
Proof.
  intros H200.
  destruct (POST_passed toLowerCase fetch req now m (or_introl H200))
    as [(e & _ & Hresp)|(b & p & first & others & Hb & Hkey & Hmsgs & Hmodel & Hp & Hresp)].
  - rewrite Hresp in H200. done.
  - rewrite Hresp in H200 |- *.
    destruct (ChatRoute.complete _ _ _ _ _ _ _) as [result|e] eqn:Hcall; [|done].
    by exists b, p, first, others, result.
Qed.

Lemma chat_post_success_is_adapter_result_witness :
  exists result,
    (ChatHandlers.POST (H := Demo.host) UtilsMore.lower Demo.fetch
       {| ChatHandlers.x_forwarded_for := Some "203.0.113.7, 10.0.0.1";
          ChatHandlers.x_real_ip := None;
          ChatHandlers.body :=
            Return {| ChatHandlers.provider := Some "OpenAI";
                      ChatHandlers.model := Some "gpt-4";
                      ChatHandlers.messages := Some Demo.hello;
                      ChatHandlers.temperature := None;
                      ChatHandlers.maxTokens := None;
                      ChatHandlers.apiKey := Some "sk-test" |} |}
       0 (∅ : gmap string RateLimit.RateWindow)).1
    = {| ChatHandlers.status := 200; ChatHandlers.json := ChatHandlers.ResultJson result |}.
Proof.
  match goal with |- exists result, (?post).1 = _ =>
    assert (ChatHandlers.status post.1 = 200) as H200 by (vm_compute; reflexivity)
  end.
  destruct (chat_post_success_is_adapter_result _ _ _ _ _ H200)
    as (b & p & first & others & result & _ & _ & _ & _ & _ & _ & Hresp).
  by exists result.
Defined.

(** X17.  A chat request that [POST] answers with anything but 200 or 500 is
    answered 400 or 429, and the answer is the same whatever the providers
    would reply: a request refused by the limiter or by validation never
    reaches a provider. *)
Theorem chat_post_rejection_reaches_no_provider `{Host}
    (toLowerCase : string -> string)
    (fetch fetch' : Chat.FetchRequest -> outcome Chat.FetchResponse)
    (req : ChatHandlers.RouteRequest) (now : Z)
    (m : gmap string RateLimit.RateWindow) :
  ChatHandlers.status (ChatHandlers.POST toLowerCase fetch req now m).1 <> 200 ->
  ChatHandlers.status (ChatHandlers.POST toLowerCase fetch req now m).1 <> 500 ->
  ChatHandlers.POST toLowerCase fetch' req now m
  = ChatHandlers.POST toLowerCase fetch req now m /\
  (ChatHandlers.status (ChatHandlers.POST toLowerCase fetch req now m).1 = 400 \/
   ChatHandlers.status (ChatHandlers.POST toLowerCase fetch req now m).1 = 429).
Proof. apply POST_rejected. Qed.

Lemma chat_post_rejection_reaches_no_provider_witness :
  (ChatHandlers.POST (H := Demo.host) UtilsMore.lower (fun _ => Throw (Error "offline"))
     {| ChatHandlers.x_forwarded_for := None;
        ChatHandlers.x_real_ip := Some "203.0.113.7";
        ChatHandlers.body :=
          Return {| ChatHandlers.provider := Some "cohere";
                    ChatHandlers.model := Some "command";
                    ChatHandlers.messages := Some Demo.hello;
                    ChatHandlers.temperature := None;
                    ChatHandlers.maxTokens := None;
                    ChatHandlers.apiKey := Some "sk-test" |} |}
     0 (∅ : gmap string RateLimit.RateWindow)).1
  = {| ChatHandlers.status := 400;
       ChatHandlers.json := ChatHandlers.ErrorJson "Unsupported provider: cohere" |}.
Proof.
  match goal with |- (ChatHandlers.POST ?lc ?f' ?req ?now ?m).1 = _ =>
    assert (ChatHandlers.status (ChatHandlers.POST (H := Demo.host) lc Demo.fetch req now m).1 <> 200)
      as Hne200 by (vm_compute; discriminate);
    assert (ChatHandlers.status (ChatHandlers.POST (H := Demo.host) lc Demo.fetch req now m).1 <> 500)
      as Hne500 by (vm_compute; discriminate);
    rewrite (proj1 (chat_post_rejection_reaches_no_provider (H := Demo.host)
                      lc Demo.fetch f' req now m Hne200 Hne500))
  end.
  vm_compute. reflexivity.
Defined.

Section ProviderNames.
Import Chat ChatHandlers UtilsMore.


Lemma provider_of_name p : provider_of (provider_name p) = Some p.
Proof. by destruct p. Qed.

End ProviderNames.



Section PagesHandler.
Import Chat ChatHandlers.
Context `{Host}.

Lemma split_free separator s :
  free_of separator s = true -> split separator s = [s].
Proof.
  induction s as [|c s IH]; [done|]. cbn.
  destruct (Ascii.eqb c separator); [done|]. cbn. intros Hfree.
  by rewrite (IH Hfree).
Qed.

Lemma split_nonempty separator s : split separator s <> [].
Proof.
  destruct s as [|c s]; [done|]. cbn.
  destruct (Ascii.eqb c separator); [done|]. by destruct (split separator s).
Qed.

Lemma append_cons c a b : String c a +:+ b = String c (a +:+ b).
Proof. reflexivity. Qed.

Lemma append_empty_r a : a +:+ EmptyString = a.
Proof. induction a as [|c a IH]; [done|]. by rewrite append_cons, IH. Qed.

Lemma split_at separator a b :
  free_of separator a = true ->
  split separator (a +:+ String separator b) = a :: split separator b.
Proof.
  induction a as [|c a IH].
  - intros _. change (EmptyString +:+ String separator b) with (String separator b).
    cbn. by rewrite Ascii.eqb_refl.
  - rewrite append_cons. cbn.
    destruct (Ascii.eqb c separator); [done|]. cbn. intros Hfree.
    by rewrite (IH Hfree).
Qed.

Lemma provider_name_free p : free_of colon (provider_name p) = true.
Proof. by destruct p. Qed.

Lemma provider_name_present p : missing (Some (provider_name p)) = false.
Proof. by destruct p. Qed.

Lemma missing_Some s : s <> EmptyString -> missing (Some s) = false.
Proof. intros Hs. cbn. by apply String.eqb_neq. Qed.

(** The second segment of ["provider:name"], whatever follows a second
    colon. *)
Lemma split_model p name suffix :
  free_of colon name = true ->
  (suffix = EmptyString \/ exists r, suffix = String colon r) ->
  exists others,
    split colon (provider_name p +:+ ":" +:+ name +:+ suffix)
    = provider_name p :: name :: others.
Proof.
  intros Hname Hsuffix.
  change (provider_name p +:+ ":" +:+ name +:+ suffix)
    with (provider_name p +:+ String colon (name +:+ suffix)).
  rewrite split_at by apply provider_name_free.
  destruct Hsuffix as [->|[r ->]].
  - exists []. f_equal. rewrite append_empty_r. by apply split_free.
  - exists (split colon r). f_equal. by apply split_at.
Qed.

End PagesHandler.

(** X19.  In test mode (a truthy [context.test]) the pages chat handler
    answers without calling any provider: its answer is the same whatever
    the providers would reply, and a 200 says the key was validated although
    the key was only checked to be non-empty.  The answer is a 500 exactly
    when the request is a POST within the rate limit with a messages array
    and a truthy [model] that is not a string, for which [model.split]
    throws; with a string [model] it is never a 500. *)
Theorem pages_test_mode_calls_no_provider `{Host}
    (fetch fetch' : Chat.FetchRequest -> outcome Chat.FetchResponse)
    (req : ChatHandlers.PagesRequest) (now later : Z)
    (m : gmap string RateLimit.RateWindow) (ctx : ChatHandlers.Context) :
  ChatHandlers.context (ChatHandlers.pages_body req) = Some ctx ->
  ChatHandlers.test ctx = true ->
  ChatHandlers.handler fetch' req now later m
  = ChatHandlers.handler fetch req now later m /\
  (ChatHandlers.pages_status (ChatHandlers.handler fetch req now later m).1 = 500 <->
   ChatHandlers.method req = "POST" /\
   (RateLimit.checkRateLimit
      (RateLimit.clientIpOf (ChatHandlers.forwarded_for req)
                            (ChatHandlers.remoteAddress req)) now m).1 = true /\
   ChatHandlers.pages_messages (ChatHandlers.pages_body req) <> None /\
   JS.truthy (ChatHandlers.pages_model (ChatHandlers.pages_body req)) = true /\
   forall model, ChatHandlers.pages_model (ChatHandlers.pages_body req) <> JStr model) /\
  (ChatHandlers.pages_status (ChatHandlers.handler fetch req now later m).1 = 200 ->
   ChatHandlers.pages_json (ChatHandlers.handler fetch req now later m).1
   = ChatHandlers.PagesTest "API key validation successful").
Proof.
  intros Hctx Htest. unfold ChatHandlers.handler.
  destruct (String.eqb_spec (ChatHandlers.method req) "POST") as [Hpost|Hpost];
    cbn [negb]; [|by repeat split; try done; intros (? & _)].
  destruct (RateLimit.checkRateLimit _ _ _) as [[|] m']; cbn [negb fst];
    [|by repeat split; try done; intros (_ & ? & _)].
  destruct (ChatHandlers.pages_messages _) as [messages|];
    [|by repeat split; try done; intros (_ & _ & ? & _)].
  destruct (JS.truthy (ChatHandlers.pages_model _)) eqn:Htruthy; cbn [negb];
    [|by repeat split; try done; intros (_ & _ & _ & ? & _)].
  destruct (ChatHandlers.pages_model _) as [| |b|x|model|items|fields] eqn:Hmodel;
    try (by repeat split).
  assert (forall r : ChatHandlers.PagesResponse * gmap string RateLimit.RateWindow,
             ChatHandlers.pages_status r.1 <> 500 ->
             ChatHandlers.pages_status r.1 = 500 <->
             ChatHandlers.method req = "POST" /\ true = true /\
             Some messages <> None /\ true = true /\
             (forall model0, JStr model <> JStr model0)) as Hno.
  { intros r Hr. split; [done|]. intros (_ & _ & _ & _ & Hstr). by destruct (Hstr model). }
  destruct (_ || _); [split; [done|]; split; [by apply Hno|done]|].
  destruct (ChatHandlers.provider_of _) as [p|];
    [|split; [done|]; split; [by apply Hno|done]].
  destruct (ChatHandlers.missing (ChatHandlers.or_string _ _));
    [split; [done|]; split; [by apply Hno|done]|].
  rewrite Hctx. cbn. rewrite Htest.
  split; [done|]. split; [by apply Hno|done].
Qed.

Lemma pages_test_mode_calls_no_provider_witness :
  (ChatHandlers.handler (H := Demo.host) (fun _ => Throw (Error "offline"))
     {| ChatHandlers.method := "POST";
        ChatHandlers.forwarded_for := None;
        ChatHandlers.remoteAddress := Some "203.0.113.7";
        ChatHandlers.authorization := Some "Bearer not-a-real-key";
        ChatHandlers.pages_body :=
          {| ChatHandlers.pages_model := JStr "openai:gpt-4";
             ChatHandlers.pages_messages := Some [];
             ChatHandlers.context :=
               Some {| ChatHandlers.context_apiKey := None;
                       ChatHandlers.test := true;
                       ChatHandlers.context_temperature := None;
                       ChatHandlers.context_maxTokens := None |} |} |}
     0 1 (∅ : gmap string RateLimit.RateWindow)).1
  = {| ChatHandlers.pages_status := 200;
       ChatHandlers.pages_json :=
         ChatHandlers.PagesTest "API key validation successful" |}.
Proof.
  match goal with |- (ChatHandlers.handler ?f' ?req ?now ?later ?m).1 = _ =>
    rewrite (proj1 (pages_test_mode_calls_no_provider (H := Demo.host)
                      Demo.fetch f' req now later m _ eq_refl eq_refl))
  end.
  vm_compute. reflexivity.
Defined.

(** A [model] that is a number passes the [!model] check and makes
    [model.split] throw: the test-mode request is answered 500. *)
Example pages_test_mode_number_model :
  (ChatHandlers.handler (H := Demo.host) Demo.fetch
     {| ChatHandlers.method := "POST";
        ChatHandlers.forwarded_for := None;
        ChatHandlers.remoteAddress := Some "203.0.113.7";
        ChatHandlers.authorization := Some "Bearer sk-test";
        ChatHandlers.pages_body :=
          {| ChatHandlers.pages_model := JNum 5;
             ChatHandlers.pages_messages := Some [];
             ChatHandlers.context :=
               Some {| ChatHandlers.context_apiKey := None;
                       ChatHandlers.test := true;
                       ChatHandlers.context_temperature := None;
                       ChatHandlers.context_maxTokens := None |} |} |}
     0 1 (∅ : gmap string RateLimit.RateWindow)).1
  = {| ChatHandlers.pages_status := 500;
       ChatHandlers.pages_json :=
         ChatHandlers.PagesError "model.split is not a function" (Some 1) |}.
Proof. vm_compute. reflexivity. Qed.

(** X20.  The pages chat handler reads [model] as ["provider:name"]: for a
    string [model] naming a supported provider and a non-empty name without
    a colon, with anything or nothing after a second colon, a POST within
    the rate limit, with a messages array, a key in the Authorization header
    (the header wins over [context.apiKey]) and test mode off ([context.test]
    absent or falsy), goes to that provider's adapter with that name and
    that key.  What the adapter returns is sent as 200 in a success envelope
    stamped with the time, what it throws as 500 with the message.  With
    test mode on no adapter is called (X19). *)
Theorem pages_model_names_provider_and_model `{Host}
    (fetch : Chat.FetchRequest -> outcome Chat.FetchResponse)
    (req : ChatHandlers.PagesRequest) (now later : Z)
    (m : gmap string RateLimit.RateWindow)
    (p : Chat.LLMProvider) (name suffix key : string)
    (messages : list Chat.LLMMessage.t) :
  ChatHandlers.method req = "POST" ->
  (RateLimit.checkRateLimit
     (RateLimit.clientIpOf (ChatHandlers.forwarded_for req)
                           (ChatHandlers.remoteAddress req)) now m).1 = true ->
  ChatHandlers.pages_messages (ChatHandlers.pages_body req) = Some messages ->
  ChatHandlers.pages_model (ChatHandlers.pages_body req)
  = JStr (ChatHandlers.provider_name p +:+ ":" +:+ name +:+ suffix) ->
  ChatHandlers.free_of ChatHandlers.colon name = true ->
  name <> EmptyString ->
  (suffix = EmptyString \/ exists r, suffix = String ChatHandlers.colon r) ->
  ChatHandlers.authorization req = Some ("Bearer " +:+ key) ->
  key <> EmptyString ->
  default false (ChatHandlers.test <$> ChatHandlers.context (ChatHandlers.pages_body req))
  = false ->
  (ChatHandlers.handler fetch req now later m).1
  = match ChatPages.complete fetch p messages name key
            (ChatHandlers.context (ChatHandlers.pages_body req)
               ≫= ChatHandlers.context_temperature)
            (ChatHandlers.context (ChatHandlers.pages_body req)
               ≫= ChatHandlers.context_maxTokens) with
    | Return response =>
        {| ChatHandlers.pages_status := 200;
           ChatHandlers.pages_json := ChatHandlers.PagesData response later |}
    | Throw e =>
        {| ChatHandlers.pages_status := 500;
           ChatHandlers.pages_json :=
             ChatHandlers.PagesError (message_of e) (Some later) |}
    end.
Proof.
  intros Hmethod Hrate Hmessages Hmodel Hfree Hname Hsuffix Hauth Hkey Htest.
  unfold ChatHandlers.handler. rewrite Hmethod, Htest.
  change (negb (String.eqb "POST" "POST")) with false. cbv iota.
  destruct (RateLimit.checkRateLimit _ _ _) as [allowed m'].
  cbn in Hrate. subst allowed. cbn [negb].
  rewrite Hmessages, Hmodel.
  destruct (split_model p name suffix Hfree Hsuffix) as [others Hsplit].
  assert (JS.truthy
            (JStr (ChatHandlers.provider_name p +:+ ":" +:+ name +:+ suffix)) = true)
    as Hpresent by by destruct p.
  rewrite Hpresent. cbn [negb]. unfold default, from_option, Datatypes.id.
  cbv zeta. rewrite Hsplit.
  cbn [lookup list_lookup].
  rewrite provider_name_present, (missing_Some name Hname). cbn [orb].
  rewrite provider_of_name, Hauth.
  change (SamSearch.remove_first "Bearer " <$> Some ("Bearer " +:+ key))
    with (Some key).
  unfold ChatHandlers.or_string. rewrite (missing_Some key Hkey). cbv iota.
  rewrite (missing_Some key Hkey).
  by destruct (ChatPages.complete _ _ _ _ _ _ _).
Qed.

Lemma pages_model_names_provider_and_model_witness :
  exists response,
    (ChatHandlers.handler (H := Demo.host) Demo.fetch
       {| ChatHandlers.method := "POST";
          ChatHandlers.forwarded_for := None;
          ChatHandlers.remoteAddress := Some "203.0.113.7";
          ChatHandlers.authorization := Some "Bearer sk-header";
          ChatHandlers.pages_body :=
            {| ChatHandlers.pages_model := JStr "anthropic:claude-3-haiku:beta";
               ChatHandlers.pages_messages := Some Demo.hello;
               ChatHandlers.context :=
                 Some {| ChatHandlers.context_apiKey := Some "sk-context";
                         ChatHandlers.test := false;
                         ChatHandlers.context_temperature := None;
                         ChatHandlers.context_maxTokens := None |} |} |}
       0 1 (∅ : gmap string RateLimit.RateWindow)).1
    = {| ChatHandlers.pages_status := 200;
         ChatHandlers.pages_json := ChatHandlers.PagesData response 1 |} /\
    ChatPages.complete (H := Demo.host) Demo.fetch Chat.anthropic Demo.hello
      "claude-3-haiku" "sk-header" None None = Return response.
Proof.
  match goal with |- exists response, (ChatHandlers.handler ?f ?req ?now ?later ?m).1 = _ /\ _ =>
    rewrite (pages_model_names_provider_and_model (H := Demo.host) f req now later m
               Chat.anthropic "claude-3-haiku" ":beta" "sk-header" Demo.hello
               eq_refl ltac:(vm_compute; reflexivity) eq_refl eq_refl eq_refl
               ltac:(discriminate) (or_intror (ex_intro _ "beta" eq_refl))
               eq_refl ltac:(discriminate) eq_refl)
  end.
  cbn [ChatHandlers.context ChatHandlers.pages_body mbind option_bind
       ChatHandlers.context_temperature ChatHandlers.context_maxTokens].
  destruct (ChatPages.complete _ _ _ _ _ _ _) as [response|e] eqn:Hcall;
    [by exists response|].
  vm_compute in Hcall. discriminate Hcall.
Defined.

(** ** More of lib/utils *)

Section TruncateFacts.
Import UtilsMore.

Lemma length_append a b :
  String.length (a +:+ b) = (String.length a + String.length b)%nat.
Proof. induction a as [|c a IH]; [done|]. cbn. by rewrite <- IH. Qed.

Lemma length_substring_0 n s :
  (n <= String.length s)%nat -> String.length (String.substring 0 n s) = n.
Proof.
  revert s. induction n as [|n IH]; intros [|c s]; cbn; try done; try lia.
  intros Hn. rewrite IH; lia.
Qed.

Lemma substring_0_prefix n s :
  exists dropped, s = String.substring 0 n s +:+ dropped.
Proof.
  revert s. induction n as [|n IH]; intros [|c s]; cbn.
  - by exists EmptyString.
  - by exists (String c s).
  - by exists EmptyString.
  - destruct (IH s) as [dropped Hs]. exists dropped.
    change (String c (String.substring 0 n s) +:+ dropped)
      with (String c (String.substring 0 n s +:+ dropped)).
    by rewrite <- Hs.
Qed.

End TruncateFacts.

(** X21.  [truncate] never returns more than [length] characters when the
    suffix fits in [length]: a longer text is cut to exactly [length]
    characters, a beginning of the text followed by the whole suffix.  When
    the suffix does not fit, a longer text is replaced by the suffix alone,
    which is longer than [length]. *)
Theorem truncate_respects_length (text : string) (length : Z) (suffix : string) :
  (Z.of_nat (String.length suffix) <= length ->
   Z.of_nat (String.length (UtilsMore.truncate text length suffix)) <= length /\
   (length < Z.of_nat (String.length text) ->
    Z.of_nat (String.length (UtilsMore.truncate text length suffix)) = length /\
    exists kept dropped,
      text = kept +:+ dropped /\
      UtilsMore.truncate text length suffix = kept +:+ suffix)) /\
  (length < Z.of_nat (String.length suffix) ->
   length < Z.of_nat (String.length text) ->
   UtilsMore.truncate text length suffix = suffix).
Proof.
  unfold UtilsMore.truncate. split.
  - intros Hfits. destruct (Z.leb_spec (Z.of_nat (String.length text)) length).
    + split; [done|lia].
    + assert (String.length
                (String.substring 0
                   (Z.to_nat (length - Z.of_nat (String.length suffix))) text
                 +:+ suffix)
              = Z.to_nat length) as Hlen.
      { rewrite length_append, length_substring_0; lia. }
      rewrite Hlen. split; [lia|]. intros _. split; [lia|].
      destruct (substring_0_prefix
                  (Z.to_nat (length - Z.of_nat (String.length suffix))) text)
        as [dropped Htext].
      by exists (String.substring 0
                  (Z.to_nat (length - Z.of_nat (String.length suffix))) text),
               dropped.
  - intros Hshort Hlong.
    destruct (Z.leb_spec (Z.of_nat (String.length text)) length); [lia|].
    replace (Z.to_nat (length - Z.of_nat (String.length suffix))) with 0%nat by lia.
    by destruct text.
Qed.

Lemma truncate_respects_length_witness :
  Z.of_nat (String.length (UtilsMore.truncate "Cloud hosting services" 10 "...")) = 10 /\
  UtilsMore.truncate "Cloud hosting services" 2 "..." = "...".
Proof.
  split.
  - exact (proj1 (proj2 (proj1 (truncate_respects_length "Cloud hosting services" 10 "...")
                           ltac:(cbn; lia)) ltac:(cbn; lia))).
  - exact (proj2 (truncate_respects_length "Cloud hosting services" 2 "...")
             ltac:(cbn; lia) ltac:(cbn; lia)).
Defined.

Section RetryFacts.
Import UtilsMore.
Context {T : Type}.

Lemma retry_from_success (fn : nat -> outcome T) baseDelay v k :
  forall i remaining,
    (k <= remaining)%nat ->
    (forall j, (j < k)%nat -> exists e, fn (i + j)%nat = Throw e) ->
    fn (i + k)%nat = Return v ->
    retry_from fn baseDelay i remaining
    = (Return v, map (fun j => baseDelay * 2 ^ Z.of_nat j) (seq i k)).
Proof.
  induction k as [|k IH]; intros i remaining Hk Hfail Hv.
  - rewrite Nat.add_0_r in Hv. destruct remaining; cbn; by rewrite Hv.
  - destruct remaining as [|remaining]; [lia|].
    destruct (Hfail 0%nat ltac:(lia)) as [e He]. rewrite Nat.add_0_r in He.
    cbn. rewrite He.
    rewrite (IH (S i) remaining); [done|lia| |].
    + intros j Hj. destruct (Hfail (S j) ltac:(lia)) as [e' He'].
      exists e'. by rewrite <- He', Nat.add_succ_r.
    + by rewrite <- Hv, Nat.add_succ_r.
Qed.

Lemma retry_from_failure (fn : nat -> outcome T) baseDelay :
  forall remaining i e,
    (forall j, (j < remaining)%nat -> exists e', fn (i + j)%nat = Throw e') ->
    fn (i + remaining)%nat = Throw e ->
    retry_from fn baseDelay i remaining
    = (Throw e, map (fun j => baseDelay * 2 ^ Z.of_nat j) (seq i remaining)).
Proof.
  induction remaining as [|remaining IH]; intros i e Hfail He.
  - rewrite Nat.add_0_r in He. cbn. by rewrite He.
  - destruct (Hfail 0%nat ltac:(lia)) as [e0 He0]. rewrite Nat.add_0_r in He0.
    cbn. rewrite He0.
    rewrite (IH (S i) e); [done| |].
    + intros j Hj. destruct (Hfail (S j) ltac:(lia)) as [e' He'].
      exists e'. by rewrite <- He', Nat.add_succ_r.
    + by rewrite <- He, Nat.add_succ_r.
Qed.

Lemma retry_from_ext (fn fn' : nat -> outcome T) baseDelay :
  forall remaining i,
    (forall j, (j <= remaining)%nat -> fn' (i + j)%nat = fn (i + j)%nat) ->
    retry_from fn' baseDelay i remaining = retry_from fn baseDelay i remaining.
Proof.
  induction remaining as [|remaining IH]; intros i Hsame.
  - cbn. specialize (Hsame 0%nat ltac:(lia)). rewrite Nat.add_0_r in Hsame.
    by rewrite Hsame.
  - cbn. pose proof (Hsame 0%nat ltac:(lia)) as H0. rewrite Nat.add_0_r in H0.
    rewrite H0. rewrite (IH (S i)); [done|].
    intros j Hj. specialize (Hsame (S j) ltac:(lia)).
    by rewrite Nat.add_succ_r in Hsame.
Qed.

End RetryFacts.

Section BackoffFacts.
Import UtilsMore.

Lemma backoff_snoc baseDelay k :
  backoff baseDelay (S k) = backoff baseDelay k ++ [baseDelay * 2 ^ Z.of_nat k].
Proof. unfold backoff. by rewrite seq_S, map_app. Qed.

Lemma backoff_total baseDelay k :
  foldr Z.add 0 (backoff baseDelay k) = baseDelay * (2 ^ Z.of_nat k - 1).
Proof.
  induction k as [|k IH]; [cbn; lia|].
  rewrite backoff_snoc, foldr_app. cbn [foldr].
  assert (forall l a, foldr Z.add a l = foldr Z.add 0 l + a) as Hshift.
  { induction l as [|x l IHl]; intros a; cbn; [lia|]. rewrite IHl. lia. }
  rewrite Hshift, IH. rewrite Nat2Z.inj_succ, Z.pow_succ_r by lia. lia.
Qed.

End BackoffFacts.

(** X22.  When the first [k] calls of [fn] throw and the next one returns,
    with [k] at most [maxRetries], [retryWithBackoff] returns that value
    after sleeping [baseDelay], [2 * baseDelay], ... before the retries,
    [baseDelay * (2^k - 1)] in all; it makes no further call, so what [fn]
    would do afterwards does not matter. *)
Theorem retry_returns_first_success {T : Type}
    (fn fn' : nat -> outcome T) (maxRetries : nat) (baseDelay : Z)
    (k : nat) (v : T) :
  (k <= maxRetries)%nat ->
  (forall j, (j < k)%nat -> exists e, fn j = Throw e) ->
  fn k = Return v ->
  UtilsMore.retryWithBackoff fn maxRetries baseDelay
  = (Return v, UtilsMore.backoff baseDelay k) /\
  foldr Z.add 0 (UtilsMore.backoff baseDelay k) = baseDelay * (2 ^ Z.of_nat k - 1) /\
  ((forall j, (j <= k)%nat -> fn' j = fn j) ->
   UtilsMore.retryWithBackoff fn' maxRetries baseDelay
   = UtilsMore.retryWithBackoff fn maxRetries baseDelay).
Proof.
  intros Hk Hfail Hv. unfold UtilsMore.retryWithBackoff, UtilsMore.backoff.
  split; [|split].
  - by apply retry_from_success.
  - apply backoff_total.
  - intros Hsame.
    rewrite (retry_from_success fn baseDelay v k 0 maxRetries Hk Hfail Hv).
    apply retry_from_success; [done| |by rewrite Hsame].
    intros j Hj. destruct (Hfail j Hj) as [e He]. exists e. cbn.
    rewrite Hsame by lia. done.
Qed.

Lemma retry_returns_first_success_witness :
  UtilsMore.retryWithBackoff
    (fun i => if (i <? 2)%nat then Throw (Error "busy") else Return i) 3 1000
  = (Return 2%nat, [1000; 2000]).
Proof.
  refine (proj1 (retry_returns_first_success
                   (fun i => if (i <? 2)%nat then Throw (Error "busy") else Return i)
                   (fun i => Return i) 3 1000 2 2%nat _ _ _)).
  - lia.
  - intros j Hj. exists (Error "busy").
    destruct j as [|[|j]]; [reflexivity|reflexivity|lia].
  - reflexivity.
Defined.

(** X23.  When all [maxRetries + 1] calls of [fn] throw, [retryWithBackoff]
    throws the error of the last call, after exactly [maxRetries] sleeps and
    none after the last failure; it never makes a call beyond those, so with
    [maxRetries = 0] the function is called once. *)
Theorem retry_gives_up_with_last_error {T : Type}
    (fn fn' : nat -> outcome T) (maxRetries : nat) (baseDelay : Z) (e : exn) :
  (forall j, (j < maxRetries)%nat -> exists e', fn j = Throw e') ->
  fn maxRetries = Throw e ->
  UtilsMore.retryWithBackoff fn maxRetries baseDelay
  = (Throw e, UtilsMore.backoff baseDelay maxRetries) /\
  length (UtilsMore.backoff baseDelay maxRetries) = maxRetries /\
  ((forall j, (j <= maxRetries)%nat -> fn' j = fn j) ->
   UtilsMore.retryWithBackoff fn' maxRetries baseDelay
   = UtilsMore.retryWithBackoff fn maxRetries baseDelay).
Proof.
  intros Hfail He. unfold UtilsMore.retryWithBackoff, UtilsMore.backoff.
  split; [|split].
  - by apply retry_from_failure.
  - by rewrite length_map, length_seq.
  - intros Hsame. by apply retry_from_ext.
Qed.

Lemma retry_gives_up_with_last_error_witness :
  UtilsMore.retryWithBackoff (T := nat)
    (fun i => Throw (Error (if (i <? 3)%nat then "busy" else "gone"))) 3 1000
  = (Throw (Error "gone"), [1000; 2000; 4000]).
Proof.
  refine (proj1 (retry_gives_up_with_last_error (T := nat)
                   (fun i => Throw (Error (if (i <? 3)%nat then "busy" else "gone")))
                   (fun i => Return i) 3 1000 (Error "gone") _ _)).
  - intros j Hj. by eexists.
  - reflexivity.
Defined.

Section CaseFacts.
Import UtilsMore.

Lemma upper_of_lower c :
  is_lower c = true ->
  is_upper (ascii_upper c) = true /\ ascii_lower (ascii_upper c) = c.
Proof.
  destruct c as [[|] [|] [|] [|] [|] [|] [|] [|]]; vm_compute; by intros.
Qed.

Lemma lower_not_upper c : is_upper c = false -> ascii_lower c = c.
Proof. unfold ascii_lower. by intros ->. Qed.

Lemma underscore_plain :
  is_upper underscore = false /\ ascii_lower underscore = underscore.
Proof. by vm_compute. Qed.

Lemma lower_is_not_upper c : is_lower c = true -> is_upper c = false.
Proof.
  destruct c as [[|] [|] [|] [|] [|] [|] [|] [|]]; vm_compute; by intros.
Qed.

(** Induction two characters at a time, as [toCamelCase] recurses. *)
Lemma string_pair_ind (P : string -> Prop) :
  P EmptyString ->
  (forall c, P (String c EmptyString)) ->
  (forall c d s, P s -> P (String d s) -> P (String c (String d s))) ->
  forall s, P s.
Proof.
  intros Hnil Hone Hstep s.
  assert (P s /\ forall c, P (String c s)) as [Hs _]; [|exact Hs].
  induction s as [|d s [IHs IHds]]; [by split|].
  split; [apply IHds|]. intros c. apply Hstep; [exact IHs|apply IHds].
Qed.

Lemma plain_cons c s :
  plain (String c s) = true -> is_upper c = false /\ plain s = true.
Proof.
  cbn [plain]. intros Hplain.
  apply andb_prop in Hplain as [Hc Hs]. apply andb_prop in Hc as [_ Hc].
  split; [by destruct (is_upper c)|done].
Qed.

Lemma toCamelCase_pair c d s :
  toCamelCase (String c (String d s))
  = if Ascii.eqb c underscore then
      if is_lower d then String (ascii_upper d) (toCamelCase s)
      else String c (toCamelCase (String d s))
    else String c (toCamelCase (String d s)).
Proof. reflexivity. Qed.

Lemma snake_of_camel s : plain s = true -> toSnakeCase (toCamelCase s) = s.
Proof.
  unfold toSnakeCase.
  induction s as [|c|c d s IHs IHds] using string_pair_ind; [done| |].
  - intros Hplain. destruct (plain_cons _ _ Hplain) as [Hc _].
    cbn [toCamelCase].
    destruct (Ascii.eqb c underscore); cbn [toCamelCase underscored];
      rewrite Hc; cbn [lower]; by rewrite lower_not_upper.
  - intros Hplain. destruct (plain_cons _ _ Hplain) as [Hc Hds].
    destruct (plain_cons _ _ Hds) as [_ Hs].
    rewrite toCamelCase_pair.
    destruct (Ascii.eqb c underscore) eqn:Hunder.
    + apply Ascii.eqb_eq in Hunder. subst c.
      destruct (is_lower d) eqn:Hd.
      * destruct (upper_of_lower d Hd) as [Hup Hback].
        cbn [underscored]. rewrite Hup. cbn [lower].
        rewrite Hback, (proj2 underscore_plain). by rewrite (IHs Hs).
      * cbn [underscored]. rewrite (proj1 underscore_plain). cbn [lower].
        rewrite (proj2 underscore_plain). by rewrite (IHds Hds).
    + cbn [underscored]. rewrite Hc. cbn [lower].
      rewrite (lower_not_upper c Hc). by rewrite (IHds Hds).
Qed.

End CaseFacts.

(** X24.  On ASCII text without capital letters, [toSnakeCase] undoes
    [toCamelCase]: converting a snake_case name to camelCase and back gives
    the name it started from. *)
Theorem snake_case_round_trip (name : string) :
  UtilsMore.plain name = true ->
  UtilsMore.toSnakeCase (UtilsMore.toCamelCase name) = name.
Proof. apply snake_of_camel. Qed.

Lemma snake_case_round_trip_witness :
  UtilsMore.toSnakeCase (UtilsMore.toCamelCase "response_dead_line") = "response_dead_line".
Proof. exact (snake_case_round_trip "response_dead_line" eq_refl). Defined.

(** The other way round fails where an underscore already stands before a
    small letter. *)
Example camel_case_round_trip_fails :
  UtilsMore.toCamelCase "response_dead_line" = "responseDeadLine" /\
  UtilsMore.toCamelCase (UtilsMore.toSnakeCase "naics_code") = "naicsCode".
Proof. split; vm_compute; reflexivity. Qed.

(** ** The app-router variant of the semantic search *)

Section AppSearchFacts.
Import SamSearch SamSearchMore SamSearchApp.

Lemma array_map_inv {A B} (callback : A -> outcome B) (l : list A) (bs : list B) :
  array_map callback l = Return bs ->
  Forall2 (fun a b => callback a = Return b) l bs.
Proof.
  revert bs. induction l as [|a l IH]; intros bs; cbn.
  - intros [= <-]. constructor.
  - unfold mbind, outcome_bind, obind, mret, outcome_ret.
    destruct (callback a) as [b|e] eqn:Hb; [|done].
    destruct (array_map callback l) as [bs'|e]; [|done].
    intros [= <-]. constructor; [done|by apply IH].
Qed.

Lemma app_score_notice cache qe o scored :
  scoreOpportunity cache qe o = Return scored ->
  notice scored = notice o /\
  (cache !! textToEmbed o = None -> positive scored = false).
Proof.
  unfold scoreOpportunity. destruct (cache !! textToEmbed o) as [embedding|].
  - unfold mbind, outcome_bind, obind, mret, outcome_ret.
    destruct (Utils.cosineSimilarity qe embedding) as [score|e]; [|done].
    intros [= <-]. by split.
  - intros [= <-]. by split.
Qed.

Lemma byScore_antisym (a b : SAMOpportunity) :
  (0 <? byScore a b)%float = true -> in_order byScore b a.
Proof. apply float_sub_positive_antisym. Qed.

End AppSearchFacts.

(** X25.  The app-router variant of [performSemanticSearch] does drop the
    opportunities without a positive score: every opportunity it returns has
    a relevance score above 0, they are in the comparator's order, and each
    is one of those given with only the score changed.  An opportunity gets
    a score only if its title and description, joined by a space, are
    themselves a key of the embedding cache; when none is, the result is
    empty. *)
Theorem app_semantic_search_keeps_positive_scores
    (env : SamSearch.Env) (opportunities result : list SamSearch.SAMOpportunity)
    (query provider apiKey : string) (cache cache' : gmap string (list float)) :
  SamSearchApp.performSemanticSearch env opportunities query provider apiKey cache
  = (Return result, cache') ->
  Forall (fun o => SamSearchApp.positive o = true) result /\
  Sorted (SamSearch.in_order SamSearchApp.byScore) result /\
  SamSearchMore.notice <$> result ⊆+ SamSearchMore.notice <$> opportunities /\
  (Forall (fun o => cache' !! SamSearchApp.textToEmbed o = None) opportunities ->
   result = []).
Proof.
  unfold SamSearchApp.performSemanticSearch.
  destruct (SamSearch.generateEmbeddings _ _ _ _ _) as [[qe|e] cache1];
    cbv beta iota; [|by intros [=]].
  unfold mbind, outcome_bind, obind, mret, outcome_ret.
  destruct (SamSearchApp.array_map _ _) as [scored|e] eqn:Hmap; [|by intros [=]].
  intros [= <- <-]. apply array_map_inv in Hmap.
  assert (SamSearchMore.notice <$> scored = SamSearchMore.notice <$> opportunities)
    as Hnotices.
  { clear -Hmap. induction Hmap as [|o s os ss Hs _ IH]; [done|].
    rewrite !fmap_cons. by rewrite (proj1 (app_score_notice _ _ _ _ Hs)), IH. }
  pose proof (array_sort_perm SamSearchApp.byScore
                (List.filter SamSearchApp.positive scored)) as Hperm.
  split; [|split; [|split]].
  - rewrite Hperm. apply List.Forall_forall. intros o Ho.
    by apply List.filter_In in Ho as [_ Ho].
  - apply array_sort_sorted. apply byScore_antisym.
  - rewrite Hperm, <- Hnotices. apply fmap_submseteq.
    apply sublist_submseteq. clear.
    induction scored as [|s ss IH]; cbn [List.filter]; [constructor|].
    destruct (SamSearchApp.positive s);
      [by apply sublist_skip|by apply sublist_cons].
  - intros Hnone.
    assert (List.filter SamSearchApp.positive scored = []) as ->; [|done].
    clear Hperm Hnotices.
    induction Hmap as [|o s os ss Hs _ IH]; [done|].
    inversion Hnone as [|? ? Ho Hos]; subst. cbn [List.filter].
    rewrite (proj2 (app_score_notice _ _ _ _ Hs) Ho). by apply IH.
Qed.

Lemma app_semantic_search_keeps_positive_scores_witness :
  SamSearchApp.performSemanticSearch Demo.env Demo.upstream "cloud" "openai" "sk-test" ∅
  = (Return [], {[ "openai:cloud" := [1; 0]%float ]}).
Proof.
  assert (exists result,
             SamSearchApp.performSemanticSearch Demo.env Demo.upstream
               "cloud" "openai" "sk-test" ∅
             = (Return result, {[ "openai:cloud" := [1; 0]%float ]}))
    as [result Hrun] by (eexists; vm_compute; reflexivity).
  rewrite Hrun.
  destruct (app_semantic_search_keeps_positive_scores _ _ _ _ _ _ _ _ Hrun)
    as (_ & _ & _ & Hempty).
  rewrite Hempty; [reflexivity|].
  repeat constructor.
Defined.

(** ** The client-side store *)

Section FavoritesFacts.
Import Store.

Lemma includes_spec id favorites : includes id favorites = true <-> id ∈ favorites.
Proof.
  unfold includes. rewrite existsb_exists. split.
  - intros (x & Hx & Heq). apply String.eqb_eq in Heq. subst x.
    by apply list_elem_of_In.
  - intros Hin. exists id. split; [by apply list_elem_of_In|apply String.eqb_refl].
Qed.

Lemma elem_of_removeFromFavorites x id favorites :
  x ∈ removeFromFavorites id favorites <-> x ∈ favorites /\ x <> id.
Proof.
  unfold removeFromFavorites. rewrite !list_elem_of_In, List.filter_In.
  by rewrite negb_true_iff, String.eqb_neq.
Qed.

Lemma removeFromFavorites_absent id favorites :
  id ∉ favorites -> removeFromFavorites id favorites = favorites.
Proof.
  unfold removeFromFavorites. induction favorites as [|x l IH]; [done|].
  intros Hnot. apply not_elem_of_cons in Hnot as [Hne Hl]. cbn.
  assert (String.eqb x id = false) as -> by (apply String.eqb_neq; congruence).
  cbn. by rewrite IH.
Qed.

Lemma removeFromFavorites_app id l1 l2 :
  removeFromFavorites id (l1 ++ l2)
  = removeFromFavorites id l1 ++ removeFromFavorites id l2.
Proof. unfold removeFromFavorites. apply List.filter_app. Qed.

Lemma removeFromFavorites_NoDup id favorites :
  NoDup favorites -> NoDup (removeFromFavorites id favorites).
Proof.
  intros Hnd. eapply sublist_NoDup; [exact Hnd|].
  unfold removeFromFavorites. clear.
  induction favorites as [|x l IH]; cbn [List.filter]; [constructor|].
  destruct (negb _); [by apply sublist_skip|by apply sublist_cons].
Qed.

End FavoritesFacts.

(** X26.  [toggleFavorite] flips whether the opportunity is a favourite and
    leaves every other opportunity's membership alone; it never introduces a
    duplicate, and toggling twice an opportunity that was not a favourite
    gives back the list it started from. *)
Theorem toggle_favorite_flips_membership (id : string) (favorites : list string) :
  (id ∈ Store.toggleFavorite id favorites <-> id ∉ favorites) /\
  (forall other, other <> id ->
     (other ∈ Store.toggleFavorite id favorites <-> other ∈ favorites)) /\
  (NoDup favorites -> NoDup (Store.toggleFavorite id favorites)) /\
  (id ∉ favorites ->
   Store.toggleFavorite id (Store.toggleFavorite id favorites) = favorites).
Proof.
  unfold Store.toggleFavorite.
  destruct (Store.includes id favorites) eqn:Hin.
  - apply includes_spec in Hin. split; [|split; [|split]].
    + rewrite elem_of_removeFromFavorites. tauto.
    + intros other Hne. rewrite elem_of_removeFromFavorites. tauto.
    + apply removeFromFavorites_NoDup.
    + done.
  - assert (id ∉ favorites) as Hnot.
    { intros Hid. apply includes_spec in Hid. congruence. }
    unfold Store.addToFavorites. split; [|split; [|split]].
    + rewrite elem_of_app, list_elem_of_singleton. tauto.
    + intros other Hne. rewrite elem_of_app, list_elem_of_singleton. tauto.
    + intros Hnd. apply NoDup_app. split; [done|]. split.
      * intros x Hx Hx'. apply list_elem_of_singleton in Hx'. by subst.
      * apply NoDup_singleton.
    + intros _.
      assert (Store.includes id (favorites ++ [id]) = true) as ->.
      { apply includes_spec. rewrite elem_of_app, list_elem_of_singleton. by right. }
      rewrite removeFromFavorites_app, (removeFromFavorites_absent _ _ Hnot).
      unfold Store.removeFromFavorites. cbn. rewrite String.eqb_refl. cbn.
      by rewrite app_nil_r.
Qed.

Lemma toggle_favorite_flips_membership_witness :
  Store.toggleFavorite "n-2" (Store.toggleFavorite "n-2" ["n-1"; "n-3"]) = ["n-1"; "n-3"].
Proof.
  apply (proj2 (proj2 (proj2 (toggle_favorite_flips_membership "n-2" ["n-1"; "n-3"])))).
  rewrite !not_elem_of_cons. repeat split; [done|done|apply not_elem_of_nil].
Defined.

(** X27.  [removeFromFavorites] removes every occurrence of the opportunity
    and nothing else, so it undoes any number of [addToFavorites] of an
    opportunity that was not a favourite before; [addToFavorites] itself
    does not check for a duplicate. *)
Theorem remove_undoes_add_favorite (id : string) (favorites : list string) :
  (id ∉ Store.removeFromFavorites id favorites) /\
  Store.removeFromFavorites id (Store.addToFavorites id favorites)
  = Store.removeFromFavorites id favorites /\
  (id ∉ favorites ->
   Store.removeFromFavorites id
     (Store.addToFavorites id (Store.addToFavorites id favorites)) = favorites) /\
  (~ NoDup (Store.addToFavorites id (Store.addToFavorites id favorites))).
Proof.
  assert (Store.removeFromFavorites id [id] = []) as Hself.
  { unfold Store.removeFromFavorites. cbn. by rewrite String.eqb_refl. }
  split; [|split; [|split]].
  - rewrite elem_of_removeFromFavorites. tauto.
  - unfold Store.addToFavorites.
    by rewrite removeFromFavorites_app, Hself, app_nil_r.
  - intros Hnot. unfold Store.addToFavorites.
    rewrite !removeFromFavorites_app, Hself, !app_nil_r.
    by apply removeFromFavorites_absent.
  - unfold Store.addToFavorites. rewrite <- app_assoc. cbn.
    intros Hnd. apply NoDup_app in Hnd as (_ & _ & Hnd).
    apply NoDup_cons in Hnd as [Hnot _]. apply Hnot. by left.
Qed.

Lemma remove_undoes_add_favorite_witness :
  Store.removeFromFavorites "n-2"
    (Store.addToFavorites "n-2" (Store.addToFavorites "n-2" ["n-1"])) = ["n-1"].
Proof.
  apply (proj1 (proj2 (proj2 (remove_undoes_add_favorite "n-2" ["n-1"])))).
  rewrite not_elem_of_cons. split; [done|apply not_elem_of_nil].
Defined.

Section ValidationFacts.
Import Chat ChatHandlers Store.
Context `{Host}.

Lemma pages_answer_to_validation fetch xff remote llmConfig now later m :
  response_ok
    (pages_status
       (handler fetch (as_pages_request xff remote (validation_body llmConfig))
          now later m).1) = false.
Proof.
  unfold handler, as_pages_request, validation_body. cbn.
  change (negb (String.eqb "POST" "POST")) with false. cbv iota.
  destruct (RateLimit.checkRateLimit _ _ _) as [[|] m']; cbn; [|done].
  destruct (String.eqb _ _); [done|].
  destruct (_ || _); [done|].
  by destruct (provider_of _).
Qed.

Lemma route_answer_to_validation toLowerCase fetch xff real_ip llmConfig now m :
  response_ok
    (status
       (POST toLowerCase fetch (as_route_request xff real_ip (validation_body llmConfig))
          now m).1) = false.
Proof.
  unfold POST, as_route_request, validation_body.
  destruct (RateLimit.checkRateLimit _ _ _) as [[|] m']; by cbn.
Qed.

End ValidationFacts.

(** X28.  The request [validateLLMConfig] posts carries its key nowhere: it
    has no Authorization header and its body has neither [apiKey] nor
    [context.apiKey].  So whichever of the two chat handlers answers it,
    whatever the configuration, the caller's address, the state of the
    limiter and the providers, the answer is not a 2xx and
    [validateLLMConfig] returns false. *)
Theorem llm_config_validation_never_succeeds `{Host}
    (toLowerCase : string -> string)
    (fetch : Chat.FetchRequest -> outcome Chat.FetchResponse)
    (x_forwarded_for address : option string) (llmConfig : Store.LLMConfig)
    (now later : Z) (m : gmap string RateLimit.RateWindow) :
  Store.validateLLMConfig
    (fun body =>
       Return (ChatHandlers.pages_status
                 (ChatHandlers.handler fetch
                    (Store.as_pages_request x_forwarded_for address body)
                    now later m).1))
    llmConfig = false /\
  Store.validateLLMConfig
    (fun body =>
       Return (ChatHandlers.status
                 (ChatHandlers.POST toLowerCase fetch
                    (Store.as_route_request x_forwarded_for address body)
                    now m).1))
    llmConfig = false.
Proof.
  unfold Store.validateLLMConfig.
  split; destruct (_ || _); try done.
  - apply pages_answer_to_validation.
  - apply route_answer_to_validation.
Qed.

(** ** Who the chat limiter counts *)

Section ClientIpFacts.
Import Chat ChatHandlers.
Context `{Host}.

Lemma missing_false s : missing s = false -> exists t, s = Some t /\ t <> EmptyString.
Proof.
  destruct s as [t|]; [|done]. cbn. intros Ht. exists t. split; [done|].
  by apply String.eqb_neq.
Qed.

Lemma or_string_unknown a : default "unknown" (or_string a (Some "unknown")) <> EmptyString.
Proof.
  unfold or_string. destruct (missing a) eqn:Ha; [done|].
  destruct (missing_false _ Ha) as (t & -> & Ht). done.
Qed.

(** The first entry of a comma-separated header. *)
Lemma split_first first rest :
  free_of comma first = true ->
  (rest = EmptyString \/ exists r, rest = String comma r) ->
  head (split comma (first +:+ rest)) = Some first.
Proof.
  intros Hfree [->|[r ->]].
  - by rewrite append_empty_r, split_free.
  - by rewrite split_at.
Qed.

Lemma clientIp_forwarded req first rest :
  free_of comma first = true ->
  (rest = EmptyString \/ exists r, rest = String comma r) ->
  x_forwarded_for req = Some (first +:+ rest) ->
  clientIp req
  = default "unknown"
      (or_string (or_string (Some (trim first)) (x_real_ip req)) (Some "unknown")).
Proof.
  intros Hfree Hrest Hheader. unfold clientIp. rewrite Hheader. cbn [fmap option_fmap option_map].
  by rewrite (split_first first rest Hfree Hrest).
Qed.

End ClientIpFacts.

(** X29.  The chat limiter of app/api/chat/route.ts counts a request under
    the first entry of [X-Forwarded-For], trimmed, whatever [X-Real-IP] says
    and whatever entries follow; under [X-Real-IP] when there is no
    [X-Forwarded-For] or its first entry is blank; and under ["unknown"]
    when neither header is there.  The identity is never empty.  A request
    whose identity has no entry in the table is never answered 429, so a
    caller naming a forwarded address the table has not seen is never
    limited; a request whose identity has a full, unexpired window is
    answered 429 and the table is left as it was. *)
Theorem chat_limiter_keyed_by_forwarded_header `{Host}
    (toLowerCase : string -> string)
    (fetch : Chat.FetchRequest -> outcome Chat.FetchResponse)
    (req : ChatHandlers.RouteRequest) (now : Z)
    (m : gmap string RateLimit.RateWindow) :
  (forall first rest,
      ChatHandlers.free_of ChatHandlers.comma first = true ->
      (rest = EmptyString \/ exists r, rest = String ChatHandlers.comma r) ->
      ChatHandlers.x_forwarded_for req = Some (first +:+ rest) ->
      (trim first <> EmptyString ->
       ChatHandlers.clientIp req = trim first /\
       (m !! trim first = None ->
        ChatHandlers.status (ChatHandlers.POST toLowerCase fetch req now m).1 <> 429)) /\
      (trim first = EmptyString ->
       forall ip, ChatHandlers.x_real_ip req = Some ip -> ip <> EmptyString ->
                  ChatHandlers.clientIp req = ip)) /\
  (ChatHandlers.x_forwarded_for req = None ->
   forall ip, ChatHandlers.x_real_ip req = Some ip -> ip <> EmptyString ->
              ChatHandlers.clientIp req = ip) /\
  (ChatHandlers.x_forwarded_for req = None -> ChatHandlers.x_real_ip req = None ->
   ChatHandlers.clientIp req = "unknown") /\
  ChatHandlers.clientIp req <> EmptyString /\
  (m !! ChatHandlers.clientIp req = None ->
   ChatHandlers.status (ChatHandlers.POST toLowerCase fetch req now m).1 <> 429) /\
  (forall w,
      m !! ChatHandlers.clientIp req = Some w ->
      now - RateLimit.timestamp w <= RateLimit.RATE_LIMIT_WINDOW ->
      RateLimit.RATE_LIMIT_MAX_REQUESTS <= RateLimit.count w ->
      ChatHandlers.POST toLowerCase fetch req now m
      = ({| ChatHandlers.status := 429;
            ChatHandlers.json :=
              ChatHandlers.ErrorJson "Rate limit exceeded. Try again later." |}, m)).
Proof.
  assert (m !! ChatHandlers.clientIp req = None ->
          ChatHandlers.status (ChatHandlers.POST toLowerCase fetch req now m).1 <> 429)
    as Hnew.
  { intros Hnew H429. apply POST_status in H429.
    rewrite checkRateLimit_window, window_check_reset in H429; [done|].
    by rewrite Hnew. }
  split; [|split; [|split; [|split; [|split]]]].
  - intros first rest Hfree Hrest Hheader.
    rewrite (clientIp_forwarded req first rest Hfree Hrest Hheader).
    unfold ChatHandlers.or_string. split.
    + intros Hfirst.
      assert (ChatHandlers.clientIp req = trim first) as Hid.
      { rewrite (clientIp_forwarded req first rest Hfree Hrest Hheader).
        unfold ChatHandlers.or_string.
        by rewrite !(missing_Some (trim first) Hfirst). }
      rewrite !(missing_Some (trim first) Hfirst). split; [done|].
      intros Hfresh. apply Hnew. by rewrite Hid.
    + intros Hblank ip Hreal Hip. rewrite Hblank, Hreal.
      change (ChatHandlers.missing (Some EmptyString)) with true. cbv iota.
      by rewrite !(missing_Some ip Hip).
  - intros Hnone ip Hreal Hip. unfold ChatHandlers.clientIp, ChatHandlers.or_string.
    rewrite Hnone, Hreal. cbn [fmap option_fmap option_map].
    change (ChatHandlers.missing None) with true. cbv iota.
    by rewrite !(missing_Some ip Hip).
  - unfold ChatHandlers.clientIp. by intros -> ->.
  - apply or_string_unknown.
  - exact Hnew.
  - intros w Hw Hin Hfull. unfold ChatHandlers.POST.
    rewrite checkRateLimit_window.
    by rewrite (window_check_reject _ _ _ _ _ _ Hw Hin Hfull).
Qed.

Lemma chat_limiter_keyed_by_forwarded_header_witness :
  let crowded : gmap string RateLimit.RateWindow :=
    {[ "203.0.113.7" := {| RateLimit.count := 20; RateLimit.timestamp := 0 |} ]} in
  let request forwarded :=
    {| ChatHandlers.x_forwarded_for := forwarded;
       ChatHandlers.x_real_ip := Some "203.0.113.7";
       ChatHandlers.body := Throw (Error "Unexpected end of JSON input") |} in
  ChatHandlers.status
    (ChatHandlers.POST (H := Demo.host) UtilsMore.lower Demo.fetch
       (request None) 1000 crowded).1 = 429 /\
  ChatHandlers.clientIp (H := Demo.host)
    (request (Some " 198.51.100.9 , 10.0.0.1")) = "198.51.100.9" /\
  ChatHandlers.status
    (ChatHandlers.POST (H := Demo.host) UtilsMore.lower Demo.fetch
       (request (Some " 198.51.100.9 , 10.0.0.1")) 1000 crowded).1 <> 429.
Proof.
  intros crowded request.
  pose proof (chat_limiter_keyed_by_forwarded_header (H := Demo.host)
                UtilsMore.lower Demo.fetch (request None) 1000 crowded)
    as (_ & Hreal & _ & _ & _ & Hfull).
  pose proof (chat_limiter_keyed_by_forwarded_header (H := Demo.host)
                UtilsMore.lower Demo.fetch
                (request (Some " 198.51.100.9 , 10.0.0.1")) 1000 crowded)
    as (Hforwarded & _).
  split; [|].
  - rewrite (Hfull {| RateLimit.count := 20; RateLimit.timestamp := 0 |});
      [reflexivity| |vm_compute; discriminate|vm_compute; discriminate].
    rewrite (Hreal eq_refl "203.0.113.7" eq_refl ltac:(discriminate)).
    reflexivity.
  - destruct (Hforwarded " 198.51.100.9 " ", 10.0.0.1" eq_refl
                (or_intror (ex_intro _ " 10.0.0.1" eq_refl)) eq_refl)
      as [Hfirst _].
    destruct (Hfirst ltac:(vm_compute; discriminate)) as [Hid Hfresh].
    split; [exact Hid|]. apply Hfresh. vm_compute. reflexivity.
Defined.
